(** * flair: the character language model (flair/models/language_model.py)

    A shallow embedding of [LanguageModel] and of the part of the tensor
    library it calls.

    - Python objects live on a heap: a model is referred to by its location
      and every method takes [self] as a location.
    - Methods run in a state-and-exception monad over a [World]: the heap,
      the file system written by [torch.save], the state of the random
      generator, the autograd switch, the process-wide [flair.device] and
      the mode of [torch.load] (weights-only unless the process has switched
      it off).
    - A tensor is its shape, its entries, and its autograd bookkeeping.  The
      shape contracts of the tensor library are modelled as its current
      release documents them; the arithmetic of its kernels (sampling, the
      recurrent cell, matrix products) is left uninterpreted in a [Backend]
      that every statement quantifies over.
    - Python floats are IEEE binary64 values: Rocq's primitive floats.
    - The statements are proved for every backend; the concrete runs at the
      end use a small backend whose generator is a counter. *)

From Stdlib Require Import ZArith Floats Lia.
From stdpp Require Import base option list strings pretty gmap.

Set Warnings "-register-all,-inexact-float".
Local Open Scope Z_scope.

(** ** Python values and exceptions *)

(** The exceptions the source and the library can raise.  The last three are
    the classes of the specification's error taxonomy; the source defines
    none of them. *)
Inductive exn : Type :=
  | KeyError (key : string)
  | IndexError
  | TypeError
  | ValueError
  | ZeroDivisionError
  | RuntimeError
  | FileNotFoundError
  | ReferenceError
  | AttributeError
  | UnpicklingError
  | ConfigurationError
  | ShapeMismatchError
  | CorruptRecordError.

Inductive outcome (A : Type) : Type :=
  | Ok (a : A)
  | Raise (e : exn).
Arguments Ok {A} a.
Arguments Raise {A} e.

(** Errors raised from inside the tensor library or the Python runtime, as
    opposed to the classes of the specification. *)
Definition library_error (e : exn) : bool :=
  match e with
  | ConfigurationError | ShapeMismatchError | CorruptRecordError => false
  | _ => true
  end.

Inductive Device : Type := CPU | CUDA.

(** ** Tensors *)

Inductive Data : Type :=
  | FloatData (xs : list float)
  | LongData (ks : list Z).

Record Tensor : Type := mkTensor {
  shape : list nat;
  data : Data;
  requires_grad : bool;
  grad_fn : option string
}.

Definition numel (s : list nat) : nat := foldr Nat.mul 1%nat s.

Definition dim (t : Tensor) : nat := length (shape t).

(** [Tensor.detach()]: the same entries, cut from the graph. *)
Definition detach (t : Tensor) : Tensor :=
  mkTensor (shape t) (data t) false None.

(** [Tensor.clone()]: a copy that stays in the graph of its source. *)
Definition clone (t : Tensor) : Tensor :=
  mkTensor (shape t) (data t) (requires_grad t)
    (if requires_grad t then Some "CloneBackward" else None).

(** [Tensor.data]: the entries, without history. *)
Definition dot_data (t : Tensor) : Tensor := detach t.

(** [torch.tensor(t)]: a new leaf tensor holding a copy of the entries. *)
Definition torch_tensor (t : Tensor) : Tensor :=
  mkTensor (shape t) (data t) false None.

(** [Tensor.zero_()] *)
Definition zero_ (t : Tensor) : Tensor :=
  mkTensor (shape t)
    (match data t with
     | FloatData _ => FloatData (replicate (numel (shape t)) 0%float)
     | LongData _ => LongData (replicate (numel (shape t)) 0)
     end) (requires_grad t) (grad_fn t).

(** A tensor without history is a leaf that does not require gradients. *)
Definition no_history (t : Tensor) : Prop :=
  requires_grad t = false ∧ grad_fn t = None.

(** A hidden state as [repackage_hidden] sees it: a tensor, or a tuple of
    hidden states. *)
Inductive Hidden : Type :=
  | HTensor (t : Tensor)
  | HTuple (hs : list Hidden).

(** ** Modules of torch.nn *)

Module Embedding.
Record t : Type := mk {
  num_embeddings : nat;
  embedding_dim : nat;
  weight : Tensor
}.
End Embedding.

Module Dropout.
Record t : Type := mk { p : float }.
End Dropout.

Module Linear.
Record t : Type := mk {
  in_features : nat;
  out_features : nat;
  weight : Tensor;
  bias : Tensor
}.
End Linear.

Module LSTM.
Record layer : Type := mkLayer {
  weight_ih : Tensor;
  weight_hh : Tensor;
  bias_ih : Tensor;
  bias_hh : Tensor
}.
Record t : Type := mk {
  input_size : nat;
  hidden_size : nat;
  num_layers : nat;
  dropout : float;
  layers : list layer
}.
End LSTM.

(** ** The dictionary *)

(** Modelled from the spec: the Dictionary collaborator (flair/data.py), "a
    bidirectional mapping between symbols and integer indices" that "provides
    size and lookup".  The model reads its symbol table [idx2item] and its
    size.  Symbols are stored as UTF-8 encoded byte strings; a Python [str] is
    represented by its encoding, so that decoding a stored symbol returns the
    same bytes. *)
Module Dictionary.
Record t : Type := mk { idx2item : list string }.
Definition len (d : t) : nat := length (idx2item d).
Definition decode (item : string) : string := item.
End Dictionary.

(** ** The model object *)

Record LanguageModel : Type := mkLanguageModel {
  dictionary : Dictionary.t;
  is_forward_lm : bool;
  dropout : float;
  hidden_size : Z;
  embedding_size : Z;
  nlayers : Z;
  drop : Dropout.t;
  encoder : Embedding.t;
  rnn : LSTM.t;
  hidden : option Hidden;
  nout : option Z;
  proj : option Linear.t;
  decoder : Linear.t;
  training : bool;
  device : Device
}.

Abbreviation loc := nat (only parsing).

(** Values that are stored in, or read back from, a persisted record. *)
Inductive Value : Type :=
  | VNone
  | VBool (b : bool)
  | VInt (z : Z)
  | VFloat (f : float)
  | VStr (s : string)
  | VDictionary (d : Dictionary.t)
  | VStateDict (sd : gmap string Tensor)
  | VModel (l : loc).

(** [torch.optim.Optimizer]: only its [state_dict()] is used. *)
Record Optimizer : Type := mkOptimizer { optimizer_state : Value }.

(** ** The uninterpreted part of the tensor library *)

Class Backend : Type := mkBackend {
  Generator : Type;
  (** The initial values a layer of torch.nn gives to a parameter of [n]
      entries in its own [reset_parameters]. *)
  reset_parameters : Generator → nat → list float * Generator;
  (** [Tensor.uniform_(lo, hi)] on [n] entries. *)
  uniform : Generator → float → float → nat → list float * Generator;
  (** [torch.rand(..).mul(n).long()] on [k] entries. *)
  rand_mul_long : Generator → nat → nat → list Z * Generator;
  rand_mul_long_length : ∀ g n k, length (rand_mul_long g n k).1 = k;
  rand_mul_long_range : ∀ g n k i,
    i ∈ (rand_mul_long g n k).1 → 0 ≤ i ∧ (i < Z.of_nat n ∨ (n = 0%nat ∧ i = 0));
  (** One draw of [torch.multinomial] from the weights of [n] categories. *)
  multinomial_draw : Generator → nat → list float → nat * Generator;
  multinomial_draw_lt : ∀ g n ws,
    n ≠ 0%nat → ((multinomial_draw g n ws).1 < n)%nat;
  (** The entries of freshly allocated, uninitialised storage. *)
  uninitialized : nat → list float;
  uninitialized_long : nat → list Z;
  (** Dropout in training mode. *)
  dropout_kernel : Generator → float → list float → list float * Generator;
  embedding_kernel : list float → nat → list Z → list float;
  lstm_kernel :
    Generator → bool → float → list LSTM.layer → list float → list float →
    list float → (list float * list float * list float) * Generator;
  linear_kernel : list float → list float → list float → list float;
  exp_kernel : list float → list float;
  div_kernel : list float → float → list float
}.

Section WithBackend.
Context `{Backend}.

(** ** The world and the monad of methods *)

(** The state a method can read and change.  [flair_device] is the
    process-wide [flair.device] (of flair/__init__.py), read when a model is
    constructed or loaded.  [weights_only] is the mode in which [torch.load]
    unpickles when it is called without [weights_only], as the source calls
    it: on by default, and off in a process that has switched the default
    off (TORCH_FORCE_NO_WEIGHTS_ONLY_LOAD). *)
Record World : Type := mkWorld {
  heap : gmap loc LanguageModel;
  files : gmap string (gmap string Value);
  generator : Generator;
  grad_enabled : bool;
  flair_device : Device;
  weights_only : bool
}.

Definition set_heap (h : gmap loc LanguageModel) (w : World) : World :=
  mkWorld h (files w) (generator w) (grad_enabled w) (flair_device w)
    (weights_only w).
Definition set_files (f : gmap string (gmap string Value)) (w : World) : World :=
  mkWorld (heap w) f (generator w) (grad_enabled w) (flair_device w)
    (weights_only w).
Definition set_generator (g : Generator) (w : World) : World :=
  mkWorld (heap w) (files w) g (grad_enabled w) (flair_device w)
    (weights_only w).
Definition set_grad_enabled (b : bool) (w : World) : World :=
  mkWorld (heap w) (files w) (generator w) b (flair_device w)
    (weights_only w).

(** A method either returns or raises; in both cases its effects on the
    world remain. *)
Definition M (A : Type) : Type := World → outcome A * World.

#[global] Instance M_ret : MRet M := λ A a w, (Ok a, w).
#[global] Instance M_bind : MBind M := λ A B f m w,
  match m w with
  | (Ok a, w') => f a w'
  | (Raise e, w') => (Raise e, w')
  end.

Definition raise {A} (e : exn) : M A := λ w, (Raise e, w).

(** Draw from the random generator and advance it. *)
Definition sample {A} (k : Generator → A * Generator) : M A := λ w,
  let '(a, g) := k (generator w) in (Ok a, set_generator g w).

Definition get_grad_enabled : M bool := λ w, (Ok (grad_enabled w), w).

Definition get_flair_device : M Device := λ w, (Ok (flair_device w), w).

(** [with torch.no_grad():] switches autograd off for the block and restores
    the previous mode on exit, also when the block raises. *)
Definition no_grad {A} (body : M A) : M A := λ w,
  let prev := grad_enabled w in
  let '(r, w') := body (set_grad_enabled false w) in
  (r, set_grad_enabled prev w').

(** Dereference an object. *)
Definition read (l : loc) : M LanguageModel := λ w,
  match heap w !! l with
  | Some m => (Ok m, w)
  | None => (Raise ReferenceError, w)
  end.

Definition write (l : loc) (m : LanguageModel) : M unit := λ w,
  (Ok tt, set_heap (<[l := m]> (heap w)) w).

(** Allocate a new object at a location that is not in use. *)
Definition alloc (m : LanguageModel) : M loc := λ w,
  let l := fresh (dom (heap w)) in
  (Ok l, set_heap (<[l := m]> (heap w)) w).

(** [for _ in range(n)]: iterate [body] on the loop state. *)
Fixpoint for_range {S} (n : nat) (body : S → M S) (s : S) : M S :=
  match n with
  | O => mret s
  | S n' => s' ← body s; for_range n' body s'
  end.

(** ** Python helpers *)

(** [d[key]] on a dict *)
Definition getitem (d : gmap string Value) (key : string) : M Value :=
  match d !! key with
  | Some v => mret v
  | None => raise (KeyError key)
  end.

(** [d[key] if key in d else None] *)
Definition get_or_none (d : gmap string Value) (key : string) : Value :=
  match d !! key with
  | Some v => v
  | None => VNone
  end.

(** [xs[k]] on a list, with Python's negative indices. *)
Definition list_getitem {A} (xs : list A) (k : Z) : M A :=
  let n := Z.of_nat (length xs) in
  let i := if k <? 0 then k + n else k in
  if (0 <=? i) && (i <? n) then
    match xs !! Z.to_nat i with
    | Some x => mret x
    | None => raise IndexError
    end
  else raise IndexError.

(** Conversion of a Python int to a float (exact below 2^53). *)
Definition float_of_int (z : Z) : float :=
  if z <? 0 then PrimFloat.opp (PrimFloat.of_uint63 (Uint63.of_Z (- z)))
  else PrimFloat.of_uint63 (Uint63.of_Z z).

(** [x / n] for a float [x] and an int [n] *)
Definition truediv (x : float) (n : Z) : M float :=
  if n =? 0 then raise ZeroDivisionError
  else mret (PrimFloat.div x (float_of_int n)).

(** The values of a record at the types the constructor expects. *)
Definition as_dictionary (v : Value) : M Dictionary.t :=
  match v with VDictionary d => mret d | _ => raise TypeError end.
Definition as_bool (v : Value) : M bool :=
  match v with VBool b => mret b | _ => raise TypeError end.
Definition as_int (v : Value) : M Z :=
  match v with VInt z => mret z | _ => raise TypeError end.
Definition as_optional_int (v : Value) : M (option Z) :=
  match v with
  | VNone => mret None
  | VInt z => mret (Some z)
  | _ => raise TypeError
  end.
Definition as_float (v : Value) : M float :=
  match v with VFloat f => mret f | _ => raise TypeError end.
Definition as_state_dict (v : Value) : M (gmap string Tensor) :=
  match v with VStateDict sd => mret sd | _ => raise TypeError end.

(** ** Tensor operations *)

(** The sizes given to a tensor constructor must not be negative. *)
Definition check_sizes (sizes : list Z) : M (list nat) :=
  if forallb (Z.leb 0) sizes then mret (Z.to_nat <$> sizes)
  else raise RuntimeError.

(** The result of a differentiable operation: it is recorded in the graph
    when autograd is on and one of its inputs requires gradients. *)
Definition result_of (op : string) (inputs : list Tensor)
    (s : list nat) (d : Data) : M Tensor :=
  on ← get_grad_enabled;
  let tracked := on && existsb requires_grad inputs in
  mret (mkTensor s d tracked (if tracked then Some op else None)).

(** [nn.Parameter(torch.Tensor(sizes))], initialised by the layer. *)
Definition new_parameter (s : list nat) : M Tensor :=
  xs ← sample (λ g, reset_parameters g (numel s));
  mret (mkTensor s (FloatData xs) true None).

(** [Tensor.new(sizes)]: uninitialised storage of the same type. *)
Definition tensor_new (t : Tensor) (sizes : list Z) : M Tensor :=
  s ← check_sizes sizes;
  mret (mkTensor s
          (match data t with
           | FloatData _ => FloatData (uninitialized (numel s))
           | LongData _ => LongData (uninitialized_long (numel s))
           end) false None).

(** [Tensor.uniform_(lo, hi)], in place. *)
Definition uniform_ (t : Tensor) (lo hi : float) : M Tensor :=
  xs ← sample (λ g, uniform g lo hi (numel (shape t)));
  mret (mkTensor (shape t) (FloatData xs) (requires_grad t) (grad_fn t)).

(** [Tensor.fill_(x)] with a Python number, in place. *)
Definition fill_ (t : Tensor) (x : Z) : Tensor :=
  mkTensor (shape t)
    (match data t with
     | FloatData _ => FloatData (replicate (numel (shape t)) (float_of_int x))
     | LongData _ => LongData (replicate (numel (shape t)) x)
     end) (requires_grad t) (grad_fn t).

(** [Tensor.fill_(v)] with a tensor, as the source calls it: [v] is a
    0-dimensional tensor that holds an index. *)
Definition fill_tensor_ (t v : Tensor) : M Tensor :=
  match shape v, data v with
  | [], LongData [k] => mret (fill_ t k)
  | _, _ => raise RuntimeError
  end.

(** [Tensor.size(i)] *)
Definition size (t : Tensor) (i : nat) : M nat :=
  match shape t !! i with
  | Some n => mret n
  | None => raise IndexError
  end.

(** [Tensor.view(sizes)] *)
Definition view (t : Tensor) (s : list nat) : M Tensor :=
  if decide (numel s = numel (shape t))
  then result_of "ViewBackward" [t] s (data t)
  else raise RuntimeError.

(** [Tensor.squeeze()]: every dimension of size 1 is removed. *)
Definition squeeze (t : Tensor) : M Tensor :=
  result_of "SqueezeBackward" [t]
    (filter (λ n, n ≠ 1%nat) (shape t)) (data t).

(** [Tensor.div(x)] and [Tensor.exp()] *)
Definition div (t : Tensor) (x : float) : M Tensor :=
  match data t with
  | FloatData xs => result_of "DivBackward" [t] (shape t) (FloatData (div_kernel xs x))
  | LongData ks =>
      result_of "DivBackward" [t] (shape t)
        (FloatData (div_kernel (float_of_int <$> ks) x))
  end.
Definition exp (t : Tensor) : M Tensor :=
  match data t with
  | FloatData xs => result_of "ExpBackward" [t] (shape t) (FloatData (exp_kernel xs))
  | LongData ks =>
      result_of "ExpBackward" [t] (shape t)
        (FloatData (exp_kernel (float_of_int <$> ks)))
  end.

(** [Tensor.cpu()] *)
Definition cpu (t : Tensor) : Tensor := t.

(** [torch.rand(s, device=..).mul(n).long()] *)
Definition rand_index (s : list nat) (n : nat) : M Tensor :=
  ks ← sample (λ g, rand_mul_long g n (numel s));
  mret (mkTensor s (LongData ks) false None).

(** One draw per row of a matrix of weights. *)
Fixpoint draw_rows (rows n : nat) (ws : list float) (g : Generator)
    : list Z * Generator :=
  match rows with
  | O => ([], g)
  | S rows' =>
      let '(k, g1) := multinomial_draw g n (take n ws) in
      let '(ks, g2) := draw_rows rows' n (skipn n ws) g1 in
      (Z.of_nat k :: ks, g2)
  end.

(** [torch.multinomial(weights, 1)]: the weights are a vector, or a matrix
    with a distribution per row, over at least one category.  (That the
    weights are finite and not all zero is a matter of their values.) *)
Definition multinomial (weights : Tensor) : M Tensor :=
  match data weights, shape weights with
  | FloatData ws, [n] =>
      if decide (n = 0%nat) then raise RuntimeError
      else
        k ← sample (λ g, multinomial_draw g n ws);
        mret (mkTensor [1%nat] (LongData [Z.of_nat k]) false None)
  | FloatData ws, [rows; n] =>
      if decide (n = 0%nat) then raise RuntimeError
      else
        ks ← sample (draw_rows rows n ws);
        mret (mkTensor [rows; 1%nat] (LongData ks) false None)
  | _, _ => raise RuntimeError
  end.

(** [t[0]] *)
Definition select0 (t : Tensor) : M Tensor :=
  match shape t with
  | [] => raise IndexError
  | O :: _ => raise IndexError
  | S _ :: s =>
      result_of "SelectBackward" [t] s
        (match data t with
         | FloatData xs => FloatData (take (numel s) xs)
         | LongData ks => LongData (take (numel s) ks)
         end)
  end.

(** A tensor used as an index (its [__index__]): an integer tensor with a
    single element. *)
Definition tensor_index (t : Tensor) : M Z :=
  match data t with
  | LongData [k] => mret k
  | _ => raise TypeError
  end.

(** ** Layers of torch.nn *)

(** [nn.Dropout(p)] *)
Definition Dropout_init (p : float) : M Dropout.t :=
  if PrimFloat.ltb p 0 || PrimFloat.ltb 1 p then raise ValueError
  else mret (Dropout.mk p).

(** [nn.Embedding(num_embeddings, embedding_dim)] *)
Definition Embedding_init (num_embeddings : nat) (embedding_dim : Z)
    : M Embedding.t :=
  s ← check_sizes [Z.of_nat num_embeddings; embedding_dim];
  weight ← new_parameter s;
  mret (Embedding.mk num_embeddings (Z.to_nat embedding_dim) weight).

(** [nn.Linear(in_features, out_features)]: the weight is stored as
    [out_features x in_features]. *)
Definition Linear_init (in_features out_features : Z) : M Linear.t :=
  s ← check_sizes [out_features; in_features];
  weight ← new_parameter s;
  bias ← new_parameter [Z.to_nat out_features];
  mret (Linear.mk (Z.to_nat in_features) (Z.to_nat out_features) weight bias).

(** The four parameters of one recurrent layer. *)
Definition LSTM_new_layer (layer_input_size hidden_size : Z) : M LSTM.layer :=
  s_ih ← check_sizes [4 * hidden_size; layer_input_size];
  w_ih ← new_parameter s_ih;
  w_hh ← new_parameter [Z.to_nat (4 * hidden_size); Z.to_nat hidden_size];
  b_ih ← new_parameter [Z.to_nat (4 * hidden_size)];
  b_hh ← new_parameter [Z.to_nat (4 * hidden_size)];
  mret (LSTM.mkLayer w_ih w_hh b_ih b_hh).

(** The first layer reads the input, every later one the layer below. *)
Fixpoint LSTM_new_layers (count : nat) (layer_input_size hidden_size : Z)
    : M (list LSTM.layer) :=
  match count with
  | O => mret []
  | S count' =>
      l ← LSTM_new_layer layer_input_size hidden_size;
      ls ← LSTM_new_layers count' hidden_size hidden_size;
      mret (l :: ls)
  end.

(** [nn.LSTM(input_size, hidden_size, num_layers, dropout=dropout)]: the
    dropout is a probability and the three sizes are positive. *)
Definition LSTM_init (input_size hidden_size num_layers : Z) (dropout : float)
    : M LSTM.t :=
  if negb (PrimFloat.leb 0 dropout && PrimFloat.leb dropout 1)
  then raise ValueError
  else if input_size <=? 0 then raise ValueError
  else if hidden_size <=? 0 then raise ValueError
  else if num_layers <=? 0 then raise ValueError
  else
    layers ← LSTM_new_layers (Z.to_nat num_layers) input_size hidden_size;
    mret (LSTM.mk (Z.to_nat input_size) (Z.to_nat hidden_size)
            (Z.to_nat num_layers) dropout layers).

(** [Embedding.forward]: a row of the table for every index.  An index
    outside the table is an IndexError, and any index into a table without
    rows is the RuntimeError of the selection. *)
Definition Embedding_forward (e : Embedding.t) (input : Tensor) : M Tensor :=
  match data input with
  | LongData ks =>
      if forallb (λ k, (0 <=? k) && (k <? Z.of_nat (Embedding.num_embeddings e))) ks
      then
        match data (Embedding.weight e) with
        | FloatData ws =>
            result_of "EmbeddingBackward" [Embedding.weight e]
              (shape input ++ [Embedding.embedding_dim e])
              (FloatData (embedding_kernel ws (Embedding.embedding_dim e) ks))
        | LongData _ => raise RuntimeError
        end
      else if decide (Embedding.num_embeddings e = 0%nat) then raise RuntimeError
      else raise IndexError
  | FloatData _ => raise RuntimeError
  end.

(** [Dropout.forward]: the identity outside training. *)
Definition Dropout_forward (d : Dropout.t) (training : bool) (x : Tensor)
    : M Tensor :=
  if training then
    match data x with
    | FloatData xs =>
        ys ← sample (λ g, dropout_kernel g (Dropout.p d) xs);
        result_of "DropoutBackward" [x] (shape x) (FloatData ys)
    | LongData _ => raise RuntimeError
    end
  else mret x.

Definition LSTM_parameters (r : LSTM.t) : list Tensor :=
  l ← LSTM.layers r;
  [LSTM.weight_ih l; LSTM.weight_hh l; LSTM.bias_ih l; LSTM.bias_hh l].

(** The recurrence itself, once the shapes have been checked: [lead] is the
    batch dimension of a batched call and empty for an unbatched one. *)
Definition LSTM_run (r : LSTM.t) (training : bool) (seq_len : nat)
    (lead : list nat) (input h0 c0 : Tensor) (xs hs cs : list float)
    : M (Tensor * Hidden) :=
  '(out, hn, cn) ← sample (λ g,
      lstm_kernel g training (LSTM.dropout r) (LSTM.layers r) xs hs cs);
  let inputs := [input; h0; c0] ++ LSTM_parameters r in
  output ← result_of "LstmBackward" inputs
             ([seq_len] ++ lead ++ [LSTM.hidden_size r]) (FloatData out);
  h ← result_of "LstmBackward" inputs (shape h0) (FloatData hn);
  c ← result_of "LstmBackward" inputs (shape c0) (FloatData cn);
  mret (output, HTuple [HTensor h; HTensor c]).

(** [t[i]] on a tensor: the slice at position [i] of its first dimension. *)
Definition tensor_item (t : Tensor) (i : nat) : M Tensor :=
  match shape t with
  | [] => raise IndexError
  | n :: s =>
      if decide (i < n)%nat then
        result_of "SelectBackward" [t] s
          (match data t with
           | FloatData xs => FloatData (take (numel s) (skipn (i * numel s) xs))
           | LongData ks => LongData (take (numel s) (skipn (i * numel s) ks))
           end)
      else raise IndexError
  end.

(** [hx[i]], of which [LSTM.forward] asks the number of dimensions: an
    element of a tuple, which has to be a tensor, or a slice of a tensor. *)
Definition hidden_entry (hx : Hidden) (i : nat) : M Tensor :=
  match hx with
  | HTuple hs =>
      match hs !! i with
      | Some (HTensor t) => mret t
      | Some (HTuple _) => raise AttributeError
      | None => raise IndexError
      end
  | HTensor t => tensor_item t i
  end.

Definition is_tensor (h : Hidden) : bool :=
  match h with HTensor _ => true | HTuple _ => false end.

(** The hidden state as the kernel of a batched call receives it: a
    sequence of exactly two tensors. *)
Definition check_hidden_states (hx : Hidden) : M unit :=
  match hx with
  | HTuple [_; _] => mret tt
  | HTuple hs => if forallb is_tensor hs then raise RuntimeError else raise TypeError
  | HTensor _ => raise TypeError
  end.

(** [LSTM.forward(input, hx)]: sequence-major input, batched (3-D) or
    unbatched (2-D).  [hx[0]] and [hx[1]] have as many dimensions as the
    input; the features of the input and the sizes of the two states are
    those of the layer; an unbatched call makes its own pair of the two
    states; and the sequence is not empty. *)
Definition LSTM_forward (r : LSTM.t) (training : bool) (input : Tensor)
    (hx : Hidden) : M (Tensor * Hidden) :=
  match shape input with
  | seq_len :: rest =>
      match rest with
      | [_] | [_; _] =>
          h0 ← hidden_entry hx 0;
          c0 ← hidden_entry hx 1;
          if decide (dim h0 = dim input ∧ dim c0 = dim input) then
            let lead := removelast rest in
            let expected := [LSTM.num_layers r] ++ lead ++ [LSTM.hidden_size r] in
            if decide (last rest = Some (LSTM.input_size r)
                       ∧ shape h0 = expected ∧ shape c0 = expected)
            then
              (if decide (dim input = 3%nat) then check_hidden_states hx
               else mret tt);;
              match data input, data h0, data c0 with
              | FloatData xs, FloatData hs, FloatData cs =>
                  if decide (seq_len = 0%nat) then raise RuntimeError
                  else LSTM_run r training seq_len lead input h0 c0 xs hs cs
              | _, _, _ => raise RuntimeError
              end
            else raise RuntimeError
          else raise RuntimeError
      | _ => raise ValueError
      end
  | [] => raise ValueError
  end.

(** [Linear.forward]: acts on the last dimension. *)
Definition Linear_forward (l : Linear.t) (x : Tensor) : M Tensor :=
  if decide (last (shape x) = Some (Linear.in_features l)) then
    match data x, data (Linear.weight l), data (Linear.bias l) with
    | FloatData xs, FloatData ws, FloatData bs =>
        result_of "AddmmBackward" [x; Linear.weight l; Linear.bias l]
          (removelast (shape x) ++ [Linear.out_features l])
          (FloatData (linear_kernel ws bs xs))
    | _, _, _ => raise RuntimeError
    end
  else raise RuntimeError.

(** ** Parameters by name *)

Definition with_weight (e : Embedding.t) (w : Tensor) : Embedding.t :=
  Embedding.mk (Embedding.num_embeddings e) (Embedding.embedding_dim e) w.

Definition Linear_with (l : Linear.t) (w b : Tensor) : Linear.t :=
  Linear.mk (Linear.in_features l) (Linear.out_features l) w b.

Definition LSTM_with_layers (r : LSTM.t) (ls : list LSTM.layer) : LSTM.t :=
  LSTM.mk (LSTM.input_size r) (LSTM.hidden_size r) (LSTM.num_layers r)
    (LSTM.dropout r) ls.

Definition layer_named_parameters (k : nat) (l : LSTM.layer)
    : list (string * Tensor) :=
  [ ("rnn.weight_ih_l" +:+ pretty k, LSTM.weight_ih l);
    ("rnn.weight_hh_l" +:+ pretty k, LSTM.weight_hh l);
    ("rnn.bias_ih_l" +:+ pretty k, LSTM.bias_ih l);
    ("rnn.bias_hh_l" +:+ pretty k, LSTM.bias_hh l) ].

Definition Linear_named_parameters (prefix : string) (l : Linear.t)
    : list (string * Tensor) :=
  [ (prefix +:+ ".weight", Linear.weight l);
    (prefix +:+ ".bias", Linear.bias l) ].

(** [Module.named_parameters()], in order of registration: the encoder, the
    recurrent layers, the projection if there is one, the decoder. *)
Definition named_parameters (m : LanguageModel) : list (string * Tensor) :=
  [("encoder.weight", Embedding.weight (encoder m))]
  ++ mjoin (imap layer_named_parameters (LSTM.layers (rnn m)))
  ++ from_option (Linear_named_parameters "proj") [] (proj m)
  ++ Linear_named_parameters "decoder" (decoder m).

(** Apply [f] to every parameter, by name. *)
Definition map_parameters (f : string → Tensor → Tensor) (m : LanguageModel)
    : LanguageModel :=
  let on_layer k l :=
    LSTM.mkLayer
      (f ("rnn.weight_ih_l" +:+ pretty k) (LSTM.weight_ih l))
      (f ("rnn.weight_hh_l" +:+ pretty k) (LSTM.weight_hh l))
      (f ("rnn.bias_ih_l" +:+ pretty k) (LSTM.bias_ih l))
      (f ("rnn.bias_hh_l" +:+ pretty k) (LSTM.bias_hh l)) in
  let on_linear prefix l :=
    Linear_with l (f (prefix +:+ ".weight") (Linear.weight l))
                  (f (prefix +:+ ".bias") (Linear.bias l)) in
  mkLanguageModel (dictionary m) (is_forward_lm m) (dropout m) (hidden_size m)
    (embedding_size m) (nlayers m) (drop m)
    (with_weight (encoder m) (f "encoder.weight" (Embedding.weight (encoder m))))
    (LSTM_with_layers (rnn m) (imap on_layer (LSTM.layers (rnn m))))
    (hidden m) (nout m)
    (on_linear "proj" <$> proj m)
    (on_linear "decoder" (decoder m))
    (training m) (device m).

(** [param.copy_(src)]: the entries of [src], as floats, in the storage of
    the parameter. *)
Definition copy_ (param src : Tensor) : Tensor :=
  mkTensor (shape param)
    (match data src with
     | FloatData xs => FloatData xs
     | LongData ks => FloatData (float_of_int <$> ks)
     end) (requires_grad param) (grad_fn param).

(** ** The methods of LanguageModel *)

Definition init_weights (self : loc) : M unit :=
  m ← read self;
  let initrange := 0.1%float in
  w ← uniform_ (Embedding.weight (encoder m)) (- initrange) initrange;
  let b := fill_ (Linear.bias (decoder m)) 0 in
  dw ← uniform_ (Linear.weight (decoder m)) (- initrange) initrange;
  write self
    (mkLanguageModel (dictionary m) (is_forward_lm m) (dropout m)
       (hidden_size m) (embedding_size m) (nlayers m) (drop m)
       (with_weight (encoder m) w) (rnn m) (hidden m) (nout m) (proj m)
       (Linear_with (decoder m) dw b) (training m) (device m)).

(** [math.sqrt] *)
Definition math_sqrt (x : float) : M float :=
  if PrimFloat.ltb x 0 then raise ValueError else mret (PrimFloat.sqrt x).

Definition initialize (matrix : Tensor) : M Tensor :=
  match shape matrix with
  | [in_; out_] =>
      q ← truediv 3 (Z.of_nat in_ + Z.of_nat out_);
      stdv ← math_sqrt q;
      uniform_ matrix (- stdv) stdv
  | _ => raise ValueError
  end.

(** [Module.to(device)] *)
Definition to (self : loc) (d : Device) : M unit :=
  m ← read self;
  write self
    (mkLanguageModel (dictionary m) (is_forward_lm m) (dropout m)
       (hidden_size m) (embedding_size m) (nlayers m) (drop m) (encoder m)
       (rnn m) (hidden m) (nout m) (proj m) (decoder m) (training m) d).

(** [Module.eval()] *)
Definition eval (self : loc) : M unit :=
  m ← read self;
  write self
    (mkLanguageModel (dictionary m) (is_forward_lm m) (dropout m)
       (hidden_size m) (embedding_size m) (nlayers m) (drop m) (encoder m)
       (rnn m) (hidden m) (nout m) (proj m) (decoder m) false (device m)).

(** The constructor.  The object becomes reachable once its attributes are
    set; its defaults ([embedding_size=100], [nout=None], [dropout=0.5]) are
    passed by the caller. *)
Definition __init__ (dictionary : Dictionary.t) (is_forward_lm : bool)
    (hidden_size nlayers embedding_size : Z) (nout : option Z)
    (dropout : float) : M loc :=
  drop ← Dropout_init dropout;
  encoder ← Embedding_init (Dictionary.len dictionary) embedding_size;
  rnn ← (if nlayers =? 1
         then LSTM_init embedding_size hidden_size nlayers 0
         else LSTM_init embedding_size hidden_size nlayers dropout);
  '(proj, decoder) ←
    match nout with
    | Some n =>
        proj ← Linear_init hidden_size n;
        w ← initialize (Linear.weight proj);
        decoder ← Linear_init n (Z.of_nat (Dictionary.len dictionary));
        mret (Some (Linear_with proj w (Linear.bias proj)), decoder)
    | None =>
        decoder ← Linear_init hidden_size (Z.of_nat (Dictionary.len dictionary));
        mret (None, decoder)
    end;
  self ← alloc (mkLanguageModel dictionary is_forward_lm dropout hidden_size
                  embedding_size nlayers drop encoder rnn None nout proj
                  decoder true CPU);
  init_weights self;;
  d ← get_flair_device;
  to self d;;
  mret self.

Definition set_hidden (self : loc) (h : Hidden) : M unit :=
  m ← read self;
  write self
    (mkLanguageModel (dictionary m) (is_forward_lm m) (dropout m)
       (hidden_size m) (embedding_size m) (nlayers m) (drop m) (encoder m)
       (rnn m) (Some h) (nout m) (proj m) (decoder m) (training m) (device m)).

(** [forward(input, hidden)]; the unused [ordered_sequence_lengths] is left
    out, and [flatten_parameters] only rearranges storage. *)
Definition forward (self : loc) (input : Tensor) (hidden : Hidden)
    : M (Tensor * Tensor * Hidden) :=
  m ← read self;
  encoded ← Embedding_forward (encoder m) input;
  emb ← Dropout_forward (drop m) (training m) encoded;
  '(output, hidden) ← LSTM_forward (rnn m) (training m) emb hidden;
  output ← match proj m with
           | Some p => Linear_forward p output
           | None => mret output
           end;
  output ← Dropout_forward (drop m) (training m) output;
  size0 ← size output 0;
  size1 ← size output 1;
  size2 ← size output 2;
  flat ← view output [(size0 * size1)%nat; size2];
  decoded ← Linear_forward (decoder m) flat;
  width ← size decoded 1;
  logits ← view decoded [size0; size1; width];
  mret (logits, output, hidden).

Definition init_hidden (self : loc) (bsz : Z) : M Hidden :=
  m ← read self;
  let weight := dot_data (Embedding.weight (encoder m)) in
  h ← tensor_new weight [nlayers m; bsz; hidden_size m];
  let h := detach (clone (zero_ h)) in
  c ← tensor_new weight [nlayers m; bsz; hidden_size m];
  let c := detach (clone (zero_ c)) in
  mret (HTuple [HTensor h; HTensor c]).

(** Wraps hidden states in new tensors, to detach them from their history. *)
Fixpoint repackage_hidden (h : Hidden) : Hidden :=
  match h with
  | HTensor t => HTensor (torch_tensor (dot_data t))
  | HTuple hs => HTuple (repackage_hidden <$> hs)
  end.

(** [Module.state_dict()]: the parameters by name, detached. *)
Definition state_dict (self : loc) : M (gmap string Tensor) :=
  m ← read self;
  mret (list_to_map (prod_map id detach <$> named_parameters m)).

(** [Module.load_state_dict(sd)], strict: every parameter has an entry of its
    shape and there is no other entry. *)
Definition load_state_dict (self : loc) (sd : gmap string Tensor) : M unit :=
  m ← read self;
  let params := named_parameters m in
  let found '(name, param) :=
    match sd !! name with
    | Some t => bool_decide (shape t = shape param)
    | None => false
    end in
  if forallb found params && bool_decide (dom sd ⊆ list_to_set params.*1)
  then
    write self
      (map_parameters (λ name param, from_option (copy_ param) param (sd !! name)) m)
  else raise RuntimeError.

(** The values that [torch.load] unpickles when it loads weights only:
    numbers, strings, the none marker and state dicts, but no object of a
    class of flair or of a module. *)
Definition weights_only_safe (v : Value) : bool :=
  match v with
  | VDictionary _ | VModel _ => false
  | _ => true
  end.

(** [torch.load(file, map_location=flair.device)]: called without
    [weights_only], it loads weights only unless the process has switched
    that off, and then refuses a record that holds any other object. *)
Definition torch_load (file : string) : M (gmap string Value) := λ w,
  match files w !! file with
  | Some record =>
      if weights_only w && negb (forallb weights_only_safe (map_to_list record).*2)
      then (Raise UnpicklingError, w)
      else (Ok record, w)
  | None => (Raise FileNotFoundError, w)
  end.

(** [torch.save(record, file, pickle_protocol=4)] *)
Definition torch_save (record : gmap string Value) (file : string) : M unit :=
  λ w, (Ok tt, set_files (<[file := record]> (files w)) w).

(** The call [LanguageModel(..)] on values read from a record. *)
Definition LanguageModel_call
    (dictionary is_forward_lm hidden_size nlayers embedding_size nout dropout : Value)
    : M loc :=
  dictionary ← as_dictionary dictionary;
  is_forward_lm ← as_bool is_forward_lm;
  hidden_size ← as_int hidden_size;
  nlayers ← as_int nlayers;
  embedding_size ← as_int embedding_size;
  nout ← as_optional_int nout;
  dropout ← as_float dropout;
  __init__ dictionary is_forward_lm hidden_size nlayers embedding_size nout dropout.

Definition load_language_model (model_file : string) : M loc :=
  state ← torch_load model_file;
  dictionary ← getitem state "dictionary";
  is_forward_lm ← getitem state "is_forward_lm";
  hidden_size ← getitem state "hidden_size";
  nlayers ← getitem state "nlayers";
  embedding_size ← getitem state "embedding_size";
  nout ← getitem state "nout";
  dropout ← getitem state "dropout";
  model ← LanguageModel_call dictionary is_forward_lm hidden_size nlayers
            embedding_size nout dropout;
  sd ← getitem state "state_dict";
  sd ← as_state_dict sd;
  load_state_dict model sd;;
  eval model;;
  d ← get_flair_device;
  to model d;;
  mret model.

Definition load_checkpoint (model_file : string) : M (gmap string Value) :=
  state ← torch_load model_file;
  let epoch := get_or_none state "epoch" in
  let split := get_or_none state "split" in
  let loss := get_or_none state "loss" in
  let optimizer_state_dict := get_or_none state "optimizer_state_dict" in
  dictionary ← getitem state "dictionary";
  is_forward_lm ← getitem state "is_forward_lm";
  hidden_size ← getitem state "hidden_size";
  nlayers ← getitem state "nlayers";
  embedding_size ← getitem state "embedding_size";
  nout ← getitem state "nout";
  dropout ← getitem state "dropout";
  model ← LanguageModel_call dictionary is_forward_lm hidden_size nlayers
            embedding_size nout dropout;
  sd ← getitem state "state_dict";
  sd ← as_state_dict sd;
  load_state_dict model sd;;
  eval model;;
  d ← get_flair_device;
  to model d;;
  mret {[ "model" := VModel model; "epoch" := epoch; "split" := split;
          "loss" := loss; "optimizer_state_dict" := optimizer_state_dict ]}.

Definition optional_int (o : option Z) : Value :=
  match o with Some z => VInt z | None => VNone end.

Definition save_checkpoint (self : loc) (file : string) (optimizer : Optimizer)
    (epoch split loss : Value) : M unit :=
  m ← read self;
  sd ← state_dict self;
  let model_state : gmap string Value :=
    {[ "state_dict" := VStateDict sd;
       "dictionary" := VDictionary (dictionary m);
       "is_forward_lm" := VBool (is_forward_lm m);
       "hidden_size" := VInt (hidden_size m);
       "nlayers" := VInt (nlayers m);
       "embedding_size" := VInt (embedding_size m);
       "nout" := optional_int (nout m);
       "dropout" := VFloat (dropout m);
       "optimizer_state_dict" := optimizer_state optimizer;
       "epoch" := epoch;
       "split" := split;
       "loss" := loss ]} in
  torch_save model_state file.

Definition save (self : loc) (file : string) : M unit :=
  m ← read self;
  sd ← state_dict self;
  let model_state : gmap string Value :=
    {[ "state_dict" := VStateDict sd;
       "dictionary" := VDictionary (dictionary m);
       "is_forward_lm" := VBool (is_forward_lm m);
       "hidden_size" := VInt (hidden_size m);
       "nlayers" := VInt (nlayers m);
       "embedding_size" := VInt (embedding_size m);
       "nout" := optional_int (nout m);
       "dropout" := VFloat (dropout m) ]} in
  torch_save model_state file.

(** One round of the sampling loop, on the characters so far, the current
    input and the hidden state. *)
Definition generate_step (self : loc) (idx2item : list string)
    (st : list string * Tensor * Hidden) : M (list string * Tensor * Hidden) :=
  let '(characters, input, hidden) := st in
  '(prediction, rnn_output, hidden) ← forward self input hidden;
  squeezed ← squeeze prediction;
  scaled ← div (dot_data squeezed) 1;
  weights ← exp scaled;
  let word_weights := cpu weights in
  drawn ← multinomial word_weights;
  word_idx ← select0 drawn;
  input ← fill_tensor_ input word_idx;
  k ← tensor_index word_idx;
  item ← list_getitem idx2item k;
  let word := Dictionary.decode item in
  mret (characters ++ [word], input, hidden).

Definition generate_text (self : loc) (number_of_characters : Z) : M string :=
  no_grad (
    m ← read self;
    let characters : list string := [] in
    let idx2item := Dictionary.idx2item (dictionary m) in
    hidden ← init_hidden self 1;
    input ← rand_index [1%nat; 1%nat] (length idx2item);
    '(characters, _, _) ←
      for_range (Z.to_nat number_of_characters)
        (generate_step self idx2item) (characters, input, hidden);
    mret (String.concat "" characters)).

(** ** Representations of strings *)

(** A Python int that fits the 64-bit integers of a long tensor. *)
Definition int64 (k : Z) : bool := (- 2 ^ 63 <=? k) && (k <? 2 ^ 63).

(** [torch.tensor(rows, dtype=torch.long, device=..)] on a list of lists of
    ints: the rows must have the length of the first one, and an empty list
    gives a vector without entries. *)
Definition tensor_of_rows (rows : list (list Z)) : M Tensor :=
  match rows with
  | [] => mret (mkTensor [0%nat] (LongData []) false None)
  | row :: _ =>
      if forallb (λ r, length r =? length row)%nat rows then
        if forallb (forallb int64) rows then
          mret (mkTensor [length rows; length row] (LongData (mjoin rows))
                  false None)
        else raise RuntimeError
      else raise ValueError
  end.

(** The position in the storage of a tensor of shape [a x b x c] from which
    entry [(i, j, k)] of its transpose is read. *)
Definition transposed_positions (a b c : nat) : list nat :=
  i ← seq 0 b; j ← seq 0 a; k ← seq 0 c; [((j * b + i) * c + k)%nat].

Definition gather {A} (xs : list A) (positions : list nat) : list A :=
  omap (λ p, xs !! p) positions.

(** [Tensor.transpose(0, 1)] *)
Definition transpose01 (t : Tensor) : M Tensor :=
  match shape t with
  | a :: b :: rest =>
      let positions := transposed_positions a b (numel rest) in
      result_of "TransposeBackward" [t] (b :: a :: rest)
        (match data t with
         | FloatData xs => FloatData (gather xs positions)
         | LongData ks => LongData (gather ks positions)
         end)
  | _ => raise IndexError
  end.

(** [get_representation(strings, detach_from_lm)].  A string is given as the
    list of its characters.  The lookup [get_idx_for_item] of the dictionary
    (flair/data.py) is not part of this file and is a parameter: a function
    that returns an index for every character, as the specification has it
    ("fails over to an unknown sentinel index rather than raising").  The
    result is the tensor that [repackage_hidden] returns for a tensor. *)
Definition get_representation (get_idx_for_item : Dictionary.t → string → Z)
    (self : loc) (strings : list (list string)) (detach_from_lm : bool)
    : M Hidden :=
  m ← read self;
  let char_indices (string : list string) : list Z :=
    get_idx_for_item (dictionary m) <$> string in
  let sequences_as_char_indices : list (list Z) := char_indices <$> strings in
  t ← tensor_of_rows sequences_as_char_indices;
  batch ← transpose01 t;
  hidden ← init_hidden self (Z.of_nat (length strings));
  '(prediction, rnn_output, hidden) ← forward self batch hidden;
  let rnn_output :=
    if detach_from_lm then repackage_hidden (HTensor rnn_output)
    else HTensor rnn_output in
  mret rnn_output.

(** ** Predicates of the statements *)

(** [returns c Q w]: run from [w], the method [c] returns, with a result and
    a final world that satisfy [Q]. *)
Definition returns {A} (c : M A) (Q : A → World → Prop) (w : World) : Prop :=
  match c w with
  | (Ok a, w') => Q a w'
  | (Raise _, _) => False
  end.

Definition is_float (t : Tensor) : Prop := ∃ xs, data t = FloatData xs.

(** The entries of a tensor read as floats, as [copy_] stores them. *)
Definition float_entries (t : Tensor) : list float :=
  match data t with
  | FloatData xs => xs
  | LongData ks => float_of_int <$> ks
  end.

(** The width of the representation that the decoder reads. *)
Definition representation_width (hidden_size : Z) (nout : option Z) : Z :=
  from_option id hidden_size nout.

(** The names and shapes of the parameters of an architecture with a
    dictionary of [n] symbols. *)
Definition layer_shapes (hidden_size : nat) (k layer_input_size : nat)
    : list (string * list nat) :=
  [ ("rnn.weight_ih_l" +:+ pretty k, [(4 * hidden_size)%nat; layer_input_size]);
    ("rnn.weight_hh_l" +:+ pretty k, [(4 * hidden_size)%nat; hidden_size]);
    ("rnn.bias_ih_l" +:+ pretty k, [(4 * hidden_size)%nat]);
    ("rnn.bias_hh_l" +:+ pretty k, [(4 * hidden_size)%nat]) ].

Definition layer_input_sizes (embedding_size hidden_size nlayers : nat)
    : list nat :=
  match nlayers with
  | O => []
  | S k => embedding_size :: replicate k hidden_size
  end.

Definition architecture (n : nat) (hidden_size nlayers embedding_size : Z)
    (nout : option Z) : list (string * list nat) :=
  let h := Z.to_nat hidden_size in
  let e := Z.to_nat embedding_size in
  let r := Z.to_nat (representation_width hidden_size nout) in
  [("encoder.weight", [n; e])]
  ++ mjoin (imap (layer_shapes h) (layer_input_sizes e h (Z.to_nat nlayers)))
  ++ from_option (λ o, [("proj.weight", [Z.to_nat o; h]);
                        ("proj.bias", [Z.to_nat o])]) [] nout
  ++ [("decoder.weight", [n; r]); ("decoder.bias", [n])].

(** The arguments with which the constructor builds a model. *)
Record valid_configuration (hidden_size nlayers embedding_size : Z)
    (nout : option Z) (dropout : float) : Prop := {
  valid_hidden_size : 0 < hidden_size;
  valid_nlayers : 0 < nlayers;
  valid_embedding_size : 0 < embedding_size;
  valid_nout : ∀ o, nout = Some o → 0 ≤ o;
  valid_dropout : PrimFloat.ltb dropout 0 || PrimFloat.ltb 1 dropout = false;
  valid_rnn_dropout :
    nlayers ≠ 1 → PrimFloat.leb 0 dropout && PrimFloat.leb dropout 1 = true
}.

(** A model as the constructor builds it and as training keeps it: its
    attributes form a valid configuration, its layers are those of that
    configuration, and its parameters are float tensors of the shapes of the
    architecture. *)
Record well_formed (m : LanguageModel) : Prop := {
  wf_configuration :
    valid_configuration (hidden_size m) (nlayers m) (embedding_size m)
      (nout m) (dropout m);
  wf_encoder :
    Embedding.num_embeddings (encoder m) = Dictionary.len (dictionary m)
    ∧ Embedding.embedding_dim (encoder m) = Z.to_nat (embedding_size m);
  wf_rnn :
    LSTM.input_size (rnn m) = Z.to_nat (embedding_size m)
    ∧ LSTM.hidden_size (rnn m) = Z.to_nat (hidden_size m)
    ∧ LSTM.num_layers (rnn m) = Z.to_nat (nlayers m);
  wf_proj :
    match nout m, proj m with
    | Some o, Some p =>
        Linear.in_features p = Z.to_nat (hidden_size m)
        ∧ Linear.out_features p = Z.to_nat o
    | None, None => True
    | _, _ => False
    end;
  wf_decoder :
    Linear.in_features (decoder m)
      = Z.to_nat (representation_width (hidden_size m) (nout m))
    ∧ Linear.out_features (decoder m) = Dictionary.len (dictionary m);
  wf_shapes :
    prod_map id shape <$> named_parameters m
    = architecture (Dictionary.len (dictionary m)) (hidden_size m) (nlayers m)
        (embedding_size m) (nout m);
  wf_float : Forall (λ p, is_float p.2) (named_parameters m)
}.

(** An input of [forward]: a [seq_len x batch] tensor of indices of symbols
    of a dictionary of [n] symbols. *)
Definition index_batch (n seq_len batch : nat) (input : Tensor) : Prop :=
  shape input = [seq_len; batch]
  ∧ ∃ ks, data input = LongData ks ∧ Forall (λ k, 0 ≤ k < Z.of_nat n) ks.

(** A hidden state of the recurrent layers for a batch: the pair of float
    tensors [(h, c)], each [nlayers x batch x hidden_size]. *)
Definition hidden_pair (m : LanguageModel) (batch : nat) (h : Hidden) : Prop :=
  ∃ h0 c0,
    h = HTuple [HTensor h0; HTensor c0]
    ∧ shape h0 = [Z.to_nat (nlayers m); batch; Z.to_nat (hidden_size m)]
    ∧ shape c0 = [Z.to_nat (nlayers m); batch; Z.to_nat (hidden_size m)]
    ∧ is_float h0 ∧ is_float c0.

(** The shapes of the leaves of a hidden state, in its nesting. *)
Inductive Nesting : Type :=
  | NLeaf (s : list nat)
  | NTuple (ns : list Nesting).

Fixpoint nesting (h : Hidden) : Nesting :=
  match h with
  | HTensor t => NLeaf (shape t)
  | HTuple hs => NTuple (nesting <$> hs)
  end.

(** The leaves of a hidden state, left to right. *)
Fixpoint leaves (h : Hidden) : list Tensor :=
  match h with
  | HTensor t => [t]
  | HTuple hs => mjoin (leaves <$> hs)
  end.

(** From [w] to [w'] only the random generator has advanced. *)
Definition frame (w w' : World) : Prop :=
  heap w' = heap w ∧ files w' = files w
  ∧ grad_enabled w' = grad_enabled w ∧ flair_device w' = flair_device w.

(** The entries of [t] were drawn by [uniform_(lo, hi)]. *)
Definition drawn_uniformly (lo hi : float) (t : Tensor) : Prop :=
  ∃ g, data t = FloatData (uniform g lo hi (numel (shape t))).1.

(** Every entry of the float tensor [t] is zero. *)
Definition all_zero (t : Tensor) : Prop :=
  data t = FloatData (replicate (numel (shape t)) 0%float).

(** The result of [c] and the generator it leaves depend on the world only
    through the state of the generator. *)
Definition generator_only {A} (c : M A) : Prop :=
  ∀ w1 w2, generator w1 = generator w2 →
    (c w1).1 = (c w2).1 ∧ generator (c w1).2 = generator (c w2).2.

(** The parameters of a recurrent layer of width [h] that reads [i] inputs. *)
Definition layer_shaped (h i : nat) (l : LSTM.layer) : Prop :=
  (shape (LSTM.weight_ih l) = [(4 * h)%nat; i] ∧ is_float (LSTM.weight_ih l))
  ∧ (shape (LSTM.weight_hh l) = [(4 * h)%nat; h] ∧ is_float (LSTM.weight_hh l))
  ∧ (shape (LSTM.bias_ih l) = [(4 * h)%nat] ∧ is_float (LSTM.bias_ih l))
  ∧ (shape (LSTM.bias_hh l) = [(4 * h)%nat] ∧ is_float (LSTM.bias_hh l)).

(** The sign of a float in its specification, when it has one. *)
Definition sign_is (s : bool) (x : spec_float) : Prop :=
  match x with
  | S754_zero s' | S754_infinity s' | S754_finite s' _ _ => s' = s
  | S754_nan => True
  end.

(** The weights as the constructor leaves them. *)
Record initial_weights (m : LanguageModel) : Prop := {
  initial_encoder :
    drawn_uniformly (-0.1) 0.1 (Embedding.weight (encoder m));
  initial_decoder_bias : all_zero (Linear.bias (decoder m));
  initial_decoder_weight :
    drawn_uniformly (-0.1) 0.1 (Linear.weight (decoder m));
  initial_proj :
    ∀ p, proj m = Some p →
      let s := PrimFloat.sqrt
                 (3 / float_of_int (Z.of_nat (Linear.in_features p)
                                    + Z.of_nat (Linear.out_features p))) in
      drawn_uniformly (- s) s (Linear.weight p)
}.

(** The attributes of a model built from the arguments of the constructor,
    in a process whose device is [dev]. *)
Record constructed (d : Dictionary.t) (fwd : bool) (h layers_ e : Z)
    (out : option Z) (p : float) (dev : Device) (m : LanguageModel) : Prop := {
  constructed_dictionary : dictionary m = d;
  constructed_is_forward_lm : is_forward_lm m = fwd;
  constructed_hidden_size : hidden_size m = h;
  constructed_nlayers : nlayers m = layers_;
  constructed_embedding_size : embedding_size m = e;
  constructed_nout : nout m = out;
  constructed_dropout : dropout m = p;
  constructed_hidden : hidden m = None;
  constructed_training : training m = true;
  constructed_device : device m = dev
}.

(** Run from [w], the method [c] raises [e]. *)
Definition raises {A} (c : M A) (e : exn) (w : World) : Prop :=
  ∃ w', c w = (Raise e, w').

(** Whatever [c] raises satisfies [P]. *)
Definition only_raises {A} (c : M A) (P : exn → Prop) : Prop :=
  ∀ w, match c w with
       | (Raise e, _) => P e
       | (Ok _, _) => True
       end.

(** Two runs of a constructor end alike: both raise the same exception, or
    both return a model and the two models have the same parameters. *)
Definition same_parameters (r1 r2 : outcome loc * World) : Prop :=
  match r1, r2 with
  | (Ok l1, w1), (Ok l2, w2) =>
      ∃ m1 m2, heap w1 !! l1 = Some m1 ∧ heap w2 !! l2 = Some m2
               ∧ named_parameters m1 = named_parameters m2
  | (Raise e1, _), (Raise e2, _) => e1 = e2
  | _, _ => False
  end.

(** What [state_dict()] returns for a model. *)
Definition state_dict_of (m : LanguageModel) : gmap string Tensor :=
  list_to_map (prod_map id detach <$> named_parameters m).

(** A state dict that [load_state_dict] accepts for parameters of the names
    and shapes [arch]. *)
Definition state_dict_matches (sd : gmap string Tensor)
    (arch : list (string * list nat)) : Prop :=
  Forall (λ entry, ∃ t, sd !! entry.1 = Some t ∧ shape t = entry.2) arch
  ∧ dom sd ⊆ list_to_set arch.*1.

(** The parameters of [m] hold the entries of the state dict [sd]. *)
Definition holds_state_dict (sd : gmap string Tensor) (m : LanguageModel) : Prop :=
  Forall (λ param, ∃ t, sd !! param.1 = Some t
                        ∧ shape param.2 = shape t
                        ∧ data param.2 = FloatData (float_entries t))
    (named_parameters m).

(** The prefixes of the parameter names of a recurrent layer. *)
Definition layer_prefixes : list string :=
  ["rnn.weight_ih_l"; "rnn.weight_hh_l"; "rnn.bias_ih_l"; "rnn.bias_hh_l"].

(** The fields of a record from which a model is constructed, in the order
    in which the loaders read them. *)
Definition configuration_fields : list string :=
  ["dictionary"; "is_forward_lm"; "hidden_size"; "nlayers"; "embedding_size";
   "nout"; "dropout"].

(** The fields of a checkpoint that a record may lack. *)
Definition optional_fields : list string :=
  ["epoch"; "split"; "loss"; "optimizer_state_dict"].

(** A record that holds the configuration of a model. *)
Record configuration_record (state : gmap string Value) (d : Dictionary.t)
    (fwd : bool) (h layers_ e : Z) (out : option Z) (p : float) : Prop := {
  record_dictionary : state !! "dictionary" = Some (VDictionary d);
  record_is_forward_lm : state !! "is_forward_lm" = Some (VBool fwd);
  record_hidden_size : state !! "hidden_size" = Some (VInt h);
  record_nlayers : state !! "nlayers" = Some (VInt layers_);
  record_embedding_size : state !! "embedding_size" = Some (VInt e);
  record_nout : state !! "nout" = Some (optional_int out);
  record_dropout : state !! "dropout" = Some (VFloat p)
}.

(** The record that [save] writes for a model, and the one that
    [save_checkpoint] writes. *)
Definition model_record (m : LanguageModel) : gmap string Value :=
  {[ "state_dict" := VStateDict (state_dict_of m);
     "dictionary" := VDictionary (dictionary m);
     "is_forward_lm" := VBool (is_forward_lm m);
     "hidden_size" := VInt (hidden_size m);
     "nlayers" := VInt (nlayers m);
     "embedding_size" := VInt (embedding_size m);
     "nout" := optional_int (nout m);
     "dropout" := VFloat (dropout m) ]}.

Definition checkpoint_record (m : LanguageModel) (optimizer : Optimizer)
    (epoch split loss : Value) : gmap string Value :=
  {[ "state_dict" := VStateDict (state_dict_of m);
     "dictionary" := VDictionary (dictionary m);
     "is_forward_lm" := VBool (is_forward_lm m);
     "hidden_size" := VInt (hidden_size m);
     "nlayers" := VInt (nlayers m);
     "embedding_size" := VInt (embedding_size m);
     "nout" := optional_int (nout m);
     "dropout" := VFloat (dropout m);
     "optimizer_state_dict" := optimizer_state optimizer;
     "epoch" := epoch;
     "split" := split;
     "loss" := loss ]}.

(** ** Further predicates *)

(** Every character of [string] has an index among the symbols of [d]. *)
Definition indexed (get_idx_for_item : Dictionary.t → string → Z)
    (d : Dictionary.t) (string : list string) : Prop :=
  Forall (λ char, 0 ≤ get_idx_for_item d char < Z.of_nat (Dictionary.len d)
                  ∧ get_idx_for_item d char < 2 ^ 63) string.

(** ** Predicates on methods *)

(** The world [w] with another heap and other files. *)
Definition with_store (hp : gmap loc LanguageModel)
    (fs : gmap string (gmap string Value)) (w : World) : World :=
  mkWorld hp fs (generator w) (grad_enabled w) (flair_device w)
    (weights_only w).

(** [c] works on tensors only: it neither reads nor changes the heap and the
    files, and it leaves the autograd switch and the device as they are. *)
Definition storeless {A} (c : M A) : Prop :=
  ∀ hp fs w,
    c (with_store hp fs w) = ((c w).1, with_store hp fs (c w).2)
    ∧ grad_enabled (c w).2 = grad_enabled w
    ∧ flair_device (c w).2 = flair_device w.

(** Whether [c] returns or raises, only the random generator has advanced. *)
Definition keeps_store {A} (c : M A) : Prop := ∀ w, frame w (c w).2.

(** The model [m] without its [hidden] attribute, and the world in which no
    model has one. *)
Definition without_hidden (m : LanguageModel) : LanguageModel :=
  mkLanguageModel (dictionary m) (is_forward_lm m) (dropout m) (hidden_size m)
    (embedding_size m) (nlayers m) (drop m) (encoder m) (rnn m) None (nout m)
    (proj m) (decoder m) (training m) (device m).

Definition erase_hidden (w : World) : World :=
  set_heap (without_hidden <$> heap w) w.

(** [c] does not read the [hidden] attribute of any model. *)
Definition ignores_hidden {A} (c : M A) : Prop :=
  ∀ w, c (erase_hidden w) = ((c w).1, erase_hidden (c w).2).

(** A leaf of the autograd graph that requires gradients: a parameter as a
    layer creates it and as an optimizer step leaves it. *)
Definition leaf (t : Tensor) : Prop := requires_grad t = true ∧ grad_fn t = None.

Definition leaf_layer (l : LSTM.layer) : Prop :=
  leaf (LSTM.weight_ih l) ∧ leaf (LSTM.weight_hh l)
  ∧ leaf (LSTM.bias_ih l) ∧ leaf (LSTM.bias_hh l).

(** The layers of [m] are those that the constructor builds from the
    attributes of [m]: the dropout layer has the probability [dropout], the
    recurrent layers have it between them unless there is a single one, and
    the parameters are leaves. *)
Record as_configured (m : LanguageModel) : Prop := {
  configured_drop : drop m = Dropout.mk (dropout m);
  configured_rnn_dropout :
    LSTM.dropout (rnn m) = if nlayers m =? 1 then 0%float else dropout m;
  configured_leaves : Forall (λ p, leaf p.2) (named_parameters m)
}.

(** The model [m] as a loader leaves it: in inference mode, on the device
    [dev], without a stored hidden state. *)
Definition reloaded (dev : Device) (m : LanguageModel) : LanguageModel :=
  mkLanguageModel (dictionary m) (is_forward_lm m) (dropout m) (hidden_size m)
    (embedding_size m) (nlayers m) (drop m) (encoder m) (rnn m) None (nout m)
    (proj m) (decoder m) false dev.

(** If [c] returns from [w], its result and its final world satisfy [Q]. *)
Definition ensures {A} (c : M A) (Q : A → World → Prop) (w : World) : Prop :=
  match c w with
  | (Ok a, w') => Q a w'
  | (Raise _, _) => True
  end.

(** A method that reads [self] once and then works on tensors. *)
Definition reads_self {A} (self : loc) (c : M A) : Prop :=
  ∃ body : LanguageModel → M A,
    c = (read self ≫= body)
    ∧ (∀ m, storeless (body m))
    ∧ (∀ m, body (without_hidden m) = body m).

End WithBackend.

(** ** Concrete inputs *)

(** A backend whose generator is a counter and whose kernels return fixed
    entries: enough to run the methods on concrete inputs. *)
Program Definition counting_backend : Backend := {|
  Generator := nat;
  reset_parameters g n := (replicate n 0.5%float, S g);
  uniform g lo hi n := (replicate n lo, S g);
  rand_mul_long g n k := (replicate k 0, S g);
  multinomial_draw g n ws := (0%nat, S g);
  uninitialized n := replicate n 1%float;
  uninitialized_long n := replicate n 1;
  dropout_kernel g p xs := (xs, S g);
  embedding_kernel ws width ks := replicate (length ks * width) 0%float;
  lstm_kernel g training p layers xs hs cs := ((xs, hs, cs), S g);
  linear_kernel ws bs xs := xs;
  exp_kernel xs := xs;
  div_kernel xs x := xs
|}.
Next Obligation. intros g n k. apply length_replicate. Qed.
Next Obligation.
  intros g n k i [-> _]%elem_of_replicate. destruct n; lia.
Qed.
Next Obligation. intros g n ws Hn. cbn. lia. Qed.

Section Concrete.
#[local] Existing Instance counting_backend.

Definition filled (s : list nat) (x : float) : Tensor :=
  mkTensor s (FloatData (replicate (numel s) x)) true None.

(** A model of hidden size 2 with one layer, embeddings of width 3 and no
    projection, over the dictionary [d]. *)
Definition small_model (d : Dictionary.t) : LanguageModel :=
  let n := Dictionary.len d in
  mkLanguageModel d true 0.5 2 3 1 (Dropout.mk 0.5)
    (Embedding.mk n 3 (filled [n; 3%nat] 0.25))
    (LSTM.mk 3 2 1 0
       [LSTM.mkLayer (filled [8%nat; 3%nat] 0.5) (filled [8%nat; 2%nat] 0.5)
          (filled [8%nat] 0) (filled [8%nat] 0)])
    None None None
    (Linear.mk 2 n (filled [n; 2%nat] 0.125) (filled [n] 0))
    true CPU.

(** A world with [m] at location 0 and nothing on disk. *)
Definition world_with (m : LanguageModel) : World :=
  mkWorld {[ 0%nat := m ]} ∅ 0%nat true CPU true.

Definition three_symbols : Dictionary.t := Dictionary.mk ["<unk>"; "a"; "b"].
Definition one_symbol : Dictionary.t := Dictionary.mk ["<unk>"].
Definition no_symbol : Dictionary.t := Dictionary.mk [].

Definition empty_world : World := mkWorld ∅ ∅ 0%nat true CPU true.

(** A sequence of two symbols for a batch of one, and a zero hidden pair. *)
Definition two_symbols_input : Tensor :=
  mkTensor [2%nat; 1%nat] (LongData [1; 2]) false None.

Definition zero_hidden : Hidden :=
  HTuple [HTensor (mkTensor [1%nat; 1%nat; 2%nat] (FloatData (replicate 2 0%float)) false None);
          HTensor (mkTensor [1%nat; 1%nat; 2%nat] (FloatData (replicate 2 0%float)) false None)].

(** A record without its [dictionary]. *)
Definition record_without_dictionary : gmap string Value :=
  delete "dictionary" (model_record (small_model three_symbols)).

Definition world_with_file (record : gmap string Value) : World :=
  mkWorld ∅ {[ "model.pt" := record ]} 0%nat true CPU true.

(** A hidden pair for a batch of two. *)
Definition zero_hidden_of_two : Hidden :=
  HTuple [HTensor (mkTensor [1%nat; 2%nat; 2%nat] (FloatData (replicate 4 0%float)) false None);
          HTensor (mkTensor [1%nat; 2%nat; 2%nat] (FloatData (replicate 4 0%float)) false None)].

(** An input that holds an index outside a dictionary of three symbols. *)
Definition unknown_index_input : Tensor :=
  mkTensor [1%nat; 1%nat] (LongData [7]) false None.

(** A world with [m] at location 0 and autograd switched off. *)
Definition quiet_world_with (m : LanguageModel) : World :=
  mkWorld {[ 0%nat := m ]} ∅ 0%nat false CPU true.

(** A lookup for the concrete runs: the position of the first occurrence of
    the symbol, and 0 for a symbol that the dictionary does not hold. *)
Definition first_index (d : Dictionary.t) (char : string) : Z :=
  match list_find (λ item, item = char) (Dictionary.idx2item d) with
  | Some (i, _) => Z.of_nat i
  | None => 0
  end.

(** Two strings of two characters, and two strings of different lengths. *)
Definition two_strings : list (list string) := [["a"; "b"]; ["b"; "?"]].

(** The small model in inference mode. *)
Definition small_model_in_inference : LanguageModel :=
  reloaded CPU (small_model three_symbols).

(** The record of the small model with an empty state dict. *)
Definition record_with_empty_state_dict : gmap string Value :=
  <["state_dict" := VStateDict ∅]> (model_record (small_model three_symbols)).

(** An empty sequence for a batch of one. *)
Definition empty_sequence_input : Tensor :=
  mkTensor [0%nat; 1%nat] (LongData []) false None.

(** The worlds of a process that has switched the weights-only mode of
    [torch.load] off: with [m] at location 0, and with a record on disk. *)
Definition trusting_world_with (m : LanguageModel) : World :=
  mkWorld {[ 0%nat := m ]} ∅ 0%nat true CPU false.

Definition trusting_world_with_file (record : gmap string Value) : World :=
  mkWorld ∅ {[ "model.pt" := record ]} 0%nat true CPU false.

End Concrete.

(** * Proofs *)

Section Proofs.
Context `{Backend}.

(** ** Reasoning about methods *)

Lemma returns_ret {A} (a : A) Q w : Q a w → returns (mret a) Q w.
Proof. done. Qed.

Lemma returns_bind {A B} (c : M A) (f : A → M B) Q w :
  returns c (λ a w', returns (f a) Q w') w → returns (c ≫= f) Q w.
Proof.
  unfold returns, mbind, M_bind. destruct (c w) as [[a|e] w']; done.
Qed.

Lemma returns_mono {A} (c : M A) (Q Q' : A → World → Prop) w :
  returns c Q w → (∀ a w', Q a w' → Q' a w') → returns c Q' w.
Proof.
  unfold returns. destruct (c w) as [[a|e] w']; [|done]. intros HQ HQQ. by apply HQQ.
Qed.

Lemma returns_inv {A} (c : M A) Q w :
  returns c Q w → ∃ a w', c w = (Ok a, w') ∧ Q a w'.
Proof.
  unfold returns. destruct (c w) as [[a|e] w']; [|done]. eauto.
Qed.

Lemma returns_intro {A} (c : M A) (Q : A → World → Prop) w a w' :
  c w = (Ok a, w') → Q a w' → returns c Q w.
Proof. unfold returns. by intros ->. Qed.

Lemma returns_read l m Q w :
  heap w !! l = Some m → Q m w → returns (read l) Q w.
Proof. unfold returns, read. by intros ->. Qed.

Lemma returns_sample {A} (k : Generator → A * Generator) Q w :
  Q (k (generator w)).1 (set_generator (k (generator w)).2 w) →
  returns (sample k) Q w.
Proof. unfold returns, sample. by destruct (k (generator w)). Qed.

Lemma returns_result_of op inputs s d (Q : Tensor → World → Prop) w :
  (∀ t, shape t = s → data t = d → Q t w) →
  returns (result_of op inputs s d) Q w.
Proof. intros HQ. unfold returns, result_of; cbn. by apply HQ. Qed.

Lemma returns_size t i n (Q : nat → World → Prop) w :
  shape t !! i = Some n → Q n w → returns (size t i) Q w.
Proof. unfold returns, size. by intros ->. Qed.

Lemma returns_view t s (Q : Tensor → World → Prop) w :
  numel s = numel (shape t) →
  (∀ t', shape t' = s → data t' = data t → Q t' w) →
  returns (view t s) Q w.
Proof.
  intros Hn HQ. unfold view. rewrite decide_True by done.
  by apply returns_result_of.
Qed.

(** ** The frame of the layers *)

Lemma frame_refl w : frame w w.
Proof. done. Qed.

Lemma frame_trans w1 w2 w3 : frame w1 w2 → frame w2 w3 → frame w1 w3.
Proof.
  intros (?&?&?&?) (?&?&?&?). repeat split; congruence.
Qed.

Lemma frame_set_generator g w : frame w (set_generator g w).
Proof. done. Qed.

(** ** The layers keep their shape contracts *)

Lemma returns_Embedding_forward e input ks (Q : Tensor → World → Prop) w :
  data input = LongData ks →
  Forall (λ k, 0 ≤ k < Z.of_nat (Embedding.num_embeddings e)) ks →
  is_float (Embedding.weight e) →
  (∀ t, shape t = shape input ++ [Embedding.embedding_dim e] → is_float t → Q t w) →
  returns (Embedding_forward e input) Q w.
Proof.
  intros Hd Hks [ws Hws] HQ. unfold Embedding_forward. rewrite Hd.
  assert (forallb (λ k, (0 <=? k) && (k <? Z.of_nat (Embedding.num_embeddings e))) ks
          = true) as ->.
  { apply forallb_forall. intros k Hk%list_elem_of_In.
    rewrite Forall_forall in Hks. specialize (Hks k Hk).
    apply andb_true_iff. split; [apply Z.leb_le | apply Z.ltb_lt]; lia. }
  rewrite Hws. apply returns_result_of. intros t Hs Hdt. apply HQ; [done|].
  by eexists.
Qed.

Lemma returns_Dropout_forward d training x (Q : Tensor → World → Prop) w :
  is_float x →
  (∀ t w', frame w w' → shape t = shape x → is_float t → Q t w') →
  returns (Dropout_forward d training x) Q w.
Proof.
  intros [xs Hx] HQ. unfold Dropout_forward. destruct training.
  - rewrite Hx. apply returns_bind, returns_sample, returns_result_of.
    intros t Hs Hd. apply HQ; [apply frame_set_generator|done|]. by eexists.
  - apply returns_ret, HQ; [apply frame_refl|done|]. by eexists.
Qed.

Lemma returns_LSTM_forward r training input h0 c0 seq_len batch
    (Q : Tensor * Hidden → World → Prop) w :
  (0 < seq_len)%nat →
  shape input = [seq_len; batch; LSTM.input_size r] →
  shape h0 = [LSTM.num_layers r; batch; LSTM.hidden_size r] →
  shape c0 = [LSTM.num_layers r; batch; LSTM.hidden_size r] →
  is_float input → is_float h0 → is_float c0 →
  (∀ output h c w', frame w w' →
     shape output = [seq_len; batch; LSTM.hidden_size r] → is_float output →
     shape h = shape h0 → shape c = shape c0 → is_float h → is_float c →
     Q (output, HTuple [HTensor h; HTensor c]) w') →
  returns (LSTM_forward r training input (HTuple [HTensor h0; HTensor c0])) Q w.
Proof.
  intros Hlen Hi Hh Hc [xs Hxs] [hs Hhs] [cs Hcs] HQ.
  unfold LSTM_forward. rewrite Hi.
  apply returns_bind, returns_ret, returns_bind, returns_ret.
  unfold dim. rewrite Hi, Hh, Hc. cbn [removelast last app length].
  rewrite decide_True by done. rewrite decide_True by done.
  rewrite decide_True by done.
  apply returns_bind, returns_ret.
  rewrite Hxs, Hhs, Hcs, decide_False by lia. unfold LSTM_run.
  apply returns_bind, returns_sample.
  destruct (lstm_kernel _ _ _ _ _ _ _).1 as [[out hn] cn].
  apply returns_bind, returns_result_of. intros output Hso Hdo.
  apply returns_bind, returns_result_of. intros h Hsh Hdh.
  apply returns_bind, returns_result_of. intros c Hsc Hdc.
  apply returns_ret, HQ; try done; by eexists.
Qed.

Lemma returns_Linear_forward l x lead (Q : Tensor → World → Prop) w :
  shape x = lead ++ [Linear.in_features l] →
  is_float x → is_float (Linear.weight l) → is_float (Linear.bias l) →
  (∀ t, shape t = lead ++ [Linear.out_features l] → is_float t → Q t w) →
  returns (Linear_forward l x) Q w.
Proof.
  intros Hs [xs Hxs] [ws Hws] [bs Hbs] HQ. unfold Linear_forward.
  rewrite Hs, last_snoc, decide_True by done.
  rewrite Hxs, Hws, Hbs. apply returns_result_of. intros t Hst Hdt.
  apply HQ; [|by eexists]. by rewrite Hst, removelast_last.
Qed.

(** ** Well-formed models *)

Lemma well_formed_encoder_float m :
  well_formed m → is_float (Embedding.weight (encoder m)).
Proof.
  intros Hwf. pose proof (wf_float m Hwf) as Hf. unfold named_parameters in Hf.
  apply Forall_inv in Hf. exact Hf.
Qed.

Lemma well_formed_decoder_float m :
  well_formed m →
  is_float (Linear.weight (decoder m)) ∧ is_float (Linear.bias (decoder m)).
Proof.
  intros Hwf. pose proof (wf_float m Hwf) as Hf. unfold named_parameters in Hf.
  rewrite !Forall_app in Hf. destruct Hf as (_ & _ & _ & Hd).
  unfold Linear_named_parameters in Hd.
  split; [exact (Forall_inv Hd) | exact (Forall_inv (Forall_inv_tail Hd))].
Qed.

Lemma well_formed_proj_float m p :
  well_formed m → proj m = Some p →
  is_float (Linear.weight p) ∧ is_float (Linear.bias p).
Proof.
  intros Hwf Hp. pose proof (wf_float m Hwf) as Hf. unfold named_parameters in Hf.
  rewrite !Forall_app in Hf. destruct Hf as (_ & _ & Hd & _).
  rewrite Hp in Hd. cbn in Hd.
  split; [exact (Forall_inv Hd) | exact (Forall_inv (Forall_inv_tail Hd))].
Qed.

(** ** forward *)

Lemma returns_forward self m input hidden seq_len batch
    (Q : Tensor * Tensor * Hidden → World → Prop) w :
  heap w !! self = Some m →
  well_formed m →
  (0 < seq_len)%nat →
  index_batch (Dictionary.len (dictionary m)) seq_len batch input →
  hidden_pair m batch hidden →
  (∀ logits representation hidden' w', frame w w' →
     shape logits = [seq_len; batch; Dictionary.len (dictionary m)] →
     is_float logits →
     shape representation
       = [seq_len; batch;
          Z.to_nat (representation_width (hidden_size m) (nout m))] →
     hidden_pair m batch hidden' →
     Q (logits, representation, hidden') w') →
  returns (forward self input hidden) Q w.
Proof.
  intros Hself Hwf Hlen (Hshape & ks & Hks & Hrange)
    (h0 & c0 & -> & Hh0 & Hc0 & Hfh & Hfc) HQ.
  destruct (wf_encoder m Hwf) as [Hn He].
  destruct (wf_rnn m Hwf) as (Hri & Hrh & Hrl).
  destruct (wf_decoder m Hwf) as [Hdi Hdo].
  destruct (well_formed_decoder_float m Hwf) as [Hdw Hdb].
  pose proof (well_formed_encoder_float m Hwf) as Hew.
  pose proof (wf_proj m Hwf) as Hproj.
  set (width := Z.to_nat (representation_width (hidden_size m) (nout m))) in *.
  unfold forward.
  apply returns_bind, (returns_read _ m); [done|].
  apply returns_bind, (returns_Embedding_forward _ _ ks); [done| by rewrite Hn |done|].
  intros encoded Hse Hfe.
  apply returns_bind, returns_Dropout_forward; [done|]. intros emb w1 Hf1 Hsm Hfm.
  apply returns_bind, (returns_LSTM_forward _ _ _ _ _ seq_len batch);
    [done | by rewrite Hsm, Hse, Hshape, Hri, He | by rewrite Hrl, Hrh
    | by rewrite Hrl, Hrh | done | done | done |].
  intros output h c w2 Hf2 Hso Hfo Hsh Hsc Hflh Hflc.
  apply returns_bind.
  apply (returns_mono _ (λ out w', w' = w2 ∧ shape out = [seq_len; batch; width]
                                   ∧ is_float out)).
  { destruct (nout m) as [o|] eqn:Hnout, (proj m) as [p|] eqn:Hp; try done.
    - destruct Hproj as [Hpi Hpo].
      destruct (well_formed_proj_float m p Hwf Hp) as [Hpw Hpb].
      apply (returns_Linear_forward _ _ [seq_len; batch]);
        [by rewrite Hso, Hpi, Hrh | done | done | done |].
      intros t Hst Hft. by rewrite Hst, Hpo.
    - apply returns_ret. by rewrite Hso, Hrh. }
  intros projected w3 (-> & Hsp & Hfp).
  apply returns_bind, returns_Dropout_forward; [done|]. intros dropped w4 Hf4 Hsd Hfd.
  rewrite Hsp in Hsd.
  apply returns_bind, (returns_size _ _ seq_len); [by rewrite Hsd|].
  apply returns_bind, (returns_size _ _ batch); [by rewrite Hsd|].
  apply returns_bind, (returns_size _ _ width); [by rewrite Hsd|].
  apply returns_bind, returns_view; [rewrite Hsd; cbn; lia|].
  intros flat Hsf Hdf.
  assert (is_float flat) as Hff by (destruct Hfd as [xs Hxs]; exists xs; congruence).
  apply returns_bind, (returns_Linear_forward _ _ [(seq_len * batch)%nat]);
    [by rewrite Hsf, Hdi | done | done | done |].
  intros decoded Hsdec [ds Hds].
  apply returns_bind, (returns_size _ _ (Dictionary.len (dictionary m)));
    [by rewrite Hsdec, Hdo|].
  apply returns_bind, returns_view; [rewrite Hsdec, Hdo; cbn; lia|].
  intros logits Hsl Hdl.
  apply returns_ret, HQ; try done.
  - eauto using frame_trans.
  - exists ds. congruence.
  - exists h, c. repeat split; try done; congruence.
Qed.

(** C1, as the source has it.  On a well-formed model, for a
    [seq_len x batch] tensor of symbol indices with [seq_len > 0] and a
    hidden pair of [nlayers x batch x hidden_size] tensors, [forward] returns
    logits of shape [seq_len x batch x N] for the [N] symbols of the
    dictionary, a representation of shape [seq_len x batch x nout] if [nout]
    is set and [seq_len x batch x hidden_size] otherwise, and a hidden state
    of the nesting and shapes of the one it was given.  (The recurrent layers
    refuse an empty sequence.) *)
Theorem forward_shapes (self : loc) (m : LanguageModel) (input : Tensor)
    (hidden : Hidden) (seq_len batch : nat) (w : World) :
  heap w !! self = Some m →
  well_formed m →
  (0 < seq_len)%nat →
  index_batch (Dictionary.len (dictionary m)) seq_len batch input →
  hidden_pair m batch hidden →
  ∃ logits representation hidden' w',
    forward self input hidden w = (Ok (logits, representation, hidden'), w')
    ∧ shape logits = [seq_len; batch; Dictionary.len (dictionary m)]
    ∧ shape representation
      = [seq_len; batch;
         Z.to_nat (representation_width (hidden_size m) (nout m))]
    ∧ nesting hidden' = nesting hidden.
Proof.
  intros Hself Hwf Hlen Hin Hhid.
  cut (returns (forward self input hidden)
         (λ '(logits, representation, hidden') _,
            shape logits = [seq_len; batch; Dictionary.len (dictionary m)]
            ∧ shape representation
              = [seq_len; batch;
                 Z.to_nat (representation_width (hidden_size m) (nout m))]
            ∧ nesting hidden' = nesting hidden) w).
  { intros ([[logits representation] hidden'] & w' & Hrun & ?)%returns_inv. eauto 6. }
  eapply returns_forward; [done..|].
  intros logits representation hidden' w' _ Hsl _ Hsr (h & c & -> & Hsh & Hsc & _).
  destruct Hhid as (h0 & c0 & -> & Hsh0 & Hsc0 & _).
  cbn. by rewrite Hsh, Hsc, Hsh0, Hsc0.
Qed.

(** ** Floats *)

Lemma binary_round_aux_sign sx mx ex lx :
  sign_is sx (binary_round_aux prec emax sx mx ex lx).
Proof.
  unfold binary_round_aux.
  destruct (shr_fexp _ _ _ _ _) as [mrs' e'].
  destruct (shr_fexp _ _ _ _ _) as [mrs'' e''].
  destruct (shr_m mrs''); [done| |done].
  by destruct (_ <=? _).
Qed.

Lemma of_uint63_sign n : sign_is false (Prim2SF (PrimFloat.of_uint63 n)).
Proof.
  rewrite of_uint63_spec. unfold binary_normalize.
  pose proof (Uint63.to_Z_bounded n) as Hn.
  destruct (Uint63.to_Z n) as [|m|m]; [done| |lia].
  unfold binary_round. destruct (shl_align _ _ _). apply binary_round_aux_sign.
Qed.

Lemma div_sign mx ex y :
  sign_is false y → sign_is false (SFdiv prec emax (S754_finite false mx ex) y).
Proof.
  destruct y as [s|s| |s m e]; cbn; try done.
  intros ->. destruct (SFdiv_core_binary _ _ _ _ _ _) as [[mz ez] lz].
  apply binary_round_aux_sign.
Qed.

Lemma ltb_zero_sign x : sign_is false (Prim2SF x) → PrimFloat.ltb x 0 = false.
Proof.
  rewrite ltb_spec. change (Prim2SF 0) with (S754_zero false).
  by destruct (Prim2SF x) as [s|s| |s m e]; cbn; try done; intros ->.
Qed.

(** The argument of [math.sqrt] in [initialize] is not negative. *)
Lemma three_over_not_negative z :
  0 ≤ z → PrimFloat.ltb (3 / float_of_int z) 0 = false.
Proof.
  intros Hz. apply ltb_zero_sign. rewrite div_spec.
  unfold float_of_int. destruct (Z.ltb_spec z 0); [lia|].
  change (Prim2SF 3) with (S754_finite false 6755399441055744 (-51)).
  apply div_sign, of_uint63_sign.
Qed.

(** ** The constructors of the layers *)

Lemma returns_check_sizes sizes (Q : list nat → World → Prop) w :
  Forall (λ z, 0 ≤ z) sizes →
  Q (Z.to_nat <$> sizes) w → returns (check_sizes sizes) Q w.
Proof.
  intros Hs HQ. unfold check_sizes.
  assert (forallb (Z.leb 0) sizes = true) as ->; [|done].
  apply forallb_forall. intros z Hz%list_elem_of_In.
  rewrite Forall_forall in Hs. apply Z.leb_le. by apply Hs.
Qed.

Lemma returns_new_parameter s (Q : Tensor → World → Prop) w :
  (∀ t w', frame w w' → shape t = s → is_float t → Q t w') →
  returns (new_parameter s) Q w.
Proof.
  intros HQ. unfold new_parameter. apply returns_bind, returns_sample, returns_ret.
  apply HQ; [apply frame_set_generator | done | by eexists].
Qed.

Lemma returns_uniform_ t lo hi (Q : Tensor → World → Prop) w :
  (∀ t' w', frame w w' → shape t' = shape t → drawn_uniformly lo hi t' →
            is_float t' → Q t' w') →
  returns (uniform_ t lo hi) Q w.
Proof.
  intros HQ. unfold uniform_. apply returns_bind, returns_sample, returns_ret.
  apply HQ; [apply frame_set_generator | done | by eexists | by eexists].
Qed.

Lemma returns_Dropout_init p (Q : Dropout.t → World → Prop) w :
  PrimFloat.ltb p 0 || PrimFloat.ltb 1 p = false →
  Q (Dropout.mk p) w → returns (Dropout_init p) Q w.
Proof. intros Hp HQ. unfold Dropout_init. by rewrite Hp. Qed.

Lemma returns_Embedding_init n d (Q : Embedding.t → World → Prop) w :
  0 ≤ d →
  (∀ e w', frame w w' →
     Embedding.num_embeddings e = n → Embedding.embedding_dim e = Z.to_nat d →
     shape (Embedding.weight e) = [n; Z.to_nat d] → is_float (Embedding.weight e) →
     Q e w') →
  returns (Embedding_init n d) Q w.
Proof.
  intros Hd HQ. unfold Embedding_init.
  apply returns_bind, returns_check_sizes; [repeat constructor; lia|].
  apply returns_bind, returns_new_parameter. intros t w' Hf Hs Hfl.
  apply returns_ret, HQ; try done. cbn in Hs. by rewrite Nat2Z.id in Hs.
Qed.

Lemma returns_Linear_init i o (Q : Linear.t → World → Prop) w :
  0 ≤ i → 0 ≤ o →
  (∀ l w', frame w w' →
     Linear.in_features l = Z.to_nat i → Linear.out_features l = Z.to_nat o →
     shape (Linear.weight l) = [Z.to_nat o; Z.to_nat i] →
     shape (Linear.bias l) = [Z.to_nat o] →
     is_float (Linear.weight l) → is_float (Linear.bias l) →
     Q l w') →
  returns (Linear_init i o) Q w.
Proof.
  intros Hi Ho HQ. unfold Linear_init.
  apply returns_bind, returns_check_sizes; [repeat constructor; lia|].
  apply returns_bind, returns_new_parameter. intros wt w1 Hf1 Hs1 Hfl1.
  apply returns_bind, returns_new_parameter. intros bt w2 Hf2 Hs2 Hfl2.
  apply returns_ret, HQ; try done. by eapply frame_trans.
Qed.

Lemma layer_input_sizes_replicate h count :
  layer_input_sizes h h count = replicate count h.
Proof. by destruct count. Qed.

Lemma returns_LSTM_new_layers count i h (Q : list LSTM.layer → World → Prop) w :
  0 ≤ i → 0 ≤ h →
  (∀ ls w', frame w w' →
     Forall2 (layer_shaped (Z.to_nat h))
       (layer_input_sizes (Z.to_nat i) (Z.to_nat h) count) ls →
     Q ls w') →
  returns (LSTM_new_layers count i h) Q w.
Proof.
  intros Hi Hh. revert i Hi Q w.
  induction count as [|count IH]; intros i Hi Q w HQ; cbn [LSTM_new_layers].
  - apply returns_ret, HQ; [apply frame_refl | constructor].
  - apply returns_bind. unfold LSTM_new_layer.
    apply returns_bind, returns_check_sizes; [repeat constructor; lia|].
    apply returns_bind, returns_new_parameter. intros t1 w1 Hf1 Hs1 Hfl1.
    apply returns_bind, returns_new_parameter. intros t2 w2 Hf2 Hs2 Hfl2.
    apply returns_bind, returns_new_parameter. intros t3 w3 Hf3 Hs3 Hfl3.
    apply returns_bind, returns_new_parameter. intros t4 w4 Hf4 Hs4 Hfl4.
    apply returns_ret, returns_bind, IH; [done|]. intros ls w5 Hf5 Hls.
    apply returns_ret, HQ.
    + eauto using frame_trans.
    + cbn [layer_input_sizes]. rewrite layer_input_sizes_replicate in Hls.
      constructor; [|done].
      assert (Z.to_nat (4 * h) = (4 * Z.to_nat h)%nat) as Hq by lia.
      unfold layer_shaped; cbn. cbn in Hs1. rewrite Hq in *. done.
Qed.

Lemma returns_LSTM_init i h layers_ p (Q : LSTM.t → World → Prop) w :
  0 < i → 0 < h → 0 < layers_ →
  PrimFloat.leb 0 p && PrimFloat.leb p 1 = true →
  (∀ r w', frame w w' →
     LSTM.input_size r = Z.to_nat i → LSTM.hidden_size r = Z.to_nat h →
     LSTM.num_layers r = Z.to_nat layers_ →
     Forall2 (layer_shaped (Z.to_nat h))
       (layer_input_sizes (Z.to_nat i) (Z.to_nat h) (Z.to_nat layers_))
       (LSTM.layers r) →
     Q r w') →
  returns (LSTM_init i h layers_ p) Q w.
Proof.
  intros Hi Hh Hl Hp HQ. unfold LSTM_init. rewrite Hp. cbn [negb].
  destruct (Z.leb_spec i 0); [lia|].
  destruct (Z.leb_spec h 0); [lia|]. destruct (Z.leb_spec layers_ 0); [lia|].
  apply returns_bind, returns_LSTM_new_layers; [lia|lia|].
  intros ls w' Hf Hls. by apply returns_ret, HQ.
Qed.

Lemma returns_initialize matrix a b (Q : Tensor → World → Prop) w :
  shape matrix = [a; b] → (0 < a + b)%nat →
  (∀ t w', frame w w' → shape t = [a; b] →
     drawn_uniformly
       (- PrimFloat.sqrt (3 / float_of_int (Z.of_nat a + Z.of_nat b)))
       (PrimFloat.sqrt (3 / float_of_int (Z.of_nat a + Z.of_nat b))) t →
     is_float t → Q t w') →
  returns (initialize matrix) Q w.
Proof.
  intros Hs Hab HQ. unfold initialize. rewrite Hs.
  apply returns_bind. unfold truediv.
  destruct (Z.eqb_spec (Z.of_nat a + Z.of_nat b) 0); [lia|].
  apply returns_ret, returns_bind. unfold math_sqrt.
  rewrite three_over_not_negative by lia.
  apply returns_ret, returns_uniform_. intros t w' Hf Hst Hu Hfl.
  apply HQ; try done. by rewrite Hst.
Qed.

(** ** Names and shapes of the parameters *)

Lemma layer_shapes_of h k i l :
  layer_shaped h i l →
  prod_map id shape <$> layer_named_parameters k l = layer_shapes h k i.
Proof.
  intros ((H1 & _) & (H2 & _) & (H3 & _) & (H4 & _)).
  unfold layer_named_parameters, layer_shapes.
  rewrite !fmap_cons, fmap_nil. unfold prod_map; cbn [fst snd].
  by rewrite H1, H2, H3, H4.
Qed.

Lemma layers_shapes h (g : nat → nat) ins ls :
  Forall2 (layer_shaped h) ins ls →
  prod_map id shape <$> mjoin (imap (λ k, layer_named_parameters (g k)) ls)
  = mjoin (imap (λ k, layer_shapes h (g k)) ins).
Proof.
  intros Hls. revert g. induction Hls as [|i l ins ls Hl _ IH]; intros g; [done|].
  cbn [imap mjoin list_join]. rewrite fmap_app. f_equal.
  - by apply layer_shapes_of.
  - apply (IH (g ∘ S)).
Qed.

Lemma layers_float (g : nat → nat) h ins ls :
  Forall2 (layer_shaped h) ins ls →
  Forall (λ p : string * Tensor, is_float p.2)
    (mjoin (imap (λ k, layer_named_parameters (g k)) ls)).
Proof.
  intros Hls. revert g. induction Hls as [|i l ins ls Hl _ IH]; intros g.
  - constructor.
  - cbn [imap mjoin list_join]. apply Forall_app. split; [|apply (IH (g ∘ S))].
    destruct Hl as ((_ & ?) & (_ & ?) & (_ & ?) & (_ & ?)).
    repeat constructor; done.
Qed.

(** A record whose layers have the attributes and the parameter shapes of a
    valid configuration is well formed. *)
Lemma well_formed_intro d fwd p h e layers_ dr enc r hid out pr dec tr dev :
  valid_configuration h layers_ e out p →
  Embedding.num_embeddings enc = Dictionary.len d →
  Embedding.embedding_dim enc = Z.to_nat e →
  shape (Embedding.weight enc) = [Dictionary.len d; Z.to_nat e] →
  is_float (Embedding.weight enc) →
  LSTM.input_size r = Z.to_nat e → LSTM.hidden_size r = Z.to_nat h →
  LSTM.num_layers r = Z.to_nat layers_ →
  Forall2 (layer_shaped (Z.to_nat h))
    (layer_input_sizes (Z.to_nat e) (Z.to_nat h) (Z.to_nat layers_))
    (LSTM.layers r) →
  match out, pr with
  | Some o, Some l =>
      Linear.in_features l = Z.to_nat h ∧ Linear.out_features l = Z.to_nat o
      ∧ shape (Linear.weight l) = [Z.to_nat o; Z.to_nat h]
      ∧ shape (Linear.bias l) = [Z.to_nat o]
      ∧ is_float (Linear.weight l) ∧ is_float (Linear.bias l)
  | None, None => True
  | _, _ => False
  end →
  Linear.in_features dec = Z.to_nat (representation_width h out) →
  Linear.out_features dec = Dictionary.len d →
  shape (Linear.weight dec)
    = [Dictionary.len d; Z.to_nat (representation_width h out)] →
  shape (Linear.bias dec) = [Dictionary.len d] →
  is_float (Linear.weight dec) → is_float (Linear.bias dec) →
  well_formed
    (mkLanguageModel d fwd p h e layers_ dr enc r hid out pr dec tr dev).
Proof.
  intros Hv Hen Hed Hes Hef Hri Hrh Hrl Hls Hpr Hdi Hdo Hdws Hdbs Hdwf Hdbf.
  split; cbn [dictionary is_forward_lm dropout hidden_size embedding_size nlayers
              drop encoder rnn hidden nout proj decoder training device]; try done.
  - destruct out as [o|], pr as [l|]; try done. by destruct Hpr as (?&?&_).
  - unfold named_parameters, architecture.
    cbn [dictionary is_forward_lm dropout hidden_size embedding_size nlayers
         drop encoder rnn hidden nout proj decoder training device].
    rewrite !fmap_app. f_equal; [by rewrite fmap_cons, fmap_nil; unfold prod_map; cbn; rewrite Hes|].
    f_equal; [apply (layers_shapes _ id _ _ Hls)|].
    f_equal.
    + destruct out as [o|], pr as [l|]; try done.
      destruct Hpr as (_&_&Hw&Hb&_). cbn. unfold prod_map; cbn. by rewrite Hw, Hb.
    + unfold Linear_named_parameters. rewrite !fmap_cons, fmap_nil.
      unfold prod_map; cbn [fst snd]. by rewrite Hdws, Hdbs.
  - unfold named_parameters.
    cbn [dictionary is_forward_lm dropout hidden_size embedding_size nlayers
         drop encoder rnn hidden nout proj decoder training device].
    apply Forall_app. split; [by repeat constructor|].
    apply Forall_app. split; [apply (layers_float id _ _ _ Hls)|].
    apply Forall_app. split; [|repeat constructor; done].
    destruct out as [o|], pr as [l|]; try done.
    destruct Hpr as (_&_&_&_&?&?). repeat constructor; done.
Qed.

(** ** The heap *)

Lemma returns_alloc m (Q : loc → World → Prop) w :
  (∀ l, heap w !! l = None → Q l (set_heap (<[l := m]> (heap w)) w)) →
  returns (alloc m) Q w.
Proof.
  intros HQ. unfold returns, alloc. apply HQ, not_elem_of_dom, is_fresh.
Qed.

Lemma returns_write l m (Q : unit → World → Prop) w :
  Q tt (set_heap (<[l := m]> (heap w)) w) → returns (write l m) Q w.
Proof. done. Qed.

Lemma returns_get_flair_device (Q : Device → World → Prop) w :
  Q (flair_device w) w → returns get_flair_device Q w.
Proof. done. Qed.

(** ** The constructor *)

Lemma returns___init__ d fwd h layers_ e out p (Q : loc → World → Prop) w :
  valid_configuration h layers_ e out p →
  (∀ l m w',
     heap w !! l = None → heap w' = <[l := m]> (heap w) →
     files w' = files w → grad_enabled w' = grad_enabled w →
     flair_device w' = flair_device w →
     constructed d fwd h layers_ e out p (flair_device w) m →
     well_formed m → initial_weights m →
     Q l w') →
  returns (__init__ d fwd h layers_ e out p) Q w.
Proof.
  intros Hv HQ. pose proof Hv as [Hh Hl He Hout Hp Hrp].
  unfold __init__.
  apply returns_bind, returns_Dropout_init; [done|].
  apply returns_bind, returns_Embedding_init; [lia|].
  intros enc w1 Hf1 Hen Hed Hes Hef.
  apply returns_bind.
  apply (returns_mono _ (λ r w', frame w1 w' ∧
     LSTM.input_size r = Z.to_nat e ∧ LSTM.hidden_size r = Z.to_nat h ∧
     LSTM.num_layers r = Z.to_nat layers_ ∧
     Forall2 (layer_shaped (Z.to_nat h))
       (layer_input_sizes (Z.to_nat e) (Z.to_nat h) (Z.to_nat layers_))
       (LSTM.layers r))).
  { destruct (Z.eqb_spec layers_ 1).
    - apply returns_LSTM_init; [done..|]. by intros.
    - apply returns_LSTM_init; [done| done | done | by apply Hrp |]. by intros. }
  intros r w2 (Hf2 & Hri & Hrh & Hrl & Hls).
  apply returns_bind.
  apply (returns_mono _ (λ '(pr, dec) w', frame w2 w' ∧
     match out, pr with
     | Some o, Some l =>
         Linear.in_features l = Z.to_nat h ∧ Linear.out_features l = Z.to_nat o
         ∧ shape (Linear.weight l) = [Z.to_nat o; Z.to_nat h]
         ∧ shape (Linear.bias l) = [Z.to_nat o]
         ∧ is_float (Linear.weight l) ∧ is_float (Linear.bias l)
     | None, None => True
     | _, _ => False
     end ∧
     (∀ l, pr = Some l →
        let s := PrimFloat.sqrt
                   (3 / float_of_int (Z.of_nat (Linear.in_features l)
                                      + Z.of_nat (Linear.out_features l))) in
        drawn_uniformly (- s) s (Linear.weight l)) ∧
     Linear.in_features dec = Z.to_nat (representation_width h out) ∧
     Linear.out_features dec = Dictionary.len d ∧
     shape (Linear.weight dec)
       = [Dictionary.len d; Z.to_nat (representation_width h out)] ∧
     shape (Linear.bias dec) = [Dictionary.len d] ∧
     is_float (Linear.weight dec) ∧ is_float (Linear.bias dec))).
  { destruct out as [o|].
    - specialize (Hout o eq_refl).
      apply returns_bind, returns_Linear_init; [lia | done |].
      intros l w3 Hf3 Hli Hlo Hlws Hlbs Hlwf Hlbf.
      apply returns_bind, (returns_initialize _ (Z.to_nat o) (Z.to_nat h)); [done | lia |].
      intros t w4 Hf4 Hts Htu Htf.
      apply returns_bind, returns_Linear_init; [done | lia |].
      intros dec w5 Hf5 Hdi Hdo Hdws Hdbs Hdwf Hdbf.
      apply returns_ret. rewrite Nat2Z.id in *.
      split; [eauto using frame_trans|]. cbn.
      repeat split; try done. intros l' [= <-]. cbn.
      rewrite Hli, Hlo, Z.add_comm. done.
    - apply returns_bind, returns_Linear_init; [lia | lia |].
      intros dec w3 Hf3 Hdi Hdo Hdws Hdbs Hdwf Hdbf.
      apply returns_ret. rewrite Nat2Z.id in *. done. }
  intros [pr dec] w3 (Hf3 & Hpr & Hpu & Hdi & Hdo & Hdws & Hdbs & Hdwf & Hdbf).
  assert (frame w w3) as (Hheap & Hfiles & Hgrad & Hdev) by eauto using frame_trans.
  apply returns_bind, returns_alloc. intros l Hfresh.
  rewrite Hheap in Hfresh.
  apply returns_bind. unfold init_weights.
  apply returns_bind, (returns_read _ _ _ _ (lookup_insert_eq _ _ _)).
  cbn [dictionary is_forward_lm dropout hidden_size embedding_size nlayers
       drop encoder rnn hidden nout proj decoder training device].
  apply returns_bind, returns_uniform_. intros ew w4 Hf4 Hews Hewu Hewf.
  apply returns_bind, returns_uniform_. intros dw w5 Hf5 Hdws' Hdwu Hdwf'.
  apply returns_write.
  assert (frame (set_heap (<[l:=mkLanguageModel d fwd p h e layers_ (Dropout.mk p)
            enc r None out pr dec true CPU]> (heap w3)) w3) w5)
    as (Hheap5 & Hfiles5 & Hgrad5 & Hdev5) by eauto using frame_trans.
  cbn in Hheap5, Hfiles5, Hgrad5, Hdev5.
  apply returns_bind, returns_get_flair_device.
  apply returns_bind. unfold to.
  apply returns_bind, (returns_read _ _ _ _ (lookup_insert_eq _ _ _)).
  cbn [dictionary is_forward_lm dropout hidden_size embedding_size nlayers
       drop encoder rnn hidden nout proj decoder training device
       heap files generator grad_enabled flair_device set_heap].
  apply returns_write, returns_ret.
  cbn [heap files generator grad_enabled flair_device set_heap].
  eapply HQ; cbn [heap files generator grad_enabled flair_device set_heap].
  - done.
  - by rewrite Hheap5, !insert_insert_eq, Hheap.
  - congruence.
  - congruence.
  - congruence.
  - split; cbn; congruence.
  - apply well_formed_intro; try done; cbn; try congruence.
    destruct Hdbf as [bs Hbs]. unfold is_float, fill_. rewrite Hbs. by eexists.
  - split; cbn.
    + done.
    + unfold all_zero, fill_. cbn. destruct Hdbf as [bs ->]. done.
    + done.
    + done.
Qed.

(** ** The hidden state *)

Lemma init_hidden_run (self : loc) (m : LanguageModel) (b : nat) (w : World) :
  heap w !! self = Some m →
  well_formed m →
  ∃ h c,
    init_hidden self (Z.of_nat b) w = (Ok (HTuple [HTensor h; HTensor c]), w)
    ∧ shape h = [Z.to_nat (nlayers m); b; Z.to_nat (hidden_size m)]
    ∧ shape c = [Z.to_nat (nlayers m); b; Z.to_nat (hidden_size m)]
    ∧ is_float h ∧ is_float c.
Proof.
  intros Hself Hwf.
  destruct (wf_configuration m Hwf) as [Hh Hl _ _ _ _].
  destruct (well_formed_encoder_float m Hwf) as [ws Hws].
  unfold init_hidden, mbind, M_bind, read. rewrite Hself.
  unfold tensor_new, check_sizes, mbind, M_bind.
  assert (forallb (Z.leb 0) [nlayers m; Z.of_nat b; hidden_size m] = true) as ->.
  { cbn. rewrite !andb_true_iff, !Z.leb_le. lia. }
  cbn. rewrite Hws, Nat2Z.id. cbn.
  eexists _, _. split; [reflexivity|]. cbn. repeat split; by eexists.
Qed.

(** C9.  For every batch size [b], [init_hidden(b)] on a well-formed model
    returns a pair of tensors, each of shape [nlayers x b x hidden_size], each
    with every entry equal to zero and without computation history. *)
Theorem init_hidden_zero (self : loc) (m : LanguageModel) (b : nat) (w : World) :
  heap w !! self = Some m →
  well_formed m →
  ∃ h c,
    init_hidden self (Z.of_nat b) w = (Ok (HTuple [HTensor h; HTensor c]), w)
    ∧ shape h = [Z.to_nat (nlayers m); b; Z.to_nat (hidden_size m)]
    ∧ shape c = [Z.to_nat (nlayers m); b; Z.to_nat (hidden_size m)]
    ∧ all_zero h ∧ all_zero c
    ∧ no_history h ∧ no_history c.
Proof.
  intros Hself Hwf.
  destruct (wf_configuration m Hwf) as [Hh Hl _ _ _ _].
  destruct (well_formed_encoder_float m Hwf) as [ws Hws].
  unfold init_hidden, mbind, M_bind, read. rewrite Hself.
  unfold tensor_new, check_sizes, mbind, M_bind.
  assert (forallb (Z.leb 0) [nlayers m; Z.of_nat b; hidden_size m] = true) as ->.
  { cbn. rewrite !andb_true_iff, !Z.leb_le. lia. }
  cbn. rewrite Hws, Nat2Z.id. cbn.
  eexists _, _. split; [reflexivity|]. cbn. done.
Qed.

Lemma Hidden_induction (P : Hidden → Prop) :
  (∀ t, P (HTensor t)) →
  (∀ hs, Forall P hs → P (HTuple hs)) →
  ∀ h, P h.
Proof.
  intros Ht Hs. fix IH 1. intros [t|hs]; [apply Ht|].
  apply Hs. induction hs as [|h hs IHhs]; constructor; [apply IH | apply IHhs].
Qed.

Lemma repackage_hidden_nesting h : nesting (repackage_hidden h) = nesting h.
Proof.
  induction h as [t|hs IH] using Hidden_induction; [done|].
  cbn. f_equal. rewrite <- list_fmap_compose.
  apply Forall_fmap_ext_1. by eapply Forall_impl.
Qed.

Lemma repackage_hidden_leaves h :
  Forall2 (λ t t', shape t' = shape t ∧ data t' = data t ∧ no_history t')
    (leaves h) (leaves (repackage_hidden h)).
Proof.
  induction h as [t|hs IH] using Hidden_induction.
  - by repeat constructor.
  - cbn. induction IH as [|h hs Hh _ IHhs]; [constructor|].
    cbn. by apply Forall2_app.
Qed.

(** C2.  [repackage_hidden] returns a hidden state of the same nesting whose
    leaves have the shapes and the entries of the leaves it was given and no
    computation history; in particular the tensors that [init_hidden(b)]
    returns keep their entries under [repackage_hidden], for every batch
    size [b]. *)
Theorem repackage_hidden_preserves_values :
  (∀ h : Hidden,
     nesting (repackage_hidden h) = nesting h
     ∧ Forall2 (λ t t', shape t' = shape t ∧ data t' = data t ∧ no_history t')
         (leaves h) (leaves (repackage_hidden h)))
  ∧ (∀ (self : loc) (m : LanguageModel) (b : nat) (w : World),
       heap w !! self = Some m → well_formed m →
       ∃ h, init_hidden self (Z.of_nat b) w = (Ok h, w)
            ∧ nesting (repackage_hidden h) = nesting h
            ∧ data <$> leaves (repackage_hidden h) = data <$> leaves h).
Proof.
  split.
  - intros h. split; [apply repackage_hidden_nesting | apply repackage_hidden_leaves].
  - intros self m b w Hself Hwf.
    destruct (init_hidden_run self m b w Hself Hwf) as (h & c & Hrun & _).
    eexists. split; [exact Hrun|]. split; [apply repackage_hidden_nesting|done].
Qed.

(** ** Saving *)

Lemma save_run self m file w :
  heap w !! self = Some m →
  save self file w
  = (Ok tt, set_files (<[file := model_record m]> (files w)) w).
Proof.
  intros Hself. unfold save, state_dict, torch_save, mbind, M_bind, read.
  rewrite Hself. cbn. by rewrite Hself.
Qed.

Lemma save_checkpoint_run self m file optimizer epoch split loss w :
  heap w !! self = Some m →
  save_checkpoint self file optimizer epoch split loss w
  = (Ok tt,
     set_files (<[file := checkpoint_record m optimizer epoch split loss]> (files w)) w).
Proof.
  intros Hself. unfold save_checkpoint, state_dict, torch_save, mbind, M_bind, read.
  rewrite Hself. cbn. by rewrite Hself.
Qed.

(** C10.  [save] and [save_checkpoint] return and leave every object on the
    heap as it was: the model keeps its weights, its configuration and its
    [hidden] attribute; only the file system (and nothing else of the world)
    has changed. *)
Theorem save_leaves_model_unchanged (self : loc) (m : LanguageModel)
    (file : string) (optimizer : Optimizer) (epoch split loss : Value)
    (w : World) :
  heap w !! self = Some m →
  (∃ w', save self file w = (Ok tt, w')
         ∧ heap w' = heap w ∧ heap w' !! self = Some m
         ∧ generator w' = generator w)
  ∧ (∃ w', save_checkpoint self file optimizer epoch split loss w = (Ok tt, w')
           ∧ heap w' = heap w ∧ heap w' !! self = Some m
           ∧ generator w' = generator w).
Proof.
  intros Hself. split.
  - rewrite (save_run self m file w Hself). by eexists.
  - rewrite (save_checkpoint_run self m file optimizer epoch split loss w Hself).
    by eexists.
Qed.

(** ** What the constructor can raise *)

Lemma only_raises_ret {A} (a : A) P : only_raises (mret a) P.
Proof. by intros w. Qed.

Lemma only_raises_raise {A} e (P : exn → Prop) : P e → only_raises (@raise _ A e) P.
Proof. by intros HP w. Qed.

Lemma only_raises_bind {A B} (c : M A) (f : A → M B) P :
  only_raises c P → (∀ a, only_raises (f a) P) → only_raises (c ≫= f) P.
Proof.
  intros Hc Hf w. unfold mbind, M_bind. specialize (Hc w).
  destruct (c w) as [[a|e] w']; [apply Hf | done].
Qed.

Lemma only_raises_sample {A} (k : Generator → A * Generator) P :
  only_raises (sample k) P.
Proof. intros w. unfold sample. by destruct (k _). Qed.

Lemma only_raises_read l P : P ReferenceError → only_raises (read l) P.
Proof. intros HP w. unfold read. by destruct (heap w !! l). Qed.

Lemma only_raises_check_sizes sizes P :
  P RuntimeError → only_raises (check_sizes sizes) P.
Proof. intros HP w. unfold check_sizes. by destruct (forallb _ _). Qed.

Lemma only_raises_new_parameter s P : only_raises (new_parameter s) P.
Proof.
  apply only_raises_bind; [apply only_raises_sample | intros; apply only_raises_ret].
Qed.

Lemma only_raises_uniform_ t lo hi P : only_raises (uniform_ t lo hi) P.
Proof.
  apply only_raises_bind; [apply only_raises_sample | intros; apply only_raises_ret].
Qed.

Lemma only_raises_Linear_init i o P :
  P RuntimeError → only_raises (Linear_init i o) P.
Proof.
  intros HP. repeat (apply only_raises_bind; [|intros]);
    auto using only_raises_check_sizes, only_raises_new_parameter, only_raises_sample,
      only_raises_ret.
Qed.

Lemma only_raises_LSTM_new_layers count i h P :
  P RuntimeError → only_raises (LSTM_new_layers count i h) P.
Proof.
  intros HP. revert i. induction count as [|count IH]; intros i; cbn [LSTM_new_layers].
  - apply only_raises_ret.
  - unfold LSTM_new_layer.
    repeat (apply only_raises_bind; [|intros]);
      auto using only_raises_check_sizes, only_raises_new_parameter, only_raises_sample,
      only_raises_ret.
Qed.

Lemma only_raises_LSTM_init i h layers_ p P :
  P RuntimeError → P ValueError → only_raises (LSTM_init i h layers_ p) P.
Proof.
  intros HR HV. unfold LSTM_init.
  destruct (negb _); [by apply only_raises_raise|].
  destruct (i <=? 0); [by apply only_raises_raise|].
  destruct (h <=? 0); [by apply only_raises_raise|].
  destruct (layers_ <=? 0); [by apply only_raises_raise|].
  apply only_raises_bind; [by apply only_raises_LSTM_new_layers|].
  intros. apply only_raises_ret.
Qed.

Lemma only_raises_initialize matrix P :
  P ValueError → P ZeroDivisionError → only_raises (initialize matrix) P.
Proof.
  intros HV HZ. unfold initialize.
  destruct (shape matrix) as [|a [|b [|]]]; try by apply only_raises_raise.
  apply only_raises_bind.
  { unfold truediv. destruct (_ =? 0); [by apply only_raises_raise|apply only_raises_ret]. }
  intros q. apply only_raises_bind; [|intros; apply only_raises_uniform_].
  unfold math_sqrt. destruct (PrimFloat.ltb q 0); [by apply only_raises_raise|apply only_raises_ret].
Qed.

Lemma only_raises___init__ d fwd h layers_ e out p :
  only_raises (__init__ d fwd h layers_ e out p) (λ e, library_error e = true).
Proof.
  unfold __init__.
  apply only_raises_bind.
  { unfold Dropout_init. destruct (_ || _); [by apply only_raises_raise|apply only_raises_ret]. }
  intros dr. apply only_raises_bind.
  { unfold Embedding_init.
    repeat (apply only_raises_bind; [|intros]);
      auto using only_raises_check_sizes, only_raises_new_parameter, only_raises_sample,
      only_raises_ret. }
  intros enc. apply only_raises_bind.
  { destruct (layers_ =? 1); by apply only_raises_LSTM_init. }
  intros r. apply only_raises_bind.
  { destruct out as [o|].
    - apply only_raises_bind; [by apply only_raises_Linear_init|]. intros l.
      apply only_raises_bind; [by apply only_raises_initialize|]. intros t.
      apply only_raises_bind; [by apply only_raises_Linear_init|]. intros dec.
      apply only_raises_ret.
    - apply only_raises_bind; [by apply only_raises_Linear_init|]. intros dec.
      apply only_raises_ret. }
  intros [pr dec]. apply only_raises_bind; [by intros w|]. intros self.
  apply only_raises_bind.
  { unfold init_weights. apply only_raises_bind; [by apply only_raises_read|]. intros m.
    apply only_raises_bind; [apply only_raises_uniform_|]. intros ew.
    apply only_raises_bind; [apply only_raises_uniform_|]. intros dw. by intros w. }
  intros _. apply only_raises_bind; [by intros w|]. intros dev.
  apply only_raises_bind; [|intros; apply only_raises_ret].
  unfold to. apply only_raises_bind; [by apply only_raises_read|]. intros m. by intros w.
Qed.

Lemma raises_raise {A} e w : raises (@raise _ A e) e w.
Proof. by exists w. Qed.

Lemma raises_bind_l {A B} (c : M A) (f : A → M B) e w :
  raises c e w → raises (c ≫= f) e w.
Proof. intros [w' Hc]. exists w'. unfold mbind, M_bind. by rewrite Hc. Qed.

Lemma raises_bind_r {A B} (c : M A) (f : A → M B) e w :
  returns c (λ a w', raises (f a) e w') w → raises (c ≫= f) e w.
Proof.
  unfold returns, raises, mbind, M_bind. by destruct (c w) as [[a|e'] w'].
Qed.


(** ** Text generation *)

Lemma returns_no_grad {A} (body : M A) (Q : A → World → Prop) w :
  returns body (λ a w', Q a (set_grad_enabled (grad_enabled w) w'))
    (set_grad_enabled false w) →
  returns (no_grad body) Q w.
Proof.
  unfold returns, no_grad. by destruct (body _) as [[a|e] w'].
Qed.

Lemma raises_no_grad {A} (body : M A) e w :
  raises body e (set_grad_enabled false w) → raises (no_grad body) e w.
Proof.
  intros [w' Hb]. unfold raises, no_grad. rewrite Hb. by eexists.
Qed.

Lemma returns_init_hidden self m (b : nat) (Q : Hidden → World → Prop) w :
  heap w !! self = Some m → well_formed m →
  (∀ h, hidden_pair m b h → Q h w) →
  returns (init_hidden self (Z.of_nat b)) Q w.
Proof.
  intros Hself Hwf HQ.
  destruct (init_hidden_run self m b w Hself Hwf)
    as (h & c & Hrun & Hsh & Hsc & Hfh & Hfc).
  eapply returns_intro; [exact Hrun|]. apply HQ.
  by exists h, c.
Qed.

Lemma returns_rand_index s n (Q : Tensor → World → Prop) w :
  (∀ t ks w', frame w w' → shape t = s → data t = LongData ks →
     length ks = numel s →
     Forall (λ i, 0 ≤ i ∧ (i < Z.of_nat n ∨ (n = 0%nat ∧ i = 0))) ks →
     Q t w') →
  returns (rand_index s n) Q w.
Proof.
  intros HQ. unfold rand_index. apply returns_bind, returns_sample, returns_ret.
  eapply HQ; try done.
  - apply rand_mul_long_length.
  - apply Forall_forall. intros i Hi. by eapply rand_mul_long_range.
Qed.

Lemma returns_list_getitem {A} (xs : list A) (k : nat) (Q : A → World → Prop) w :
  (∀ x, xs !! k = Some x → Q x w) → (k < length xs)%nat →
  returns (list_getitem xs (Z.of_nat k)) Q w.
Proof.
  intros HQ Hk. unfold list_getitem.
  destruct (Z.ltb_spec (Z.of_nat k) 0); [lia|].
  destruct (Z.leb_spec 0 (Z.of_nat k)); [|lia].
  destruct (Z.ltb_spec (Z.of_nat k) (Z.of_nat (length xs))); [|lia].
  cbn. rewrite Nat2Z.id.
  destruct (xs !! k) as [x|] eqn:Hx; [by apply returns_ret, HQ|].
  apply lookup_ge_None in Hx. lia.
Qed.

Lemma squeeze_logits n :
  filter (λ k, k ≠ 1%nat) [1%nat; 1%nat; n] = if decide (n = 1%nat) then [] else [n].
Proof.
  rewrite !filter_cons, filter_nil. repeat case_decide; done.
Qed.

(** The state of the sampling loop of a model with [n] symbols: the
    characters drawn so far, a 1 x 1 input holding a symbol index, and a
    hidden pair for a batch of one. *)
Lemma returns_generate_step self m chars input hidden
    (Q : list string * Tensor * Hidden → World → Prop) w :
  heap w !! self = Some m → well_formed m →
  (2 ≤ Dictionary.len (dictionary m))%nat →
  index_batch (Dictionary.len (dictionary m)) 1 1 input →
  hidden_pair m 1 hidden →
  (∀ word input' hidden' w', frame w w' →
     word ∈ Dictionary.idx2item (dictionary m) →
     index_batch (Dictionary.len (dictionary m)) 1 1 input' →
     hidden_pair m 1 hidden' →
     Q (chars ++ [word], input', hidden') w') →
  returns (generate_step self (Dictionary.idx2item (dictionary m))
             (chars, input, hidden)) Q w.
Proof.
  intros Hself Hwf Hn Hin Hhid HQ. unfold generate_step.
  set (n := Dictionary.len (dictionary m)) in *.
  apply returns_bind, (returns_forward _ m _ _ 1 1); [done|done|lia|done|done|].
  intros logits repr hidden' w1 Hf1 Hsl [ls Hls] _ Hhid'.
  apply returns_bind, returns_result_of. intros squeezed Hss Hds.
  assert (shape squeezed = [n]) as Hsq.
  { rewrite Hss, Hsl, squeeze_logits. fold n. rewrite decide_False by lia. done. }
  apply returns_bind. unfold div. cbn [dot_data detach data shape].
  rewrite Hds, Hls. apply returns_result_of. intros scaled Hsc Hdc.
  apply returns_bind. unfold exp. rewrite Hdc.
  apply returns_result_of. intros weights Hsw Hdw.
  apply returns_bind. unfold multinomial, cpu. rewrite Hdw, Hsw, Hsc, Hsq.
  rewrite decide_False by lia.
  apply returns_bind, returns_sample, returns_ret.
  set (k := (multinomial_draw _ _ _).1).
  assert (k < n)%nat as Hk by (apply multinomial_draw_lt; lia).
  apply returns_bind. unfold select0. cbn [shape data numel foldr take].
  apply returns_result_of. intros word_idx Hsi Hdi. cbn in Hdi.
  destruct Hin as (Hshape & ks & Hks & _).
  apply returns_bind. unfold fill_tensor_. rewrite Hsi, Hdi. apply returns_ret.
  apply returns_bind. unfold tensor_index. rewrite Hdi. apply returns_ret.
  apply returns_bind, returns_list_getitem; [|done]. intros item Hitem.
  apply returns_ret, HQ.
  - eapply frame_trans; [exact Hf1|]. apply frame_set_generator.
  - unfold Dictionary.decode. by eapply list_elem_of_lookup_2.
  - unfold fill_. rewrite Hks, Hshape. split; [done|]. cbn.
    eexists. split; [done|]. repeat constructor; lia.
  - done.
Qed.

Lemma returns_generate_loop self m count chars input hidden w :
  heap w !! self = Some m → well_formed m →
  (2 ≤ Dictionary.len (dictionary m))%nat →
  index_batch (Dictionary.len (dictionary m)) 1 1 input →
  hidden_pair m 1 hidden →
  returns (for_range count
             (generate_step self (Dictionary.idx2item (dictionary m)))
             (chars, input, hidden))
    (λ '(chars', _, _) w',
       ∃ words, chars' = chars ++ words ∧ length words = count
                ∧ Forall (λ x, x ∈ Dictionary.idx2item (dictionary m)) words) w.
Proof.
  intros Hself Hwf Hn. revert chars input hidden w Hself.
  induction count as [|count IH]; intros chars input hidden w Hself Hin Hhid;
    cbn [for_range].
  - apply returns_ret. exists []. by rewrite app_nil_r.
  - apply returns_bind, (returns_generate_step _ m); [done..|].
    intros word input' hidden' w' (Hheap & _) Hword Hin' Hhid'.
    eapply returns_mono; [apply IH; [congruence|done|done]|].
    intros [[chars' ?] ?] w'' (words & -> & Hlen & Hall).
    exists (word :: words). rewrite <- app_assoc. cbn. split; [done|].
    split; [by rewrite Hlen|by constructor].
Qed.

(** With at least two symbols in the dictionary, [generate_text(n)] returns
    the concatenation of exactly [n] symbols of the dictionary (none for
    [n <= 0]). *)
Lemma generate_text_symbols self m n w :
  heap w !! self = Some m → well_formed m →
  (2 ≤ Dictionary.len (dictionary m))%nat →
  returns (generate_text self n)
    (λ text _,
       ∃ words, length words = Z.to_nat n
                ∧ Forall (λ x, x ∈ Dictionary.idx2item (dictionary m)) words
                ∧ text = String.concat "" words) w.
Proof.
  intros Hself Hwf Hn. unfold generate_text.
  apply returns_no_grad, returns_bind, (returns_read _ m); [done|].
  apply returns_bind, (returns_init_hidden _ m 1); [done..|]. intros hidden Hhid.
  apply returns_bind, returns_rand_index. intros input ks w1 (Hheap & _) Hs Hd _ Hks.
  apply returns_bind.
  eapply returns_mono;
    [apply (returns_generate_loop self m); [by rewrite Hheap|done|done| |done]|].
  - split; [done|]. exists ks. split; [done|].
    eapply Forall_impl; [exact Hks|]. unfold Dictionary.len in *.
    intros i ?. cbn in *. lia.
  - intros [[chars ?] ?] w2 (words & -> & Hlen & Hall).
    apply returns_ret. by exists words.
Qed.

(** [generate_text(n)] for [n <= 0]: the loop is not entered. *)
Lemma generate_text_zero self m n w :
  heap w !! self = Some m → well_formed m → n ≤ 0 →
  ∃ w', generate_text self n w = (Ok "", w').
Proof.
  intros Hself Hwf Hn.
  cut (returns (generate_text self n) (λ text _, text = "") w).
  { intros (text & w' & Hrun & ->)%returns_inv. eauto. }
  unfold generate_text.
  apply returns_no_grad, returns_bind, (returns_read _ m); [done|].
  apply returns_bind, (returns_init_hidden _ m 1); [done..|]. intros hidden Hhid.
  apply returns_bind, returns_rand_index. intros input ks w1 _ _ _ _ _.
  replace (Z.to_nat n) with 0%nat by lia. done.
Qed.

(** The first round of the loop, for a dictionary of fewer than two symbols. *)
Lemma generate_text_raises self m n e w :
  heap w !! self = Some m → well_formed m → 0 < n →
  (∀ input hidden w',
     heap w' !! self = Some m →
     shape input = [1%nat; 1%nat] →
     (∃ i, data input = LongData [i] ∧ 0 ≤ i
           ∧ (i < Z.of_nat (Dictionary.len (dictionary m))
              ∨ (Dictionary.len (dictionary m) = 0%nat ∧ i = 0))) →
     hidden_pair m 1 hidden →
     raises (generate_step self (Dictionary.idx2item (dictionary m))
               ([], input, hidden)) e w') →
  raises (generate_text self n) e w.
Proof.
  intros Hself Hwf Hn Hstep. unfold generate_text.
  apply raises_no_grad, raises_bind_r, (returns_read _ m); [done|].
  apply raises_bind_r, (returns_init_hidden _ m 1); [done..|]. intros hidden Hhid.
  apply raises_bind_r, returns_rand_index.
  intros input ks w1 (Hheap & _) Hs Hd Hlen Hks.
  destruct ks as [|i [|]]; try done. apply Forall_inv in Hks.
  apply raises_bind_l.
  destruct (Z.to_nat n) as [|count] eqn:Hcount; [lia|]. cbn [for_range].
  apply raises_bind_l, Hstep; [by rewrite Hheap|done| |done].
  exists i. unfold Dictionary.len in *. by destruct Hks.
Qed.

(** C5, as the source has it.  For a model whose dictionary has size 0,
    [generate_text] checks nothing before its sampling loop and never raises
    ConfigurationError: without rounds ([n <= 0]) it returns the empty
    string, and otherwise the forward pass of its first round fails at the
    embedding lookup, in a table without rows, with the library's
    RuntimeError. *)
Theorem generate_text_empty_dictionary (self : loc) (m : LanguageModel) (n : Z)
    (w : World) :
  heap w !! self = Some m → well_formed m →
  Dictionary.len (dictionary m) = 0%nat →
  (n ≤ 0 → ∃ w', generate_text self n w = (Ok "", w'))
  ∧ (0 < n → raises (generate_text self n) RuntimeError w).
Proof.
  intros Hself Hwf Hempty. split; [by apply (generate_text_zero self m)|].
  intros Hn. apply (generate_text_raises self m); [done..|].
  intros input hidden w' Hself' Hs (i & Hd & Hi & Hrange) Hhid.
  unfold generate_step. apply raises_bind_l. unfold forward.
  apply raises_bind_r, (returns_read _ m); [done|]. apply raises_bind_l.
  unfold Embedding_forward. rewrite Hd. cbn [forallb].
  destruct (wf_encoder m Hwf) as [-> _]. rewrite Hempty.
  destruct (Z.ltb_spec i (Z.of_nat 0)); [lia|].
  rewrite andb_false_r. cbn [andb]. rewrite decide_True by done. apply raises_raise.
Qed.

(** C3, where the source falls short of it.  With a dictionary of exactly
    one symbol, [generate_text(n)] for [n > 0] does not return: the logits of
    the first round are squeezed to a 0-dimensional tensor, which
    [torch.multinomial] rejects with a RuntimeError. *)
Theorem generate_text_single_symbol (self : loc) (m : LanguageModel) (n : Z)
    (w : World) :
  heap w !! self = Some m → well_formed m →
  Dictionary.len (dictionary m) = 1%nat →
  0 < n →
  raises (generate_text self n) RuntimeError w.
Proof.
  intros Hself Hwf Hone Hn. apply (generate_text_raises self m); [done..|].
  intros input hidden w' Hself' Hs (i & Hd & Hi & Hrange) Hhid.
  unfold generate_step.
  apply raises_bind_r, (returns_forward _ m _ _ 1 1); [done|done|lia| |done|].
  { split; [done|]. exists [i]. split; [done|]. repeat constructor; lia. }
  intros logits repr hidden' w1 _ Hsl [ls Hls] _ _.
  apply raises_bind_r, returns_result_of. intros squeezed Hss Hds.
  rewrite Hsl, squeeze_logits, Hone in Hss. cbn in Hss.
  apply raises_bind_r. unfold div. cbn [dot_data detach data shape].
  rewrite Hds, Hls. apply returns_result_of. intros scaled Hsc Hdc.
  apply raises_bind_r. unfold exp. rewrite Hdc.
  apply returns_result_of. intros weights Hsw Hdw.
  apply raises_bind_l. unfold multinomial, cpu. rewrite Hdw, Hsw, Hsc, Hss.
  apply raises_raise.
Qed.

(** ** Reproducible initialisation *)

Lemma generator_only_ret {A} (a : A) : generator_only (mret a).
Proof. by intros w1 w2 Hg. Qed.

Lemma generator_only_raise {A} e : generator_only (@raise _ A e).
Proof. by intros w1 w2 Hg. Qed.

Lemma generator_only_sample {A} (k : Generator → A * Generator) :
  generator_only (sample k).
Proof.
  intros w1 w2 Hg. unfold sample. rewrite Hg. by destruct (k _).
Qed.

Lemma generator_only_bind {A B} (c : M A) (f : A → M B) :
  generator_only c → (∀ a, generator_only (f a)) → generator_only (c ≫= f).
Proof.
  intros Hc Hf w1 w2 Hg. unfold mbind, M_bind.
  destruct (Hc w1 w2 Hg) as [Hr Hg'].
  destruct (c w1) as [[a1|e1] w1'], (c w2) as [[a2|e2] w2']; cbn in *;
    simplify_eq; [by apply Hf | done].
Qed.

Lemma generator_only_check_sizes sizes : generator_only (check_sizes sizes).
Proof.
  unfold check_sizes.
  destruct (forallb _ _); [apply generator_only_ret | apply generator_only_raise].
Qed.

Lemma generator_only_new_parameter s : generator_only (new_parameter s).
Proof.
  apply generator_only_bind; [apply generator_only_sample|].
  intros; apply generator_only_ret.
Qed.

Lemma generator_only_uniform_ t lo hi : generator_only (uniform_ t lo hi).
Proof.
  apply generator_only_bind; [apply generator_only_sample|].
  intros; apply generator_only_ret.
Qed.

Lemma generator_only_Linear_init i o : generator_only (Linear_init i o).
Proof.
  repeat (apply generator_only_bind; [|intros]);
    auto using generator_only_check_sizes, generator_only_sample, generator_only_ret.
Qed.

Lemma generator_only_LSTM_new_layers count i h :
  generator_only (LSTM_new_layers count i h).
Proof.
  revert i. induction count as [|count IH]; intros i; cbn [LSTM_new_layers].
  - apply generator_only_ret.
  - unfold LSTM_new_layer.
    repeat (apply generator_only_bind; [|intros]);
      auto using generator_only_check_sizes, generator_only_sample, generator_only_ret.
Qed.

Lemma generator_only_LSTM_init i h layers_ p : generator_only (LSTM_init i h layers_ p).
Proof.
  unfold LSTM_init.
  destruct (negb _); [apply generator_only_raise|].
  destruct (i <=? 0); [apply generator_only_raise|].
  destruct (h <=? 0); [apply generator_only_raise|].
  destruct (layers_ <=? 0); [apply generator_only_raise|].
  apply generator_only_bind; [apply generator_only_LSTM_new_layers|].
  intros. apply generator_only_ret.
Qed.

Lemma generator_only_initialize matrix : generator_only (initialize matrix).
Proof.
  unfold initialize.
  destruct (shape matrix) as [|a [|b [|]]]; try apply generator_only_raise.
  apply generator_only_bind.
  { unfold truediv. destruct (_ =? 0); [apply generator_only_raise|apply generator_only_ret]. }
  intros q. apply generator_only_bind; [|intros; apply generator_only_uniform_].
  unfold math_sqrt.
  destruct (PrimFloat.ltb q 0); [apply generator_only_raise|apply generator_only_ret].
Qed.

(** One statement of a constructor run from two worlds with the same seed. *)
Lemma same_seed_step {A B} (c : M A) (f : A → M B)
    (R : outcome B * World → outcome B * World → Prop) w1 w2 :
  generator_only c → generator w1 = generator w2 →
  (∀ e w1' w2', R (Raise e, w1') (Raise e, w2')) →
  (∀ a w1' w2', generator w1' = generator w2' → R (f a w1') (f a w2')) →
  R ((c ≫= f) w1) ((c ≫= f) w2).
Proof.
  intros Hc Hg Hraise Hok. unfold mbind, M_bind.
  destruct (Hc w1 w2 Hg) as [Hr Hg'].
  destruct (c w1) as [[a1|e1] w1'], (c w2) as [[a2|e2] w2']; cbn in *;
    simplify_eq; [by apply Hok | apply Hraise].
Qed.

Lemma sample_run {A} (k : Generator → A * Generator) w :
  sample k w = (Ok (k (generator w)).1, set_generator (k (generator w)).2 w).
Proof. unfold sample. by destruct (k _). Qed.

Lemma __init___same_seed d fwd h layers_ e out p w1 w2 :
  generator w1 = generator w2 →
  same_parameters (__init__ d fwd h layers_ e out p w1)
                  (__init__ d fwd h layers_ e out p w2).
Proof.
  intros Hg. unfold __init__.
  apply same_seed_step; [|done|done|]; clear w1 w2 Hg.
  { unfold Dropout_init.
    destruct (_ || _); [apply generator_only_raise|apply generator_only_ret]. }
  intros dr w1 w2 Hg.
  apply same_seed_step; [|done|done|]; clear w1 w2 Hg.
  { unfold Embedding_init.
    repeat (apply generator_only_bind; [|intros]);
      auto using generator_only_check_sizes, generator_only_sample, generator_only_ret. }
  intros enc w1 w2 Hg.
  apply same_seed_step; [|done|done|]; clear w1 w2 Hg.
  { destruct (layers_ =? 1); apply generator_only_LSTM_init. }
  intros r w1 w2 Hg.
  apply same_seed_step; [|done|done|]; clear w1 w2 Hg.
  { destruct out as [o|].
    - apply generator_only_bind; [apply generator_only_Linear_init|]. intros l.
      apply generator_only_bind; [apply generator_only_initialize|]. intros t.
      apply generator_only_bind; [apply generator_only_Linear_init|]. intros dec.
      apply generator_only_ret.
    - apply generator_only_bind; [apply generator_only_Linear_init|]. intros dec.
      apply generator_only_ret. }
  intros [pr dec] w1 w2 Hg.
  unfold init_weights, to, uniform_, mbind, M_bind, alloc, read, write,
    get_flair_device.
  repeat (rewrite ?sample_run, ?lookup_insert_eq;
          cbn [mret M_ret heap files generator grad_enabled flair_device
               set_heap set_generator fst snd
               dictionary is_forward_lm dropout hidden_size embedding_size
               nlayers drop encoder rnn hidden nout proj decoder training
               device]).
  unfold same_parameters. eexists _, _.
  cbn [heap set_heap]. rewrite !lookup_insert_eq.
  split; [done|]. split; [done|]. by rewrite Hg.
Qed.

Lemma __init___run d fwd h layers_ e out p w :
  valid_configuration h layers_ e out p →
  ∃ l m w',
    __init__ d fwd h layers_ e out p w = (Ok l, w')
    ∧ heap w !! l = None ∧ heap w' = <[l := m]> (heap w)
    ∧ files w' = files w ∧ grad_enabled w' = grad_enabled w
    ∧ flair_device w' = flair_device w
    ∧ constructed d fwd h layers_ e out p (flair_device w) m
    ∧ well_formed m ∧ initial_weights m.
Proof.
  intros Hv.
  cut (returns (__init__ d fwd h layers_ e out p)
         (λ l w', ∃ m, heap w !! l = None ∧ heap w' = <[l := m]> (heap w)
            ∧ files w' = files w ∧ grad_enabled w' = grad_enabled w
            ∧ flair_device w' = flair_device w
            ∧ constructed d fwd h layers_ e out p (flair_device w) m
            ∧ well_formed m ∧ initial_weights m) w).
  { intros (l & w' & Hrun & m & ?)%returns_inv. by exists l, m, w'. }
  apply returns___init__; [done|]. intros l m w' ????????. by exists m.
Qed.

(** C4, as the source has it.  The constructor checks nothing itself and
    never raises ConfigurationError: whatever it raises is an exception of
    the tensor library or of the runtime.  It does fail, during construction
    and with the library's ValueError or RuntimeError, whenever
    [nlayers < 1], [hidden_size <= 0] or [embedding_size <= 0]; on a valid
    configuration it returns a model. *)
Theorem constructor_rejects_with_library_error (d : Dictionary.t) (fwd : bool)
    (h layers_ e : Z) (out : option Z) (p : float) (w : World) :
  (∀ err w', __init__ d fwd h layers_ e out p w = (Raise err, w') →
     library_error err = true)
  ∧ (layers_ < 1 ∨ h ≤ 0 ∨ e ≤ 0 →
     ∃ err, raises (__init__ d fwd h layers_ e out p) err w
            ∧ (err = ValueError ∨ err = RuntimeError))
  ∧ (valid_configuration h layers_ e out p →
     ∃ l w', __init__ d fwd h layers_ e out p w = (Ok l, w')).
Proof.
  split_and!.
  3:{ intros Hv. destruct (__init___run d fwd h layers_ e out p w Hv)
        as (l & m & w' & Hrun & _). by exists l, w'. }
  - intros err w' Hrun. pose proof (only_raises___init__ d fwd h layers_ e out p w) as Hr.
    by rewrite Hrun in Hr.
  - intros Hbad. unfold __init__.
    unfold Dropout_init at 1. destruct (_ || _).
    { exists ValueError. split; [|by left]. apply raises_bind_l, raises_raise. }
    destruct (Z.ltb_spec e 0) as [He|He].
    { exists RuntimeError. split; [|by right].
      apply raises_bind_r, returns_ret, raises_bind_l.
      unfold Embedding_init, check_sizes. cbn [forallb].
      destruct (Z.leb_spec 0 e); [lia|]. rewrite andb_false_r.
      apply raises_bind_l, raises_raise. }
    exists ValueError. split; [|by left].
    apply raises_bind_r, returns_ret, raises_bind_r, returns_Embedding_init; [done|].
    intros enc w1 _ _ _ _ _. apply raises_bind_l.
    assert (∀ q, raises (LSTM_init e h layers_ q) ValueError w1) as Hlstm.
    { intros q. unfold LSTM_init. destruct (negb _); [apply raises_raise|].
      destruct (Z.leb_spec e 0); [apply raises_raise|].
      destruct (Z.leb_spec h 0); [apply raises_raise|].
      destruct (Z.leb_spec layers_ 0); [apply raises_raise|lia]. }
    destruct (layers_ =? 1); apply Hlstm.
Qed.

(** C8.  The constructor, on a valid configuration, returns a model whose
    encoder weights were drawn by [uniform_(-0.1, 0.1)], whose decoder bias
    is zero, whose decoder weights were drawn by [uniform_(-0.1, 0.1)] and,
    when [nout] is given, whose projection weights were drawn by
    [uniform_(-s, s)] with [s = sqrt(3 / (in_features + out_features))]; and
    a second construction from the same state of the random generator
    returns a model with the same parameters. *)
Theorem constructor_initial_weights (d : Dictionary.t) (fwd : bool)
    (h layers_ e : Z) (out : option Z) (p : float) (w : World) :
  valid_configuration h layers_ e out p →
  ∃ l m w',
    __init__ d fwd h layers_ e out p w = (Ok l, w')
    ∧ heap w' !! l = Some m
    ∧ initial_weights m
    ∧ (is_Some out ↔ is_Some (proj m))
    ∧ ∀ w2, generator w2 = generator w →
        ∃ l2 m2 w2',
          __init__ d fwd h layers_ e out p w2 = (Ok l2, w2')
          ∧ heap w2' !! l2 = Some m2
          ∧ named_parameters m2 = named_parameters m.
Proof.
  intros Hv.
  destruct (__init___run d fwd h layers_ e out p w Hv)
    as (l & m & w' & Hrun & _ & Hheap & _ & _ & _ & Hc & Hwf & Hinit).
  exists l, m, w'. split; [done|].
  assert (heap w' !! l = Some m) as Hl by (by rewrite Hheap, lookup_insert_eq).
  split; [done|]. split; [done|]. split.
  - pose proof (wf_proj m Hwf) as Hp. rewrite (constructed_nout _ _ _ _ _ _ _ _ _ Hc) in Hp.
    destruct out, (proj m); try done; split; by eauto.
  - intros w2 Hg.
    pose proof (__init___same_seed d fwd h layers_ e out p w2 w Hg) as Hsame.
    rewrite Hrun in Hsame.
    destruct (__init__ d fwd h layers_ e out p w2) as [[l2|e2] w2']; [|done].
    destruct Hsame as (m2 & m' & Hl2 & Hl' & Hnp).
    exists l2, m2, w2'. repeat split; try done. congruence.
Qed.

(** ** The names of the parameters are distinct *)

Lemma layer_name_inj (p1 p2 : string) (k1 k2 : nat) :
  p1 ∈ layer_prefixes → p2 ∈ layer_prefixes →
  p1 +:+ pretty k1 = p2 +:+ pretty k2 → p1 = p2 ∧ k1 = k2.
Proof.
  unfold layer_prefixes. rewrite !elem_of_cons, !elem_of_nil.
  intros [->|[->|[->|[->|[]]]]] [->|[->|[->|[->|[]]]]] Heq;
    cbn [String.append] in Heq; try discriminate Heq;
    (split; [done|]); injection Heq as Heq; by apply (inj pretty).
Qed.

Lemma layer_shapes_names h k i :
  (layer_shapes h k i).*1 = (λ prefix, prefix +:+ pretty k) <$> layer_prefixes.
Proof. done. Qed.

Lemma elem_of_layer_names h (g : nat → nat) ins x :
  x ∈ (mjoin (imap (λ k, layer_shapes h (g k)) ins)).*1 →
  ∃ k prefix, prefix ∈ layer_prefixes ∧ x = prefix +:+ pretty (g k).
Proof.
  revert g. induction ins as [|i ins IH]; intros g; [by intros ?%elem_of_nil|].
  cbn [imap mjoin list_join]. rewrite fmap_app, elem_of_app.
  intros [Hx|Hx].
  - rewrite layer_shapes_names in Hx.
    apply list_elem_of_fmap in Hx as (prefix & -> & Hp). by exists 0%nat, prefix.
  - destruct (IH (g ∘ S) Hx) as (k & prefix & Hp & ->). by exists (S k), prefix.
Qed.

Lemma layer_names_NoDup h (g : nat → nat) ins :
  Inj (=) (=) g → NoDup (mjoin (imap (λ k, layer_shapes h (g k)) ins)).*1.
Proof.
  revert g. induction ins as [|i ins IH]; intros g Hg; [constructor|].
  cbn [imap mjoin list_join]. rewrite fmap_app. apply NoDup_app. split_and!.
  - rewrite layer_shapes_names. apply NoDup_fmap_2_strong.
    + intros p1 p2 Hp1 Hp2 Heq. by destruct (layer_name_inj _ _ _ _ Hp1 Hp2 Heq).
    + apply (bool_decide_unpack _). by vm_compute.
  - intros x Hx Hx'. rewrite layer_shapes_names in Hx.
    apply list_elem_of_fmap in Hx as (p1 & -> & Hp1).
    apply (elem_of_layer_names h (g ∘ S)) in Hx' as (k & p2 & Hp2 & Heq).
    destruct (layer_name_inj _ _ _ _ Hp1 Hp2 Heq) as [_ Hk]. by apply Hg in Hk.
  - apply (IH (g ∘ S)). intros k1 k2 Hk. apply Hg in Hk. lia.
Qed.

(** Case analysis on the membership of a name in an explicit list. *)
Ltac names_cases H :=
  repeat (apply elem_of_cons in H as [H|H]);
  try (by apply elem_of_nil in H);
  try discriminate H; try subst.

Lemma architecture_NoDup n h layers_ e out :
  NoDup (architecture n h layers_ e out).*1.
Proof.
  unfold architecture. cbn [app]. rewrite fmap_cons. cbn [fst].
  assert (∀ x,
    x ∈ (mjoin (imap (layer_shapes (Z.to_nat h))
           (layer_input_sizes (Z.to_nat e) (Z.to_nat h) (Z.to_nat layers_)))).*1 →
    x ∈ ["encoder.weight"; "proj.weight"; "proj.bias"; "decoder.weight";
         "decoder.bias"] → False) as Hrnn.
  { intros x (k & prefix & Hp & ->)%(elem_of_layer_names _ id) Hx.
    unfold layer_prefixes in Hp.
    repeat (apply elem_of_cons in Hp as [->|Hp]);
      try (by apply elem_of_nil in Hp);
      repeat (apply elem_of_cons in Hx as [Hx|Hx]);
      try (by apply elem_of_nil in Hx);
      cbn [String.append] in Hx; discriminate Hx. }
  apply NoDup_cons. split.
  - rewrite !fmap_app, !elem_of_app. intros [Hx|[Hx|Hx]].
    + eapply Hrnn; [exact Hx|]. apply list_elem_of_here.
    + destruct out; cbn in Hx; names_cases Hx.
    + cbn in Hx. names_cases Hx.
  - rewrite fmap_app. apply NoDup_app. split_and!.
    + apply (layer_names_NoDup _ id). apply _.
    + intros x Hx Hx'. eapply Hrnn; [exact Hx|].
      rewrite fmap_app, elem_of_app in Hx'.
      destruct Hx' as [Hx'|Hx']; [destruct out|]; cbn in Hx'; names_cases Hx';
        apply (bool_decide_unpack _); by vm_compute.
    + destruct out; cbn; apply (bool_decide_unpack _); by vm_compute.
Qed.

Lemma named_parameters_names (l : list (string * Tensor)) :
  (prod_map id shape <$> l).*1 = l.*1.
Proof.
  rewrite <- list_fmap_compose. apply list_fmap_ext. by intros ? [].
Qed.

Lemma well_formed_NoDup m : well_formed m → NoDup (named_parameters m).*1.
Proof.
  intros Hwf. rewrite <- named_parameters_names, (wf_shapes m Hwf).
  apply architecture_NoDup.
Qed.

(** ** State dicts *)

Lemma state_dict_of_matches m :
  NoDup (named_parameters m).*1 →
  state_dict_matches (state_dict_of m) (prod_map id shape <$> named_parameters m).
Proof.
  intros Hnd. unfold state_dict_matches, state_dict_of. split.
  - apply Forall_fmap, Forall_forall. intros [name t] Hin. cbn [fst snd prod_map id].
    exists (detach t). split; [|done].
    apply elem_of_list_to_map_1.
    + rewrite <- list_fmap_compose.
      erewrite list_fmap_ext; [exact Hnd|]. by intros ? [].
    + apply list_elem_of_fmap. by exists (name, t).
  - rewrite dom_list_to_map_L, named_parameters_names.
    rewrite <- list_fmap_compose.
    erewrite (list_fmap_ext (fst ∘ prod_map id detach) fst); [done|]. by intros ? [].
Qed.

Lemma load_state_dict_run self m sd w :
  heap w !! self = Some m →
  state_dict_matches sd (prod_map id shape <$> named_parameters m) →
  load_state_dict self sd w
  = (Ok tt,
     set_heap
       (<[self := map_parameters
                    (λ name param, from_option (copy_ param) param (sd !! name)) m]>
          (heap w)) w).
Proof.
  intros Hself [Hentries Hdom]. unfold load_state_dict, mbind, M_bind, read.
  rewrite Hself.
  assert (forallb
            (λ '(name, param),
               match sd !! name with
               | Some t => bool_decide (shape t = shape param)
               | None => false
               end) (named_parameters m) = true) as ->.
  { apply forallb_forall. intros [name param] Hin%list_elem_of_In.
    rewrite Forall_fmap, Forall_forall in Hentries.
    destruct (Hentries _ Hin) as (t & Ht & Hs). cbn in Ht, Hs. rewrite Ht.
    by apply bool_decide_eq_true. }
  rewrite named_parameters_names in Hdom.
  by rewrite bool_decide_true.
Qed.

Lemma layers_map_parameters (f : string → Tensor → Tensor) (g : nat → nat) ls :
  mjoin (imap (λ k, layer_named_parameters (g k))
           (imap (λ k l,
              LSTM.mkLayer
                (f ("rnn.weight_ih_l" +:+ pretty (g k)) (LSTM.weight_ih l))
                (f ("rnn.weight_hh_l" +:+ pretty (g k)) (LSTM.weight_hh l))
                (f ("rnn.bias_ih_l" +:+ pretty (g k)) (LSTM.bias_ih l))
                (f ("rnn.bias_hh_l" +:+ pretty (g k)) (LSTM.bias_hh l))) ls))
  = (λ param, (param.1, f param.1 param.2))
      <$> mjoin (imap (λ k, layer_named_parameters (g k)) ls).
Proof.
  revert g. induction ls as [|l ls IH]; intros g; [done|].
  cbn [imap mjoin list_join]. rewrite fmap_app. f_equal. apply (IH (g ∘ S)).
Qed.

Lemma named_parameters_map_parameters f m :
  named_parameters (map_parameters f m)
  = (λ param, (param.1, f param.1 param.2)) <$> named_parameters m.
Proof.
  unfold named_parameters, map_parameters.
  cbn [dictionary is_forward_lm dropout hidden_size embedding_size nlayers
       drop encoder rnn hidden nout proj decoder training device
       Embedding.weight with_weight LSTM.layers LSTM_with_layers].
  rewrite !fmap_app. f_equal. f_equal; [apply (layers_map_parameters f id)|].
  f_equal. by destruct (proj m).
Qed.

Lemma holds_after_load sd m :
  state_dict_matches sd (prod_map id shape <$> named_parameters m) →
  holds_state_dict sd
    (map_parameters (λ name param, from_option (copy_ param) param (sd !! name)) m).
Proof.
  intros [Hentries _]. unfold holds_state_dict.
  rewrite named_parameters_map_parameters. apply Forall_fmap, Forall_forall.
  intros [name param] Hin. rewrite Forall_fmap, Forall_forall in Hentries.
  destruct (Hentries _ Hin) as (t & Ht & Hs). cbn in *. exists t.
  rewrite Ht. cbn. split; [done|]. split; [done|].
  unfold float_entries. by destruct (data t).
Qed.

(** Loading keeps a model well formed. *)
Lemma well_formed_map_parameters f m :
  well_formed m →
  (∀ name param, shape (f name param) = shape param) →
  (∀ name param, is_float param → is_float (f name param)) →
  well_formed (map_parameters f m).
Proof.
  intros [Hc He Hr Hp Hd Hs Hf] Hshape Hfloat. split.
  - done.
  - done.
  - done.
  - cbn. destruct (nout m), (proj m); done.
  - done.
  - rewrite named_parameters_map_parameters, <- list_fmap_compose.
    cbn [dictionary hidden_size nlayers embedding_size nout map_parameters].
    rewrite <- Hs. apply list_fmap_ext. intros ? [name param]. cbn.
    by rewrite Hshape.
  - rewrite named_parameters_map_parameters. apply Forall_fmap.
    eapply Forall_impl; [exact Hf|]. intros [name param]. cbn. apply Hfloat.
Qed.

Lemma well_formed_mode m tr dev :
  well_formed m →
  well_formed
    (mkLanguageModel (dictionary m) (is_forward_lm m) (dropout m)
       (hidden_size m) (embedding_size m) (nlayers m) (drop m) (encoder m)
       (rnn m) (hidden m) (nout m) (proj m) (decoder m) tr dev).
Proof. intros [Hc He Hr Hp Hd Hs Hf]. by split. Qed.

(** ** Loading *)

Lemma forallb_false_elem {A} (f : A → bool) (xs : list A) x :
  x ∈ xs → f x = false → forallb f xs = false.
Proof.
  intros Hx Hf. destruct (forallb f xs) eqn:Hall; [|done].
  rewrite forallb_forall in Hall. apply list_elem_of_In, Hall in Hx. congruence.
Qed.

Lemma torch_load_run file state w :
  files w !! file = Some state → weights_only w = false →
  torch_load file w = (Ok state, w).
Proof. unfold torch_load. by intros -> ->. Qed.

(** With its default, [torch.load] refuses a record that holds an object. *)
Lemma torch_load_refuses file state key v w :
  files w !! file = Some state → weights_only w = true →
  state !! key = Some v → weights_only_safe v = false →
  torch_load file w = (Raise UnpicklingError, w).
Proof.
  intros Hfile Hw Hkey Hv. unfold torch_load. rewrite Hfile, Hw.
  rewrite (forallb_false_elem _ _ v); [done| |done].
  apply list_elem_of_fmap. exists (key, v). split; [done|].
  by apply elem_of_map_to_list.
Qed.

(** [load_checkpoint] reconstructs the model as [load_language_model] does
    and fails exactly when it does; the four optional fields are read with
    a default. *)
Lemma load_checkpoint_as_load_language_model file state w :
  files w !! file = Some state →
  load_checkpoint file w
  = match load_language_model file w with
    | (Ok l, w') =>
        (Ok {[ "model" := VModel l;
               "epoch" := get_or_none state "epoch";
               "split" := get_or_none state "split";
               "loss" := get_or_none state "loss";
               "optimizer_state_dict" := get_or_none state "optimizer_state_dict" ]},
         w')
    | (Raise e, w') => (Raise e, w')
    end.
Proof.
  intros Hfile. unfold load_checkpoint, load_language_model, mbind, M_bind.
  unfold torch_load. rewrite Hfile. destruct (_ && _); [done|].
  repeat match goal with
         | |- context [match ?c ?w0 with (_, _) => _ end] =>
             destruct (c w0) as [[?|?] ?]; try done
         end.
Qed.

Lemma returns_getitem (d : gmap string Value) key v (Q : Value → World → Prop) w :
  d !! key = Some v → Q v w → returns (getitem d key) Q w.
Proof. unfold getitem. by intros ->. Qed.

Lemma returns_load_state_dict self m sd (Q : unit → World → Prop) w :
  heap w !! self = Some m →
  state_dict_matches sd (prod_map id shape <$> named_parameters m) →
  Q tt (set_heap
          (<[self := map_parameters
                       (λ name param, from_option (copy_ param) param (sd !! name)) m]>
             (heap w)) w) →
  returns (load_state_dict self sd) Q w.
Proof.
  intros Hself Hm HQ. unfold returns. by rewrite (load_state_dict_run _ m).
Qed.

(** A record with a valid configuration and a state dict for its
    architecture loads: the model is new on the heap, well formed, holds the
    entries of the state dict, is in inference mode and on the device of the
    process. *)
Lemma returns_load_language_model file state d fwd h layers_ e out p sd
    (Q : loc → World → Prop) w :
  torch_load file w = (Ok state, w) →
  configuration_record state d fwd h layers_ e out p →
  state !! "state_dict" = Some (VStateDict sd) →
  valid_configuration h layers_ e out p →
  state_dict_matches sd (architecture (Dictionary.len d) h layers_ e out) →
  (∀ l m w',
     heap w !! l = None → heap w' = <[l := m]> (heap w) → files w' = files w →
     well_formed m → holds_state_dict sd m →
     dictionary m = d ∧ is_forward_lm m = fwd ∧ hidden_size m = h
     ∧ nlayers m = layers_ ∧ embedding_size m = e ∧ nout m = out
     ∧ dropout m = p →
     training m = false → device m = flair_device w →
     Q l w') →
  returns (load_language_model file) Q w.
Proof.
  intros Hfile [Hd Hfwd Hh Hl He Hout Hp] Hsd Hv Hmatch HQ.
  unfold load_language_model.
  apply returns_bind. eapply returns_intro; [exact Hfile|].
  do 7 (apply returns_bind; eapply returns_getitem; [done|]).
  apply returns_bind. unfold LanguageModel_call.
  do 5 apply returns_bind, returns_ret.
  apply returns_bind.
  apply (returns_mono _ (λ o w', o = out ∧ w' = w));
    [by destruct out|intros ? ? [-> ->]].
  apply returns_bind, returns_ret.
  apply returns___init__; [done|].
  intros l m0 w1 Hfresh Hheap1 Hfiles1 Hgrad1 Hdev1 Hc Hwf0 _.
  destruct Hc as [Hcd Hcf Hch Hcl Hce Hco Hcp _ _ _].
  apply returns_bind; eapply returns_getitem; [done|].
  apply returns_bind, returns_ret.
  assert (state_dict_matches sd (prod_map id shape <$> named_parameters m0)) as Hm0.
  { rewrite (wf_shapes m0 Hwf0). by rewrite Hcd, Hch, Hcl, Hce, Hco. }
  apply returns_bind, (returns_load_state_dict _ m0);
    [by rewrite Hheap1, lookup_insert_eq|done|].
  set (m1 := map_parameters _ m0).
  assert (well_formed m1) as Hwf1.
  { apply well_formed_map_parameters; [done| |].
    - intros name param. by destruct (sd !! name).
    - intros name param Hf. destruct (sd !! name) as [t|]; [|done].
      cbn. unfold is_float, copy_; cbn. destruct (data t); by eexists. }
  apply returns_bind. unfold eval.
  apply returns_bind, (returns_read _ m1); [cbn; by rewrite lookup_insert_eq|].
  apply returns_write.
  apply returns_bind, returns_get_flair_device.
  apply returns_bind. unfold to.
  apply returns_bind, (returns_read _ _ _ _ (lookup_insert_eq _ _ _)).
  apply returns_write, returns_ret.
  cbn [heap files generator grad_enabled flair_device set_heap
       dictionary is_forward_lm dropout hidden_size embedding_size nlayers
       drop encoder rnn hidden nout proj decoder training device].
  eapply HQ; cbn [heap files generator grad_enabled flair_device set_heap
       dictionary is_forward_lm dropout hidden_size embedding_size nlayers
       drop encoder rnn hidden nout proj decoder training device].
  - done.
  - by rewrite !insert_insert_eq, Hheap1, insert_insert_eq.
  - done.
  - by apply well_formed_mode.
  - by apply holds_after_load.
  - done.
  - done.
  - done.
Qed.

Lemma only_raises_getitem (d : gmap string Value) key :
  only_raises (getitem d key) (λ e, library_error e = true).
Proof. intros w. unfold getitem. by destruct (d !! key). Qed.

Lemma only_raises_load_language_model file :
  only_raises (load_language_model file) (λ e, library_error e = true).
Proof.
  unfold load_language_model.
  apply only_raises_bind.
  { intros w. unfold torch_load. destruct (files w !! file); [|done].
    by destruct (_ && _). }
  intros state.
  apply only_raises_bind; [apply only_raises_getitem|intros v1].
  apply only_raises_bind; [apply only_raises_getitem|intros v2].
  apply only_raises_bind; [apply only_raises_getitem|intros v3].
  apply only_raises_bind; [apply only_raises_getitem|intros v4].
  apply only_raises_bind; [apply only_raises_getitem|intros v5].
  apply only_raises_bind; [apply only_raises_getitem|intros v6].
  apply only_raises_bind; [apply only_raises_getitem|intros v7].
  apply only_raises_bind.
  { unfold LanguageModel_call.
    apply only_raises_bind; [intros w; by destruct v1|intros ?].
    apply only_raises_bind; [intros w; by destruct v2|intros ?].
    apply only_raises_bind; [intros w; by destruct v3|intros ?].
    apply only_raises_bind; [intros w; by destruct v4|intros ?].
    apply only_raises_bind; [intros w; by destruct v5|intros ?].
    apply only_raises_bind; [intros w; by destruct v6|intros ?].
    apply only_raises_bind; [intros w; by destruct v7|intros ?].
    apply only_raises___init__. }
  intros model.
  apply only_raises_bind; [apply only_raises_getitem|intros v].
  apply only_raises_bind; [intros w; by destruct v|intros sd].
  apply only_raises_bind.
  { intros w. unfold load_state_dict, mbind, M_bind, read.
    destruct (heap w !! model); [|done]. by destruct (_ && _). }
  intros _. apply only_raises_bind.
  { unfold eval. apply only_raises_bind; [by apply only_raises_read|]. by intros ? ?. }
  intros _. apply only_raises_bind; [by intros w|]. intros dev.
  apply only_raises_bind; [|intros; apply only_raises_ret].
  unfold to. apply only_raises_bind; [by apply only_raises_read|]. by intros ? ?.
Qed.

Lemma raises_getitem_or {B} (state : gmap string Value) key (f : Value → M B)
    (P : string → Prop) w :
  (state !! key = None → P key) →
  (∀ v, state !! key = Some v → ∃ key', P key' ∧ raises (f v) (KeyError key') w) →
  ∃ key', P key' ∧ raises (getitem state key ≫= f) (KeyError key') w.
Proof.
  intros Hnone Hsome. destruct (state !! key) as [v|] eqn:Hkey.
  - destruct (Hsome v eq_refl) as (key' & HP & Hr). exists key'. split; [done|].
    apply raises_bind_r. by eapply returns_getitem.
  - exists key. split; [by apply Hnone|].
    apply raises_bind_l. unfold getitem. rewrite Hkey. apply raises_raise.
Qed.

(** C6, as the source has it.  Where [torch.load] returns the record (a
    record that holds a dictionary it returns only in a process that has
    switched its weights-only mode off), [load_language_model] never raises
    CorruptRecordError: what it raises is an exception of the runtime or of
    the tensor library.  On a record that
    lacks a configuration field it raises the KeyError of a field that is
    missing; on a record with a valid configuration that lacks [state_dict]
    it raises [KeyError state_dict], after the model has been constructed.
    On a record with a valid configuration and a state dict for its
    architecture it returns a model that is new on the heap, holds the
    entries of the state dict, is in inference mode and is on the device of
    the process. *)
Theorem load_language_model_spec (file : string) (state : gmap string Value)
    (w : World) :
  torch_load file w = (Ok state, w) →
  (∀ err w', load_language_model file w = (Raise err, w') →
     library_error err = true)
  ∧ (∀ key, key ∈ configuration_fields → state !! key = None →
       ∃ key', (key' ∈ configuration_fields ∧ state !! key' = None)
               ∧ raises (load_language_model file) (KeyError key') w)
  ∧ (∀ d fwd h layers_ e out p,
       configuration_record state d fwd h layers_ e out p →
       valid_configuration h layers_ e out p →
       state !! "state_dict" = None →
       raises (load_language_model file) (KeyError "state_dict") w)
  ∧ (∀ d fwd h layers_ e out p sd,
       configuration_record state d fwd h layers_ e out p →
       state !! "state_dict" = Some (VStateDict sd) →
       valid_configuration h layers_ e out p →
       state_dict_matches sd (architecture (Dictionary.len d) h layers_ e out) →
       ∃ l m w',
         load_language_model file w = (Ok l, w')
         ∧ heap w !! l = None ∧ heap w' !! l = Some m
         ∧ well_formed m ∧ holds_state_dict sd m
         ∧ training m = false ∧ device m = flair_device w).
Proof.
  intros Hfile. split_and!.
  - intros err w' Hrun. pose proof (only_raises_load_language_model file w) as Hr.
    by rewrite Hrun in Hr.
  - intros key Hkey Hnone. unfold load_language_model.
    cut (∃ key', (key' ∈ configuration_fields ∧ state !! key' = None)
           ∧ raises
               (dictionary ← getitem state "dictionary";
                is_forward_lm ← getitem state "is_forward_lm";
                hidden_size ← getitem state "hidden_size";
                nlayers ← getitem state "nlayers";
                embedding_size ← getitem state "embedding_size";
                nout ← getitem state "nout";
                dropout ← getitem state "dropout";
                model ← LanguageModel_call dictionary is_forward_lm hidden_size
                          nlayers embedding_size nout dropout;
                sd ← getitem state "state_dict";
                sd ← as_state_dict sd;
                load_state_dict model sd;;
                eval model;;
                d ← get_flair_device;
                to model d;;
                mret model) (KeyError key') w).
    { intros (key' & HP & Hr). exists key'. split; [done|].
      apply raises_bind_r. eapply returns_intro; [exact Hfile|done]. }
    do 7 (apply raises_getitem_or;
          [intros ?; split; [apply (bool_decide_unpack _); by vm_compute|done]
          |intros ? ?]).
    exfalso. unfold configuration_fields in Hkey. names_cases Hkey; congruence.
  - intros d fwd h layers_ e out p [Hd Hfwd Hh Hl He Hout Hp] Hv Hnone.
    unfold load_language_model.
    apply raises_bind_r. eapply returns_intro; [exact Hfile|].
    do 7 (apply raises_bind_r; eapply returns_getitem; [done|]).
    apply raises_bind_r. unfold LanguageModel_call.
    do 5 apply returns_bind, returns_ret.
    apply returns_bind.
    apply (returns_mono _ (λ o w', o = out ∧ w' = w));
      [by destruct out|intros ? ? [-> ->]].
    apply returns_bind, returns_ret.
    apply returns___init__; [done|]. intros l m0 w1 _ _ _ _ _ _ _ _.
    apply raises_bind_l. unfold getitem. rewrite Hnone. apply raises_raise.
  - intros d fwd h layers_ e out p sd Hrec Hsd Hv Hmatch.
    cut (returns (load_language_model file)
           (λ l w', ∃ m, heap w !! l = None ∧ heap w' !! l = Some m
              ∧ well_formed m ∧ holds_state_dict sd m
              ∧ training m = false ∧ device m = flair_device w) w).
    { intros (l & w' & Hrun & m & ?)%returns_inv. by exists l, m, w'. }
    eapply returns_load_language_model; [done..|].
    intros l m w' Hfresh Hheap _ Hwf Hholds _ Htr Hdev. exists m.
    by rewrite Hheap, lookup_insert_eq.
Qed.

(** ** Checkpoints *)

(** A record with the configuration and the state dict of a well-formed
    model loads, into a model that holds the state dict. *)
Lemma load_saved_record file state m w :
  torch_load file w = (Ok state, w) →
  well_formed m →
  configuration_record state (dictionary m) (is_forward_lm m) (hidden_size m)
    (nlayers m) (embedding_size m) (nout m) (dropout m) →
  state !! "state_dict" = Some (VStateDict (state_dict_of m)) →
  ∃ l m' w',
    load_language_model file w = (Ok l, w')
    ∧ heap w' !! l = Some m' ∧ holds_state_dict (state_dict_of m) m'.
Proof.
  intros Hfile Hwf Hrec Hsd.
  cut (returns (load_language_model file)
         (λ l w', ∃ m', heap w' !! l = Some m'
                        ∧ holds_state_dict (state_dict_of m) m') w).
  { intros (l & w' & Hrun & m' & ?)%returns_inv. by exists l, m', w'. }
  eapply returns_load_language_model; [done|exact Hrec|done| | |].
  - apply (wf_configuration m Hwf).
  - rewrite <- (wf_shapes m Hwf). by apply state_dict_of_matches, well_formed_NoDup.
  - intros l m' w' _ Hheap _ _ Hholds _ _ _. exists m'.
    by rewrite Hheap, lookup_insert_eq.
Qed.

(** The loaders refuse, with the default of [torch.load], the records that
    [save] and [save_checkpoint] write: they hold the dictionary. *)
Lemma load_checkpoint_refuses file state d w :
  files w !! file = Some state → weights_only w = true →
  state !! "dictionary" = Some (VDictionary d) →
  load_language_model file w = (Raise UnpicklingError, w)
  ∧ load_checkpoint file w = (Raise UnpicklingError, w).
Proof.
  intros Hfile Hw Hd.
  pose proof (torch_load_refuses file state "dictionary" _ w Hfile Hw Hd eq_refl)
    as Hload.
  unfold load_language_model, load_checkpoint, mbind, M_bind. by rewrite Hload.
Qed.

(** C7, where the source falls short of it.  [load_checkpoint] calls
    [torch.load] without [weights_only], and with the default of the library
    that call refuses the record that [save_checkpoint] has written, which
    holds the dictionary: the round trip ends in an UnpicklingError.  In a
    process that has switched weights-only loading off, [load_checkpoint]
    after [save_checkpoint] returns the epoch, split and loss (and the
    optimizer state) that were saved, next to a model that holds the saved
    weights, and a record written by [save] loads with the none marker in
    the four optional fields.  Wherever a record lacks an optional field,
    [load_checkpoint] does what [load_language_model] does, and returns the
    none marker for that field if the model can be reconstructed. *)
Theorem checkpoint_round_trip (self : loc) (m : LanguageModel) (file : string)
    (optimizer : Optimizer) (epoch split loss : Value) (w : World) :
  heap w !! self = Some m →
  well_formed m →
  (weights_only w = true →
   ∃ w1,
     save_checkpoint self file optimizer epoch split loss w = (Ok tt, w1)
     ∧ load_checkpoint file w1 = (Raise UnpicklingError, w1))
  ∧ (weights_only w = false →
     ∃ w1 r w2,
       save_checkpoint self file optimizer epoch split loss w = (Ok tt, w1)
       ∧ load_checkpoint file w1 = (Ok r, w2)
       ∧ r !! "epoch" = Some epoch ∧ r !! "split" = Some split
       ∧ r !! "loss" = Some loss
       ∧ r !! "optimizer_state_dict" = Some (optimizer_state optimizer)
       ∧ ∃ l m', r !! "model" = Some (VModel l) ∧ heap w2 !! l = Some m'
                 ∧ holds_state_dict (state_dict_of m) m')
  ∧ (weights_only w = false →
     ∃ w1 r w2,
       save self file w = (Ok tt, w1)
       ∧ load_checkpoint file w1 = (Ok r, w2)
       ∧ Forall (λ key, r !! key = Some VNone) optional_fields)
  ∧ (∀ file' state w0 key,
       files w0 !! file' = Some state →
       key ∈ optional_fields → state !! key = None →
       match load_language_model file' w0 with
       | (Ok l, w') =>
           ∃ r, load_checkpoint file' w0 = (Ok r, w')
                ∧ r !! "model" = Some (VModel l) ∧ r !! key = Some VNone
       | (Raise e, w') => load_checkpoint file' w0 = (Raise e, w')
       end).
Proof.
  intros Hself Hwf. split_and!.
  - intros Hw.
    rewrite (save_checkpoint_run self m file optimizer epoch split loss w Hself).
    set (record := checkpoint_record m optimizer epoch split loss).
    set (w1 := set_files _ w).
    assert (files w1 !! file = Some record) as Hfile by apply lookup_insert_eq.
    exists w1. split; [done|].
    by apply (load_checkpoint_refuses file record (dictionary m) w1 Hfile Hw).
  - intros Hw.
    rewrite (save_checkpoint_run self m file optimizer epoch split loss w Hself).
    set (record := checkpoint_record m optimizer epoch split loss).
    set (w1 := set_files _ w).
    assert (files w1 !! file = Some record) as Hfile by apply lookup_insert_eq.
    destruct (load_saved_record file record m w1 (torch_load_run _ _ _ Hfile Hw) Hwf)
      as (l & m' & w2 & Hload & Hl & Hholds); [by split|done|].
    eexists w1, _, w2. split; [done|].
    rewrite (load_checkpoint_as_load_language_model _ _ _ Hfile), Hload.
    split; [done|]. repeat (split; [done|]). by exists l, m'.
  - intros Hw. rewrite (save_run self m file w Hself).
    set (record := model_record m). set (w1 := set_files _ w).
    assert (files w1 !! file = Some record) as Hfile by apply lookup_insert_eq.
    destruct (load_saved_record file record m w1 (torch_load_run _ _ _ Hfile Hw) Hwf)
      as (l & m' & w2 & Hload & Hl & Hholds); [by split|done|].
    eexists w1, _, w2. split; [done|].
    rewrite (load_checkpoint_as_load_language_model _ _ _ Hfile), Hload.
    split; [done|]. by repeat constructor.
  - intros file' state w0 key Hfile Hkey Hnone.
    rewrite (load_checkpoint_as_load_language_model _ _ _ Hfile).
    destruct (load_language_model file' w0) as [[l|e] w']; [|done].
    eexists. split; [done|]. split; [done|].
    unfold optional_fields in Hkey. unfold get_or_none.
    names_cases Hkey; by rewrite Hnone.
Qed.

(** ** Methods that work on tensors only *)

Lemma with_store_same w : with_store (heap w) (files w) w = w.
Proof. by destruct w. Qed.

Lemma storeless_frame {A} (c : M A) w : storeless c → frame w (c w).2.
Proof.
  intros Hc. destruct (Hc (heap w) (files w) w) as (Hrun & Hgrad & Hdev).
  rewrite with_store_same in Hrun.
  destruct (c w) as [r w'] eqn:Hcw. cbn in *.
  injection Hrun as Hw'. rewrite Hw'. done.
Qed.

Lemma storeless_ret {A} (a : A) : storeless (mret a).
Proof. done. Qed.

Lemma storeless_raise {A} e : storeless (@raise _ A e).
Proof. done. Qed.

Lemma storeless_sample {A} (k : Generator → A * Generator) : storeless (sample k).
Proof.
  intros hp fs w. unfold sample. cbn [generator with_store].
  by destruct (k (generator w)).
Qed.

Lemma storeless_get_grad_enabled : storeless get_grad_enabled.
Proof. done. Qed.

Lemma storeless_get_flair_device : storeless get_flair_device.
Proof. done. Qed.

Lemma storeless_bind {A B} (c : M A) (f : A → M B) :
  storeless c → (∀ a, storeless (f a)) → storeless (c ≫= f).
Proof.
  intros Hc Hf hp fs w. unfold mbind, M_bind.
  destruct (Hc hp fs w) as (-> & Hgrad & Hdev).
  destruct (c w) as [[a|e] w1]; cbn [fst snd] in *; [|done].
  destruct (Hf a hp fs w1) as (-> & Hgrad1 & Hdev1).
  split; [done|]. split; congruence.
Qed.

Create HintDb storeless.
#[local] Hint Resolve storeless_ret storeless_raise storeless_sample
  storeless_get_grad_enabled storeless_get_flair_device : storeless.

(** Decompose a method into the operations it is made of. *)
Ltac storeless :=
  repeat first
    [ progress auto with storeless
    | apply storeless_bind; [|intros]
    | match goal with
      | |- storeless (match ?x with _ => _ end) => destruct x
      | |- storeless (if ?b then _ else _) => destruct b
      end ].

Lemma storeless_result_of op inputs s d : storeless (result_of op inputs s d).
Proof. unfold result_of. storeless. Qed.
#[local] Hint Resolve storeless_result_of : storeless.

Lemma storeless_check_sizes sizes : storeless (check_sizes sizes).
Proof. unfold check_sizes. storeless. Qed.
#[local] Hint Resolve storeless_check_sizes : storeless.

Lemma storeless_tensor_new t sizes : storeless (tensor_new t sizes).
Proof. unfold tensor_new. storeless. Qed.

Lemma storeless_size t i : storeless (size t i).
Proof. unfold size. storeless. Qed.

Lemma storeless_view t s : storeless (view t s).
Proof. unfold view. storeless. Qed.

Lemma storeless_squeeze t : storeless (squeeze t).
Proof. unfold squeeze. storeless. Qed.

Lemma storeless_div t x : storeless (div t x).
Proof. unfold div. storeless. Qed.

Lemma storeless_exp t : storeless (exp t).
Proof. unfold exp. storeless. Qed.

Lemma storeless_rand_index s n : storeless (rand_index s n).
Proof. unfold rand_index. storeless. Qed.

Lemma storeless_multinomial t : storeless (multinomial t).
Proof. unfold multinomial. storeless. Qed.

Lemma storeless_select0 t : storeless (select0 t).
Proof. unfold select0. storeless. Qed.

Lemma storeless_fill_tensor_ t v : storeless (fill_tensor_ t v).
Proof. unfold fill_tensor_. storeless. Qed.

Lemma storeless_tensor_index t : storeless (tensor_index t).
Proof. unfold tensor_index. storeless. Qed.

Lemma storeless_list_getitem {A} (xs : list A) k : storeless (list_getitem xs k).
Proof. unfold list_getitem. storeless. Qed.

Lemma storeless_Embedding_forward e x : storeless (Embedding_forward e x).
Proof. unfold Embedding_forward. storeless. Qed.

Lemma storeless_Dropout_forward d tr x : storeless (Dropout_forward d tr x).
Proof. unfold Dropout_forward. storeless. Qed.

Lemma storeless_tensor_item t i : storeless (tensor_item t i).
Proof. unfold tensor_item. storeless. Qed.
#[local] Hint Resolve storeless_tensor_item : storeless.

Lemma storeless_hidden_entry hx i : storeless (hidden_entry hx i).
Proof. unfold hidden_entry. storeless. Qed.

Lemma storeless_check_hidden_states hx : storeless (check_hidden_states hx).
Proof. unfold check_hidden_states. storeless. Qed.
#[local] Hint Resolve storeless_hidden_entry storeless_check_hidden_states
  : storeless.

Lemma storeless_LSTM_forward r tr x hx : storeless (LSTM_forward r tr x hx).
Proof. unfold LSTM_forward, LSTM_run. storeless. Qed.

Lemma storeless_Linear_forward l x : storeless (Linear_forward l x).
Proof. unfold Linear_forward. storeless. Qed.

Lemma storeless_tensor_of_rows rows : storeless (tensor_of_rows rows).
Proof. unfold tensor_of_rows. storeless. Qed.

Lemma storeless_transpose01 t : storeless (transpose01 t).
Proof. unfold transpose01. storeless. Qed.

#[local] Hint Resolve storeless_tensor_new storeless_size storeless_view
  storeless_squeeze storeless_div storeless_exp storeless_rand_index
  storeless_multinomial storeless_select0 storeless_fill_tensor_
  storeless_tensor_index storeless_list_getitem storeless_Embedding_forward
  storeless_Dropout_forward storeless_LSTM_forward storeless_Linear_forward
  storeless_tensor_of_rows storeless_transpose01 : storeless.


(** ** Methods that only read the model *)

Lemma keeps_store_storeless {A} (c : M A) : storeless c → keeps_store c.
Proof. intros Hc w. by apply storeless_frame. Qed.

Lemma keeps_store_bind {A B} (c : M A) (f : A → M B) :
  keeps_store c → (∀ a, keeps_store (f a)) → keeps_store (c ≫= f).
Proof.
  intros Hc Hf w. unfold mbind, M_bind. specialize (Hc w).
  destruct (c w) as [[a|e] w1]; [|done].
  eapply frame_trans; [exact Hc|apply Hf].
Qed.

Lemma keeps_store_read_bind {B} self (body : LanguageModel → M B) :
  (∀ m, keeps_store (body m)) → keeps_store (read self ≫= body).
Proof.
  intros Hbody. apply keeps_store_bind; [|done].
  intros w. unfold read. destruct (heap w !! self); apply frame_refl.
Qed.

Lemma keeps_store_for_range {S} n (body : S → M S) s :
  (∀ s, keeps_store (body s)) → keeps_store (for_range n body s).
Proof.
  intros Hbody. revert s. induction n as [|n IH]; intros s; cbn [for_range].
  - intros w. apply frame_refl.
  - by apply keeps_store_bind.
Qed.

Lemma keeps_store_no_grad {A} (body : M A) :
  keeps_store body → keeps_store (no_grad body).
Proof.
  intros Hbody w. unfold no_grad. specialize (Hbody (set_grad_enabled false w)).
  destruct (body _) as [r w1]. by destruct Hbody as (?&?&?&?).
Qed.

Lemma ignores_hidden_storeless {A} (c : M A) : storeless c → ignores_hidden c.
Proof.
  intros Hc w. destruct (storeless_frame c w Hc) as (Hheap & Hfiles & _).
  destruct (Hc (without_hidden <$> heap w) (files w) w) as (Hrun & _).
  unfold erase_hidden, set_heap. unfold with_store in Hrun.
  rewrite Hrun, Hheap, Hfiles. done.
Qed.

Lemma ignores_hidden_bind {A B} (c : M A) (f : A → M B) :
  ignores_hidden c → (∀ a, ignores_hidden (f a)) → ignores_hidden (c ≫= f).
Proof.
  intros Hc Hf w. unfold mbind, M_bind. rewrite (Hc w).
  destruct (c w) as [[a|e] w1]; cbn [fst snd]; [apply Hf|done].
Qed.

Lemma ignores_hidden_read_bind {B} self (body : LanguageModel → M B) :
  (∀ m, body (without_hidden m) = body m) →
  (∀ m, ignores_hidden (body m)) →
  ignores_hidden (read self ≫= body).
Proof.
  intros Hsame Hbody w. unfold mbind, M_bind, read.
  cbn [heap erase_hidden set_heap]. rewrite lookup_fmap.
  destruct (heap w !! self) as [m|]; cbn [fmap option_fmap option_map fst snd];
    [|done].
  rewrite Hsame. apply Hbody.
Qed.

Lemma ignores_hidden_for_range {S} n (body : S → M S) s :
  (∀ s, ignores_hidden (body s)) → ignores_hidden (for_range n body s).
Proof.
  intros Hbody. revert s. induction n as [|n IH]; intros s; cbn [for_range].
  - by intros w.
  - by apply ignores_hidden_bind.
Qed.

Lemma ignores_hidden_no_grad {A} (body : M A) :
  ignores_hidden body → ignores_hidden (no_grad body).
Proof.
  intros Hbody w. unfold no_grad.
  change (set_grad_enabled false (erase_hidden w))
    with (erase_hidden (set_grad_enabled false w)).
  rewrite Hbody. by destruct (body _) as [r w1].
Qed.

Lemma reads_self_keeps_store {A} self (c : M A) : reads_self self c → keeps_store c.
Proof.
  intros (body & -> & Hbody & _). apply keeps_store_read_bind.
  intros m. by apply keeps_store_storeless.
Qed.

Lemma reads_self_ignores_hidden {A} self (c : M A) :
  reads_self self c → ignores_hidden c.
Proof.
  intros (body & -> & Hbody & Hsame). apply ignores_hidden_read_bind; [done|].
  intros m. by apply ignores_hidden_storeless.
Qed.

Lemma reads_self_forward self input hidden :
  reads_self self (forward self input hidden).
Proof.
  eexists. split; [reflexivity|]. split; [intros m; storeless|done].
Qed.

Lemma reads_self_init_hidden self bsz : reads_self self (init_hidden self bsz).
Proof.
  eexists. split; [reflexivity|]. split; [intros m; storeless|done].
Qed.

Lemma keeps_store_generate_text self n : keeps_store (generate_text self n).
Proof.
  unfold generate_text. apply keeps_store_no_grad, keeps_store_read_bind. intros m.
  apply keeps_store_bind; [apply (reads_self_keeps_store self), reads_self_init_hidden|].
  intros hidden. apply keeps_store_bind; [apply keeps_store_storeless; storeless|].
  intros input. apply keeps_store_bind; [|intros [[? ?] ?]; by intros w].
  apply keeps_store_for_range. intros [[chars input'] hidden']. unfold generate_step.
  apply keeps_store_bind; [apply (reads_self_keeps_store self), reads_self_forward|].
  intros [[prediction rnn_output] hidden'']. apply keeps_store_storeless. storeless.
Qed.

Lemma ignores_hidden_generate_text self n : ignores_hidden (generate_text self n).
Proof.
  unfold generate_text. apply ignores_hidden_no_grad, ignores_hidden_read_bind; [done|].
  intros m.
  apply ignores_hidden_bind;
    [apply (reads_self_ignores_hidden self), reads_self_init_hidden|].
  intros hidden. apply ignores_hidden_bind; [apply ignores_hidden_storeless; storeless|].
  intros input. apply ignores_hidden_bind; [|intros [[? ?] ?]; by intros w].
  apply ignores_hidden_for_range. intros [[chars input'] hidden']. unfold generate_step.
  apply ignores_hidden_bind;
    [apply (reads_self_ignores_hidden self), reads_self_forward|].
  intros [[prediction rnn_output] hidden'']. apply ignores_hidden_storeless. storeless.
Qed.

Lemma keeps_store_get_representation lookup self strings detach :
  keeps_store (get_representation lookup self strings detach).
Proof.
  unfold get_representation. apply keeps_store_read_bind. intros m.
  apply keeps_store_bind; [apply keeps_store_storeless; storeless|]. intros t.
  apply keeps_store_bind; [apply keeps_store_storeless; storeless|]. intros batch.
  apply keeps_store_bind; [apply (reads_self_keeps_store self), reads_self_init_hidden|].
  intros hidden.
  apply keeps_store_bind; [apply (reads_self_keeps_store self), reads_self_forward|].
  intros [[prediction rnn_output] hidden']. by intros w.
Qed.

Lemma ignores_hidden_get_representation lookup self strings detach :
  ignores_hidden (get_representation lookup self strings detach).
Proof.
  unfold get_representation. apply ignores_hidden_read_bind; [done|]. intros m.
  apply ignores_hidden_bind; [apply ignores_hidden_storeless; storeless|]. intros t.
  apply ignores_hidden_bind; [apply ignores_hidden_storeless; storeless|]. intros batch.
  apply ignores_hidden_bind;
    [apply (reads_self_ignores_hidden self), reads_self_init_hidden|].
  intros hidden.
  apply ignores_hidden_bind;
    [apply (reads_self_ignores_hidden self), reads_self_forward|].
  intros [[prediction rnn_output] hidden']. by intros w.
Qed.

Lemma ignores_hidden_save self file : ignores_hidden (save self file).
Proof.
  unfold save. apply ignores_hidden_read_bind; [done|]. intros m.
  apply ignores_hidden_bind; [|intros sd; by intros w].
  unfold state_dict. apply ignores_hidden_read_bind; [done|]. by intros m' w.
Qed.

Lemma ignores_hidden_result {A} (c : M A) w w' :
  ignores_hidden c → erase_hidden w' = erase_hidden w → (c w').1 = (c w).1.
Proof.
  intros Hc Hw. pose proof (Hc w) as H1. pose proof (Hc w') as H2.
  rewrite Hw, H1 in H2. by injection H2.
Qed.

Lemma set_hidden_run self m h w :
  heap w !! self = Some m →
  set_hidden self h w
  = (Ok tt,
     set_heap
       (<[self := mkLanguageModel (dictionary m) (is_forward_lm m) (dropout m)
                    (hidden_size m) (embedding_size m) (nlayers m) (drop m)
                    (encoder m) (rnn m) (Some h) (nout m) (proj m) (decoder m)
                    (training m) (device m)]> (heap w)) w).
Proof. intros Hself. unfold set_hidden, mbind, M_bind, read. by rewrite Hself. Qed.

(** X1.  [set_hidden] stores the given state in the [hidden] attribute of
    [self] and changes nothing else of the model.  No method reads that
    attribute: after [set_hidden], [forward], [init_hidden],
    [get_representation] and [generate_text] return what they would have
    returned before it, and [save] writes the same record. *)
Theorem hidden_attribute_is_never_read (self : loc) (m : LanguageModel)
    (h : Hidden) (w : World) :
  heap w !! self = Some m →
  ∃ m' w',
    set_hidden self h w = (Ok tt, w')
    ∧ heap w' = <[self := m']> (heap w)
    ∧ hidden m' = Some h
    ∧ without_hidden m' = without_hidden m
    ∧ (∀ input hidden0,
         (forward self input hidden0 w').1 = (forward self input hidden0 w).1)
    ∧ (∀ bsz, (init_hidden self bsz w').1 = (init_hidden self bsz w).1)
    ∧ (∀ lookup strings detach,
         (get_representation lookup self strings detach w').1
         = (get_representation lookup self strings detach w).1)
    ∧ (∀ n, (generate_text self n w').1 = (generate_text self n w).1)
    ∧ (∀ file, files (save self file w').2 = files (save self file w).2).
Proof.
  intros Hself. eexists _, _. split; [by apply set_hidden_run|].
  split; [done|]. split; [done|]. split; [done|].
  set (w' := set_heap _ w).
  assert (erase_hidden w' = erase_hidden w) as Herase.
  { unfold erase_hidden, w', set_heap.
    cbn [heap files generator grad_enabled flair_device].
    rewrite fmap_insert, insert_id; [done|]. by rewrite lookup_fmap, Hself. }
  split_and!.
  - intros. apply ignores_hidden_result; [|done].
    apply (reads_self_ignores_hidden self), reads_self_forward.
  - intros. apply ignores_hidden_result; [|done].
    apply (reads_self_ignores_hidden self), reads_self_init_hidden.
  - intros. apply ignores_hidden_result; [|done].
    apply ignores_hidden_get_representation.
  - intros. apply ignores_hidden_result; [|done]. apply ignores_hidden_generate_text.
  - intros file. pose proof (ignores_hidden_save self file w) as H1.
    pose proof (ignores_hidden_save self file w') as H2.
    rewrite Herase, H1 in H2.
    apply (f_equal (λ r, files r.2)) in H2. symmetry. exact H2.
Qed.

(** X2.  Whatever their arguments, and whether they return or raise,
    [forward], [get_representation] and [generate_text] leave the heap (the
    weights, the attributes and the mode of every model), the files, the
    autograd switch and the device as they found them: only the random
    generator advances.  [init_hidden] leaves the whole world as it was. *)
Theorem inference_keeps_the_store (self : loc) (w : World) :
  (∀ input hidden, frame w (forward self input hidden w).2)
  ∧ (∀ bsz, (init_hidden self bsz w).2 = w)
  ∧ (∀ lookup strings detach,
       frame w (get_representation lookup self strings detach w).2)
  ∧ (∀ n, frame w (generate_text self n w).2).
Proof.
  split_and!.
  - intros. apply (reads_self_keeps_store self), reads_self_forward.
  - intros bsz. unfold init_hidden, mbind, M_bind, read, tensor_new, check_sizes.
    destruct (heap w !! self) as [m|]; [|done].
    destruct (forallb _ _); done.
  - intros. apply keeps_store_get_representation.
  - intros. apply keeps_store_generate_text.
Qed.


(** ** forward: what it rejects *)

(** X4.  On a well-formed model with a dictionary of [N > 0] symbols,
    [forward] on an input that holds an index outside [0, N) raises the
    library's IndexError at the embedding lookup: nothing has been drawn, and
    the world is as it was. *)
Theorem forward_index_out_of_range (self : loc) (m : LanguageModel)
    (input : Tensor) (hidden : Hidden) (ks : list Z) (k : Z) (w : World) :
  heap w !! self = Some m →
  well_formed m →
  (0 < Dictionary.len (dictionary m))%nat →
  data input = LongData ks →
  k ∈ ks →
  k < 0 ∨ Z.of_nat (Dictionary.len (dictionary m)) ≤ k →
  forward self input hidden w = (Raise IndexError, w).
Proof.
  intros Hself Hwf Hsome Hd Hk Hrange. destruct (wf_encoder m Hwf) as [Hn _].
  unfold forward, mbind, M_bind, read. rewrite Hself.
  unfold Embedding_forward. rewrite Hd, Hn.
  rewrite (forallb_false_elem _ ks k); [by rewrite decide_False by lia|done|].
  apply andb_false_iff. rewrite Z.leb_gt, Z.ltb_ge. lia.
Qed.

(** X3.  On a well-formed model, [forward] on a batch of [batch] sequences
    with a hidden pair that was made for another batch size raises the
    library's RuntimeError. *)
Theorem forward_batch_mismatch (self : loc) (m : LanguageModel)
    (input : Tensor) (hidden : Hidden) (seq_len batch batch' : nat) (w : World) :
  heap w !! self = Some m →
  well_formed m →
  index_batch (Dictionary.len (dictionary m)) seq_len batch input →
  hidden_pair m batch' hidden →
  batch ≠ batch' →
  raises (forward self input hidden) RuntimeError w.
Proof.
  intros Hself Hwf (Hshape & ks & Hks & Hrange)
    (h0 & c0 & -> & Hh0 & Hc0 & Hfh & Hfc) Hbatch.
  destruct (wf_encoder m Hwf) as [Hn He].
  destruct (wf_rnn m Hwf) as (Hri & Hrh & Hrl).
  pose proof (well_formed_encoder_float m Hwf) as Hew.
  unfold forward.
  apply raises_bind_r, (returns_read _ m); [done|].
  apply raises_bind_r, (returns_Embedding_forward _ _ ks); [done| by rewrite Hn |done|].
  intros encoded Hse Hfe.
  apply raises_bind_r, returns_Dropout_forward; [done|]. intros emb w1 Hf1 Hsm Hfm.
  apply raises_bind_l. unfold LSTM_forward.
  rewrite Hsm, Hse, Hshape. cbn [app].
  apply raises_bind_r, returns_ret, raises_bind_r, returns_ret.
  unfold dim. rewrite Hsm, Hse, Hshape, Hh0, Hc0. cbn [app removelast last length].
  rewrite decide_True by done.
  rewrite decide_False; [apply raises_raise|].
  intros (_ & Hs & _). by injection Hs.
Qed.

(** ** repackage_hidden *)

Lemma hidden_pair_repackage m batch h :
  hidden_pair m batch h → hidden_pair m batch (repackage_hidden h).
Proof.
  intros (h0 & c0 & -> & Hh0 & Hc0 & Hfh & Hfc).
  by exists (torch_tensor (dot_data h0)), (torch_tensor (dot_data c0)).
Qed.

Lemma no_history_torch_tensor t : no_history t → torch_tensor (dot_data t) = t.
Proof. destruct t as [s d rg gf]. intros [Hrg Hgf]. cbn in *. by subst. Qed.

Lemma repackage_hidden_no_history h :
  Forall no_history (leaves (repackage_hidden h)).
Proof.
  pose proof (repackage_hidden_leaves h) as Hl.
  induction Hl as [|t t' ts ts' (_ & _ & Ht) _ IH]; by constructor.
Qed.

(** X16.  [repackage_hidden] is idempotent, and the hidden states that it
    returns unchanged are those whose tensors carry no computation
    history. *)
Theorem repackage_hidden_idempotent (h : Hidden) :
  repackage_hidden (repackage_hidden h) = repackage_hidden h
  ∧ (repackage_hidden h = h ↔ Forall no_history (leaves h)).
Proof.
  split; [|split].
  - induction h as [t|hs IH] using Hidden_induction; [done|].
    cbn. f_equal. rewrite <- list_fmap_compose.
    apply Forall_fmap_ext_1. by eapply Forall_impl.
  - intros Heq. rewrite <- Heq. apply repackage_hidden_no_history.
  - induction h as [t|hs IH] using Hidden_induction.
    + intros Ht%Forall_inv. cbn. f_equal. by apply no_history_torch_tensor.
    + cbn. intros Hall. f_equal.
      induction IH as [|h hs Hh _ IHhs]; [done|].
      cbn in Hall. apply Forall_app in Hall as [Hh' Hhs'].
      cbn. f_equal; [by apply Hh | by apply IHhs].
Qed.


(** ** forward: carrying the hidden state, and running without autograd *)

(** X5.  The hidden state that [forward] returns for a non-empty sequence
    is accepted by the next call of [forward] on a batch of the same size, as
    it is and after [repackage_hidden], whatever the length of the next
    sequences, as long as they are not empty. *)
Theorem forward_accepts_its_hidden_state (self : loc) (m : LanguageModel)
    (input1 input2 : Tensor) (hidden : Hidden) (len1 len2 batch : nat)
    (w : World) :
  heap w !! self = Some m →
  well_formed m →
  (0 < len1)%nat → (0 < len2)%nat →
  index_batch (Dictionary.len (dictionary m)) len1 batch input1 →
  index_batch (Dictionary.len (dictionary m)) len2 batch input2 →
  hidden_pair m batch hidden →
  ∃ logits1 representation1 hidden1 w1,
    forward self input1 hidden w = (Ok (logits1, representation1, hidden1), w1)
    ∧ (∃ logits2 representation2 hidden2 w2,
         forward self input2 hidden1 w1
         = (Ok (logits2, representation2, hidden2), w2)
         ∧ shape logits2 = [len2; batch; Dictionary.len (dictionary m)])
    ∧ (∃ logits2 representation2 hidden2 w2,
         forward self input2 (repackage_hidden hidden1) w1
         = (Ok (logits2, representation2, hidden2), w2)
         ∧ shape logits2 = [len2; batch; Dictionary.len (dictionary m)]).
Proof.
  intros Hself Hwf Hlen1 Hlen2 Hin1 Hin2 Hhid.
  assert (∀ h w1, heap w1 = heap w → hidden_pair m batch h →
            ∃ logits2 representation2 hidden2 w2,
              forward self input2 h w1 = (Ok (logits2, representation2, hidden2), w2)
              ∧ shape logits2 = [len2; batch; Dictionary.len (dictionary m)])
    as Hnext.
  { intros h w1 Hheap Hh.
    cut (returns (forward self input2 h)
           (λ '(logits2, _, _) _,
              shape logits2 = [len2; batch; Dictionary.len (dictionary m)]) w1).
    { intros ([[logits2 representation2] hidden2] & w2 & Hrun & ?)%returns_inv.
      eauto 6. }
    eapply (returns_forward _ _ _ _ len2); [by rewrite Hheap|done..|]. by intros. }
  cut (returns (forward self input1 hidden)
         (λ '(_, _, hidden1) w1, heap w1 = heap w ∧ hidden_pair m batch hidden1) w).
  { intros ([[logits1 representation1] hidden1] & w1 & Hrun & Hheap & Hh)%returns_inv.
    exists logits1, representation1, hidden1, w1. split; [done|].
    split; apply Hnext; try done. by apply hidden_pair_repackage. }
  eapply (returns_forward _ _ _ _ len1); [done..|]. by intros ? ? ? ? (?&_).
Qed.

Lemma ensures_bind {A B} (c : M A) (f : A → M B) Q w :
  ensures c (λ a w', ensures (f a) Q w') w → ensures (c ≫= f) Q w.
Proof.
  unfold ensures, mbind, M_bind. by destruct (c w) as [[a|e] w'].
Qed.

Lemma ensures_mono {A} (c : M A) (Q Q' : A → World → Prop) w :
  ensures c Q w → (∀ a w', Q a w' → Q' a w') → ensures c Q' w.
Proof.
  unfold ensures. destruct (c w) as [[a|e] w']; [|done]. intros HQ HQQ. by apply HQQ.
Qed.

Lemma ensures_result_of op inputs s d (Q : Tensor → World → Prop) w :
  grad_enabled w = false → (∀ t, no_history t → Q t w) →
  ensures (result_of op inputs s d) Q w.
Proof.
  intros Hg HQ. unfold ensures, result_of, mbind, M_bind, get_grad_enabled.
  rewrite Hg. cbn. by apply HQ.
Qed.

Lemma ensures_sample {A} (k : Generator → A * Generator) Q w :
  (∀ a g, Q a (set_generator g w)) → ensures (sample k) Q w.
Proof. intros HQ. unfold ensures, sample. destruct (k _). apply HQ. Qed.

Lemma ensures_Embedding_forward e x (Q : Tensor → World → Prop) w :
  grad_enabled w = false → (∀ t, no_history t → Q t w) →
  ensures (Embedding_forward e x) Q w.
Proof.
  intros Hg HQ. unfold Embedding_forward.
  destruct (data x); [done|]. destruct (forallb _ _); [|by destruct (decide _)].
  destruct (data (Embedding.weight e)); [|done]. by apply ensures_result_of.
Qed.

Lemma ensures_Dropout_forward d tr x (Q : Tensor → World → Prop) w :
  grad_enabled w = false → no_history x →
  (∀ t w', grad_enabled w' = false → no_history t → Q t w') →
  ensures (Dropout_forward d tr x) Q w.
Proof.
  intros Hg Hx HQ. unfold Dropout_forward. destruct tr; [|by apply HQ].
  destruct (data x); [|done].
  apply ensures_bind, ensures_sample. intros ys g.
  apply ensures_result_of; [done|]. intros t Ht. by apply HQ.
Qed.

Lemma ensures_tensor_item t i (Q : Tensor → World → Prop) w :
  grad_enabled w = false → (∀ t', Q t' w) → ensures (tensor_item t i) Q w.
Proof.
  intros Hg HQ. unfold tensor_item. destruct (shape t); [done|].
  destruct (decide _); [|done]. apply ensures_result_of; [done|]. by intros.
Qed.

Lemma ensures_hidden_entry hx i (Q : Tensor → World → Prop) w :
  grad_enabled w = false → (∀ t, Q t w) → ensures (hidden_entry hx i) Q w.
Proof.
  intros Hg HQ. destruct hx as [t|hs]; [by apply ensures_tensor_item|].
  cbn. destruct (hs !! i) as [[?|?]|]; [apply HQ|done..].
Qed.

Lemma check_hidden_states_run hx w :
  check_hidden_states hx w = (Ok tt, w) ∨ ∃ e, check_hidden_states hx w = (Raise e, w).
Proof.
  destruct hx as [t|hs]; [right; by eexists|].
  destruct hs as [|? [|? [|? ?]]]; cbn [check_hidden_states];
    try (by left); destruct (forallb _ _); right; by eexists.
Qed.

Lemma ensures_LSTM_forward r tr x hx (Q : Tensor * Hidden → World → Prop) w :
  grad_enabled w = false →
  (∀ out h c w', grad_enabled w' = false →
     no_history out → no_history h → no_history c →
     Q (out, HTuple [HTensor h; HTensor c]) w') →
  ensures (LSTM_forward r tr x hx) Q w.
Proof.
  intros Hg HQ. unfold LSTM_forward.
  destruct (shape x) as [|seq_len rest]; [done|].
  assert (ensures
            (h0 ← hidden_entry hx 0;
             c0 ← hidden_entry hx 1;
             if decide (dim h0 = dim x ∧ dim c0 = dim x) then
               let lead := removelast rest in
               let expected := [LSTM.num_layers r] ++ lead ++ [LSTM.hidden_size r] in
               if decide (last rest = Some (LSTM.input_size r)
                          ∧ shape h0 = expected ∧ shape c0 = expected)
               then
                 (if decide (dim x = 3%nat) then check_hidden_states hx else mret tt);;
                 match data x, data h0, data c0 with
                 | FloatData xs, FloatData hs, FloatData cs =>
                     if decide (seq_len = 0%nat) then raise RuntimeError
                     else LSTM_run r tr seq_len lead x h0 c0 xs hs cs
                 | _, _, _ => raise RuntimeError
                 end
               else raise RuntimeError
             else raise RuntimeError) Q w) as Hbody.
  { apply ensures_bind, ensures_hidden_entry; [done|]. intros h0.
    apply ensures_bind, ensures_hidden_entry; [done|]. intros c0.
    destruct (decide (_ ∧ _)); [|done]. cbv zeta.
    destruct (decide (_ ∧ _)); [|done].
    apply ensures_bind.
    assert (∀ c : M unit,
              (∀ w', c w' = (Ok tt, w') ∨ ∃ e, c w' = (Raise e, w')) →
              ensures c (λ _ w', grad_enabled w' = false ∧ w' = w) w) as Hunit.
    { intros c Hc. unfold ensures. by destruct (Hc w) as [->|[e ->]]. }
    eapply ensures_mono.
    { apply Hunit. intros w'. destruct (decide (dim x = 3%nat)); [|by left].
      apply check_hidden_states_run. }
    intros [] w' [_ ->].
    destruct (data x); [|done]. destruct (data h0); [|done].
    destruct (data c0); [|done]. destruct (decide _); [done|].
    unfold LSTM_run. apply ensures_bind, ensures_sample. intros [[out hn] cn] g.
    apply ensures_bind, ensures_result_of; [done|]. intros output Ho.
    apply ensures_bind, ensures_result_of; [done|]. intros h Hh.
    apply ensures_bind, ensures_result_of; [done|]. intros c Hc.
    by apply HQ. }
  destruct rest as [|? [|? [|? ?]]]; done.
Qed.

Lemma ensures_Linear_forward l x (Q : Tensor → World → Prop) w :
  grad_enabled w = false → (∀ t, no_history t → Q t w) →
  ensures (Linear_forward l x) Q w.
Proof.
  intros Hg HQ. unfold Linear_forward.
  repeat (match goal with
          | |- ensures (match ?y with _ => _ end) _ _ => destruct y
          | |- ensures (if ?b then _ else _) _ _ => destruct b
          end; try done).
  all: by apply ensures_result_of.
Qed.

Lemma ensures_size t i (Q : nat → World → Prop) w :
  (∀ n, Q n w) → ensures (size t i) Q w.
Proof. intros HQ. unfold ensures, size. destruct (shape t !! i); [apply HQ|done]. Qed.

Lemma ensures_view t s (Q : Tensor → World → Prop) w :
  grad_enabled w = false → (∀ t', no_history t' → Q t' w) →
  ensures (view t s) Q w.
Proof.
  intros Hg HQ. unfold view. destruct (decide _); [|done].
  by apply ensures_result_of.
Qed.

Lemma ensures_forward self input hidden w :
  grad_enabled w = false →
  ensures (forward self input hidden)
    (λ '(logits, representation, hidden') _,
       no_history logits ∧ no_history representation
       ∧ Forall no_history (leaves hidden')) w.
Proof.
  intros Hg. unfold forward. apply ensures_bind.
  unfold ensures at 1, read. destruct (heap w !! self) as [m|]; [|done].
  apply ensures_bind, ensures_Embedding_forward; [done|]. intros encoded Henc.
  apply ensures_bind, ensures_Dropout_forward; [done..|]. intros emb w1 Hg1 Hemb.
  apply ensures_bind, ensures_LSTM_forward; [done|].
  intros output h c w2 Hg2 Ho Hh Hc.
  apply ensures_bind.
  apply (ensures_mono _ (λ out w', no_history out ∧ w' = w2)).
  { destruct (proj m); [by apply ensures_Linear_forward|done]. }
  intros projected w3 [Hp ->].
  apply ensures_bind, ensures_Dropout_forward; [done..|].
  intros dropped w4 Hg4 Hdrop.
  apply ensures_bind, ensures_size. intros size0.
  apply ensures_bind, ensures_size. intros size1.
  apply ensures_bind, ensures_size. intros size2.
  apply ensures_bind, ensures_view; [done|]. intros flat Hflat.
  apply ensures_bind, ensures_Linear_forward; [done|]. intros decoded Hdec.
  apply ensures_bind, ensures_size. intros width.
  apply ensures_bind, ensures_view; [done|]. intros logits Hlogits.
  split; [done|]. split; [done|].
  change (Forall no_history [h; c]). by repeat apply Forall_cons_2.
Qed.

(** X6.  With autograd switched off, as it is inside [generate_text], the
    logits, the representation and the hidden state that [forward] returns
    for a non-empty sequence carry no computation history. *)
Theorem forward_without_autograd (self : loc) (m : LanguageModel)
    (input : Tensor) (hidden : Hidden) (seq_len batch : nat) (w : World) :
  heap w !! self = Some m →
  well_formed m →
  (0 < seq_len)%nat →
  index_batch (Dictionary.len (dictionary m)) seq_len batch input →
  hidden_pair m batch hidden →
  grad_enabled w = false →
  ∃ logits representation hidden' w',
    forward self input hidden w = (Ok (logits, representation, hidden'), w')
    ∧ no_history logits ∧ no_history representation
    ∧ Forall no_history (leaves hidden').
Proof.
  intros Hself Hwf Hlen Hin Hhid Hg.
  assert (returns (forward self input hidden) (λ _ _, True) w) as Hret.
  { eapply returns_forward; [done..|]. by intros. }
  apply returns_inv in Hret as ([[logits representation] hidden'] & w' & Hrun & _).
  pose proof (ensures_forward self input hidden w Hg) as Hens.
  unfold ensures in Hens. rewrite Hrun in Hens.
  by exists logits, representation, hidden', w'.
Qed.

(** ** init_hidden and generate_text *)

(** X10.  [init_hidden] with a negative batch size raises the library's
    RuntimeError, and the world is as it was. *)
Theorem init_hidden_negative_batch (self : loc) (m : LanguageModel) (bsz : Z)
    (w : World) :
  heap w !! self = Some m →
  bsz < 0 →
  init_hidden self bsz w = (Raise RuntimeError, w).
Proof.
  intros Hself Hb. unfold init_hidden, mbind, M_bind, read. rewrite Hself.
  unfold tensor_new, check_sizes, mbind, M_bind.
  assert (forallb (Z.leb 0) [nlayers m; bsz; hidden_size m] = false) as ->; [|done].
  apply (forallb_false_elem _ _ bsz); [set_solver|]. by apply Z.leb_gt.
Qed.

(** X9.  With at least two symbols in the dictionary of a well-formed
    model, [generate_text(n)] returns the concatenation of exactly [n]
    symbols of the dictionary (none for [n <= 0]) and leaves the heap, the
    files, the autograd switch and the device as they were. *)
Theorem generate_text_returns_symbols (self : loc) (m : LanguageModel) (n : Z)
    (w : World) :
  heap w !! self = Some m →
  well_formed m →
  (2 ≤ Dictionary.len (dictionary m))%nat →
  ∃ words w',
    generate_text self n w = (Ok (String.concat "" words), w')
    ∧ length words = Z.to_nat n
    ∧ Forall (λ x, x ∈ Dictionary.idx2item (dictionary m)) words
    ∧ frame w w'.
Proof.
  intros Hself Hwf Hn.
  pose proof (generate_text_symbols self m n w Hself Hwf Hn) as Hret.
  apply returns_inv in Hret as (text & w' & Hrun & words & Hlen & Hall & ->).
  exists words, w'. split; [done|]. split; [done|]. split; [done|].
  pose proof (keeps_store_generate_text self n w) as Hframe.
  by rewrite Hrun in Hframe.
Qed.


(** ** get_representation *)

Lemma Forall_gather {A} (P : A → Prop) xs positions :
  Forall P xs → Forall P (gather xs positions).
Proof.
  intros Hxs. unfold gather. induction positions as [|p ps IH]; [constructor|].
  cbn. destruct (xs !! p) as [x|] eqn:Hx; [|done].
  apply Forall_cons_2; [|done]. exact (Forall_lookup_1 _ _ _ _ Hxs Hx).
Qed.

Lemma returns_tensor_of_rows rows len (Q : Tensor → World → Prop) w :
  rows ≠ [] →
  Forall (λ row, length row = len ∧ Forall (λ k, 0 ≤ k < 2 ^ 63) row) rows →
  Q (mkTensor [length rows; len] (LongData (mjoin rows)) false None) w →
  returns (tensor_of_rows rows) Q w.
Proof.
  intros Hne Hrows HQ. unfold tensor_of_rows.
  destruct rows as [|row rows']; [done|].
  pose proof (Forall_inv Hrows) as [Hlen _].
  assert (forallb (λ r, length r =? length row)%nat (row :: rows') = true) as ->.
  { apply forallb_forall. intros r Hr%list_elem_of_In.
    rewrite Forall_forall in Hrows. destruct (Hrows r Hr) as [-> _].
    rewrite Hlen. apply Nat.eqb_refl. }
  assert (forallb (forallb int64) (row :: rows') = true) as ->.
  { apply forallb_forall. intros r Hr%list_elem_of_In.
    rewrite Forall_forall in Hrows. destruct (Hrows r Hr) as [_ Hks].
    apply forallb_forall. intros k Hk%list_elem_of_In.
    rewrite Forall_forall in Hks. specialize (Hks k Hk).
    unfold int64. apply andb_true_iff. rewrite Z.leb_le, Z.ltb_lt. lia. }
  rewrite Hlen. exact HQ.
Qed.

(** X7.  For a non-empty list of strings of one length [seq_len > 0] whose
    characters the dictionary maps to indices of its symbols,
    [get_representation] on a well-formed model returns a tensor of shape
    [seq_len x number of strings x nout] ([hidden_size] without [nout]): the
    strings are the columns of the batch.  With [detach_from_lm] the tensor
    carries no computation history.  The model is left as it was. *)
Theorem get_representation_shape (get_idx_for_item : Dictionary.t → string → Z)
    (self : loc) (m : LanguageModel) (strings : list (list string))
    (seq_len : nat) (detach_from_lm : bool) (w : World) :
  heap w !! self = Some m →
  well_formed m →
  strings ≠ [] →
  (0 < seq_len)%nat →
  Forall (λ string, length string = seq_len
                    ∧ indexed get_idx_for_item (dictionary m) string) strings →
  ∃ t w',
    get_representation get_idx_for_item self strings detach_from_lm w
    = (Ok (HTensor t), w')
    ∧ shape t = [seq_len; length strings;
                 Z.to_nat (representation_width (hidden_size m) (nout m))]
    ∧ (detach_from_lm = true → no_history t)
    ∧ frame w w'.
Proof.
  intros Hself Hwf Hne Hlen Hstrings.
  set (width := Z.to_nat (representation_width (hidden_size m) (nout m))).
  cut (returns (get_representation get_idx_for_item self strings detach_from_lm)
         (λ r w', ∃ t, r = HTensor t
            ∧ shape t = [seq_len; length strings; width]
            ∧ (detach_from_lm = true → no_history t) ∧ frame w w') w).
  { intros (r & w' & Hrun & t & -> & ?)%returns_inv. by exists t, w'. }
  unfold get_representation.
  apply returns_bind, (returns_read _ m); [done|].
  set (rows := (λ string, get_idx_for_item (dictionary m) <$> string) <$> strings).
  assert (Forall (λ row, length row = seq_len
            ∧ Forall (λ k, 0 ≤ k < Z.of_nat (Dictionary.len (dictionary m))
                           ∧ k < 2 ^ 63) row) rows) as Hrows.
  { apply Forall_fmap. eapply Forall_impl; [exact Hstrings|].
    intros string [Hl Hi]. cbn. rewrite length_fmap. split; [done|].
    by apply Forall_fmap. }
  apply returns_bind, (returns_tensor_of_rows _ seq_len).
  { unfold rows. by destruct strings. }
  { eapply Forall_impl; [exact Hrows|]. intros row [Hl Hks]. split; [done|].
    eapply Forall_impl; [exact Hks|]. intros k ?. cbn in *. lia. }
  apply returns_bind. unfold transpose01. cbn [shape data].
  apply returns_result_of. intros batch Hsb Hdb.
  assert (index_batch (Dictionary.len (dictionary m)) seq_len (length strings) batch)
    as Hbatch.
  { split; [by rewrite Hsb; unfold rows; rewrite length_fmap|].
    eexists. split; [exact Hdb|]. apply Forall_gather, Forall_join.
    eapply Forall_impl; [exact Hrows|]. intros row [_ Hks].
    eapply Forall_impl; [exact Hks|]. by intros k [? _]. }
  apply returns_bind, (returns_init_hidden _ m); [done..|]. intros hidden Hhid.
  apply returns_bind, (returns_forward _ m _ _ seq_len (length strings)); [done..|].
  intros logits representation hidden' w' Hframe _ _ Hsr _.
  apply returns_ret. destruct detach_from_lm.
  - eexists. split; [reflexivity|]. done.
  - eexists. split; [reflexivity|]. done.
Qed.

(** X8.  [get_representation] pads nothing: on strings of different
    lengths it raises the ValueError of [torch.tensor], and on an empty list
    of strings the IndexError of [transpose]. *)
Theorem get_representation_rejects (get_idx_for_item : Dictionary.t → string → Z)
    (self : loc) (m : LanguageModel) (detach_from_lm : bool) (w : World) :
  heap w !! self = Some m →
  raises (get_representation get_idx_for_item self [] detach_from_lm) IndexError w
  ∧ (∀ string strings other,
       other ∈ strings → length other ≠ length string →
       raises (get_representation get_idx_for_item self (string :: strings)
                 detach_from_lm) ValueError w).
Proof.
  intros Hself. split.
  - unfold get_representation.
    apply raises_bind_r, (returns_read _ m); [done|]. cbn [fmap list_fmap].
    apply raises_bind_r, returns_ret, raises_bind_l. apply raises_raise.
  - intros string strings other Hother Hlen. unfold get_representation.
    apply raises_bind_r, (returns_read _ m); [done|]. apply raises_bind_l.
    unfold tensor_of_rows. rewrite fmap_cons.
    rewrite (forallb_false_elem _ _ (get_idx_for_item (dictionary m) <$> other));
      [apply raises_raise| |].
    + apply elem_of_cons. right. apply list_elem_of_fmap. by exists other.
    + rewrite !length_fmap. by apply Nat.eqb_neq.
Qed.


(** ** initialize and init_weights *)


(** X12.  [init_weights] on a well-formed model redraws the encoder
    weights and the decoder weights by [uniform_(-0.1, 0.1)] and sets the
    decoder bias to zero.  The model stays well formed; its recurrent layers,
    its projection, its [hidden] attribute and its mode are untouched, and so
    are the other objects and the files. *)
Theorem init_weights_reinitialises (self : loc) (m : LanguageModel) (w : World) :
  heap w !! self = Some m →
  well_formed m →
  ∃ m' w',
    init_weights self w = (Ok tt, w')
    ∧ heap w' = <[self := m']> (heap w)
    ∧ files w' = files w
    ∧ well_formed m'
    ∧ drawn_uniformly (-0.1) 0.1 (Embedding.weight (encoder m'))
    ∧ all_zero (Linear.bias (decoder m'))
    ∧ drawn_uniformly (-0.1) 0.1 (Linear.weight (decoder m'))
    ∧ rnn m' = rnn m ∧ proj m' = proj m ∧ hidden m' = hidden m
    ∧ training m' = training m.
Proof.
  intros Hself Hwf.
  destruct (well_formed_decoder_float m Hwf) as [_ [bs Hbs]].
  unfold init_weights, mbind, M_bind, read. rewrite Hself.
  unfold uniform_, mbind, M_bind, mret, M_ret. rewrite !sample_run. unfold write.
  eexists _, _. split; [reflexivity|].
  cbn [heap files set_heap set_generator].
  split; [done|]. split; [done|]. split.
  - destruct Hwf as [Hc He Hr Hp Hd Hs Hf].
    split;
      cbn [dictionary is_forward_lm dropout hidden_size embedding_size nlayers
           drop encoder rnn hidden nout proj decoder training device
           with_weight Linear_with Embedding.num_embeddings
           Embedding.embedding_dim Linear.in_features Linear.out_features];
      try done.
    + rewrite <- Hs. unfold named_parameters.
      cbn [dictionary is_forward_lm dropout hidden_size embedding_size nlayers
           drop encoder rnn hidden nout proj decoder training device
           with_weight Linear_with Embedding.weight Linear.weight Linear.bias].
      rewrite !fmap_app. done.
    + unfold named_parameters in *.
      cbn [dictionary is_forward_lm dropout hidden_size embedding_size nlayers
           drop encoder rnn hidden nout proj decoder training device
           with_weight Linear_with Embedding.weight Linear.weight Linear.bias].
      rewrite !Forall_app in *. destruct Hf as (_ & Hl & Hpr & _).
      split; [by repeat constructor; eexists|]. split; [done|]. split; [done|].
      unfold Linear_named_parameters, fill_; cbn. rewrite Hbs.
      repeat constructor; by eexists.
  - cbn [dictionary is_forward_lm dropout hidden_size embedding_size nlayers
         drop encoder rnn hidden nout proj decoder training device
         with_weight Linear_with Embedding.weight Linear.weight Linear.bias].
    split; [by eexists|]. split; [|split; [by eexists|done]].
    unfold all_zero, fill_; cbn. by rewrite Hbs.
Qed.

(** ** Loading *)

Lemma state_dict_matches_found sd params :
  forallb (λ '(name, param),
             match sd !! name with
             | Some t => bool_decide (shape t = shape param)
             | None => false
             end) params
  && bool_decide (dom sd ⊆ list_to_set (C := gset string) params.*1) = true →
  state_dict_matches sd (prod_map id shape <$> params).
Proof.
  intros [Hfound Hdom%bool_decide_eq_true]%andb_true_iff. split.
  - apply Forall_fmap, Forall_forall. intros [name param] Hin%list_elem_of_In.
    rewrite forallb_forall in Hfound. specialize (Hfound _ Hin). cbn in *.
    destruct (sd !! name) as [t|]; [|done]. exists t.
    by apply bool_decide_eq_true in Hfound.
  - by rewrite named_parameters_names.
Qed.

(** X15.  Loading is strict.  In a process that has switched the
    weights-only mode of [torch.load] off, on a record with a valid
    configuration whose state dict lacks a parameter of the architecture, has
    one of another shape or has an entry that is no parameter,
    [load_language_model] and [load_checkpoint] raise the RuntimeError of
    [load_state_dict]. *)
Theorem load_rejects_other_state_dicts (file : string)
    (state : gmap string Value) (d : Dictionary.t) (fwd : bool)
    (h layers_ e : Z) (out : option Z) (p : float) (sd : gmap string Tensor)
    (w : World) :
  files w !! file = Some state →
  weights_only w = false →
  configuration_record state d fwd h layers_ e out p →
  state !! "state_dict" = Some (VStateDict sd) →
  valid_configuration h layers_ e out p →
  ¬ state_dict_matches sd (architecture (Dictionary.len d) h layers_ e out) →
  raises (load_language_model file) RuntimeError w
  ∧ raises (load_checkpoint file) RuntimeError w.
Proof.
  intros Hfile Htrust [Hd Hfwd Hh Hl He Hout Hp] Hsd Hv Hno.
  assert (raises (load_language_model file) RuntimeError w) as Hraises.
  { unfold load_language_model.
    apply raises_bind_r. eapply returns_intro; [by apply torch_load_run|].
    do 7 (apply raises_bind_r; eapply returns_getitem; [done|]).
    apply raises_bind_r. unfold LanguageModel_call.
    do 5 apply returns_bind, returns_ret.
    apply returns_bind.
    apply (returns_mono _ (λ o w', o = out ∧ w' = w));
      [by destruct out|intros ? ? [-> ->]].
    apply returns_bind, returns_ret.
    apply returns___init__; [done|].
    intros l m0 w1 Hfresh Hheap1 _ _ _ Hc Hwf0 _.
    destruct Hc as [Hcd _ Hch Hcl Hce Hco _ _ _ _].
    apply raises_bind_r; eapply returns_getitem; [done|].
    apply raises_bind_r, returns_ret. apply raises_bind_l.
    unfold load_state_dict, mbind, M_bind, read, raises.
    rewrite Hheap1, lookup_insert_eq.
    destruct (_ && _) eqn:Hfound; [|by eexists].
    apply state_dict_matches_found in Hfound.
    rewrite (wf_shapes m0 Hwf0), Hcd, Hch, Hcl, Hce, Hco in Hfound. done. }
  split; [done|]. destruct Hraises as [w' Hrun]. exists w'.
  by rewrite (load_checkpoint_as_load_language_model _ _ _ Hfile), Hrun.
Qed.

(** X17.  [load_checkpoint] follows [load_language_model] on every file:
    it raises what [load_language_model] raises, and otherwise returns the
    model that [load_language_model] returns, from the same final world, next
    to each optional field of the record (the none marker for one that the
    record lacks).  On a file that does not exist both raise
    FileNotFoundError and leave the world as it was. *)
Theorem load_checkpoint_follows_load_language_model (file : string) (w : World) :
  match load_language_model file w with
  | (Ok l, w') =>
      ∃ state r,
        files w !! file = Some state
        ∧ load_checkpoint file w = (Ok r, w')
        ∧ r !! "model" = Some (VModel l)
        ∧ Forall (λ key, r !! key = Some (get_or_none state key)) optional_fields
  | (Raise e, w') => load_checkpoint file w = (Raise e, w')
  end
  ∧ (files w !! file = None →
     load_language_model file w = (Raise FileNotFoundError, w)).
Proof.
  split; [|intros Hnone; unfold load_language_model, mbind, M_bind, torch_load;
           by rewrite Hnone].
  destruct (files w !! file) as [state|] eqn:Hfile.
  - rewrite (load_checkpoint_as_load_language_model _ _ _ Hfile).
    destruct (load_language_model file w) as [[l|e] w']; [|done].
    eexists state, _. split; [done|]. split; [done|]. split; [done|].
    by repeat constructor.
  - unfold load_language_model, load_checkpoint, mbind, M_bind, torch_load.
    by rewrite Hfile.
Qed.


(** ** The layers that the constructor builds *)

Lemma ensures_ret {A} (a : A) (Q : A → World → Prop) w : Q a w → ensures (mret a) Q w.
Proof. done. Qed.

Lemma ensures_check_sizes sizes (Q : list nat → World → Prop) w :
  (∀ s, Q s w) → ensures (check_sizes sizes) Q w.
Proof. intros HQ. unfold check_sizes. destruct (forallb _ _); [apply HQ|done]. Qed.

Lemma ensures_new_parameter s (Q : Tensor → World → Prop) w :
  (∀ t w', leaf t → Q t w') → ensures (new_parameter s) Q w.
Proof.
  intros HQ. unfold new_parameter. apply ensures_bind, ensures_sample.
  intros xs g. by apply ensures_ret, HQ.
Qed.

Lemma ensures_uniform_ t lo hi (Q : Tensor → World → Prop) w :
  (∀ t' w', requires_grad t' = requires_grad t → grad_fn t' = grad_fn t → Q t' w') →
  ensures (uniform_ t lo hi) Q w.
Proof.
  intros HQ. unfold uniform_. apply ensures_bind, ensures_sample.
  intros xs g. by apply ensures_ret, HQ.
Qed.

Lemma ensures_Embedding_init n d (Q : Embedding.t → World → Prop) w :
  (∀ e w', leaf (Embedding.weight e) → Q e w') →
  ensures (Embedding_init n d) Q w.
Proof.
  intros HQ. unfold Embedding_init.
  apply ensures_bind, ensures_check_sizes. intros s.
  apply ensures_bind, ensures_new_parameter. intros t w' Ht.
  by apply ensures_ret, HQ.
Qed.

Lemma ensures_Linear_init i o (Q : Linear.t → World → Prop) w :
  (∀ l w', leaf (Linear.weight l) → leaf (Linear.bias l) → Q l w') →
  ensures (Linear_init i o) Q w.
Proof.
  intros HQ. unfold Linear_init.
  apply ensures_bind, ensures_check_sizes. intros s.
  apply ensures_bind, ensures_new_parameter. intros wt w1 Hwt.
  apply ensures_bind, ensures_new_parameter. intros bt w2 Hbt.
  by apply ensures_ret, HQ.
Qed.

Lemma ensures_LSTM_new_layers count i h (Q : list LSTM.layer → World → Prop) w :
  (∀ ls w', Forall leaf_layer ls → Q ls w') →
  ensures (LSTM_new_layers count i h) Q w.
Proof.
  revert i Q w. induction count as [|count IH]; intros i Q w HQ; cbn [LSTM_new_layers].
  - apply ensures_ret, HQ. constructor.
  - apply ensures_bind. unfold LSTM_new_layer.
    apply ensures_bind, ensures_check_sizes. intros s.
    apply ensures_bind, ensures_new_parameter. intros t1 w1 H1.
    apply ensures_bind, ensures_new_parameter. intros t2 w2 H2.
    apply ensures_bind, ensures_new_parameter. intros t3 w3 H3.
    apply ensures_bind, ensures_new_parameter. intros t4 w4 H4.
    apply ensures_ret, ensures_bind, IH. intros ls w5 Hls.
    apply ensures_ret, HQ. by constructor.
Qed.

Lemma ensures_LSTM_init i h layers_ q (Q : LSTM.t → World → Prop) w :
  (∀ r w', LSTM.dropout r = q → Forall leaf_layer (LSTM.layers r) → Q r w') →
  ensures (LSTM_init i h layers_ q) Q w.
Proof.
  intros HQ. unfold LSTM_init.
  destruct (negb _); [done|]. destruct (i <=? 0); [done|].
  destruct (h <=? 0); [done|]. destruct (layers_ <=? 0); [done|].
  apply ensures_bind, ensures_LSTM_new_layers. intros ls w' Hls.
  by apply ensures_ret, HQ.
Qed.

Lemma ensures_initialize matrix (Q : Tensor → World → Prop) w :
  (∀ t w', requires_grad t = requires_grad matrix → grad_fn t = grad_fn matrix →
     Q t w') →
  ensures (initialize matrix) Q w.
Proof.
  intros HQ. unfold initialize.
  destruct (shape matrix) as [|a [|b [|]]]; try done.
  apply ensures_bind. unfold truediv. destruct (_ =? 0); [done|].
  apply ensures_ret, ensures_bind. unfold math_sqrt.
  destruct (PrimFloat.ltb _ 0); [done|].
  by apply ensures_ret, ensures_uniform_.
Qed.

Lemma leaf_layers_named (g : nat → nat) ls :
  Forall leaf_layer ls →
  Forall (λ p : string * Tensor, leaf p.2)
    (mjoin (imap (λ k, layer_named_parameters (g k)) ls)).
Proof.
  intros Hls. revert g. induction Hls as [|l ls (?&?&?&?) _ IH]; intros g.
  - constructor.
  - cbn [imap mjoin list_join]. apply Forall_app. split; [|apply (IH (g ∘ S))].
    by repeat apply Forall_cons_2.
Qed.

Lemma ensures___init__ d fwd h layers_ e out p w :
  ensures (__init__ d fwd h layers_ e out p)
    (λ l w', ∃ m, heap w' !! l = Some m ∧ as_configured m) w.
Proof.
  unfold __init__.
  apply ensures_bind. unfold Dropout_init. destruct (_ || _); [done|].
  apply ensures_ret.
  apply ensures_bind, ensures_Embedding_init. intros enc w1 Henc.
  apply ensures_bind.
  apply (ensures_mono _ (λ r _,
    LSTM.dropout r = (if layers_ =? 1 then 0%float else p)
    ∧ Forall leaf_layer (LSTM.layers r))).
  { destruct (layers_ =? 1); by apply ensures_LSTM_init. }
  intros r w2 [Hrd Hrl].
  apply ensures_bind.
  apply (ensures_mono _ (λ '(pr, dec) _,
    (∀ l, pr = Some l → leaf (Linear.weight l) ∧ leaf (Linear.bias l))
    ∧ leaf (Linear.weight dec) ∧ leaf (Linear.bias dec))).
  { destruct out as [o|].
    - apply ensures_bind, ensures_Linear_init. intros l w3 Hlw Hlb.
      apply ensures_bind, ensures_initialize. intros t w4 Hrg Hgf.
      apply ensures_bind, ensures_Linear_init. intros dec w5 Hdw Hdb.
      apply ensures_ret. split; [|done]. intros l' [= <-]. cbn.
      split; [|done]. destruct Hlw. split; congruence.
    - apply ensures_bind, ensures_Linear_init. intros dec w3 Hdw Hdb.
      by apply ensures_ret. }
  intros [pr dec] w3 (Hpr & Hdw & Hdb).
  unfold ensures, init_weights, to, uniform_, mbind, M_bind, alloc, read, write,
    get_flair_device.
  repeat (rewrite ?sample_run, ?lookup_insert_eq;
          cbn [mret M_ret heap files generator grad_enabled flair_device
               set_heap set_generator fst snd
               dictionary is_forward_lm dropout hidden_size embedding_size
               nlayers drop encoder rnn hidden nout proj decoder training
               device]).
  eexists. split; [reflexivity|].
  split;
    cbn [dictionary is_forward_lm dropout hidden_size embedding_size
         nlayers drop encoder rnn hidden nout proj decoder training device];
    [done|done|].
  unfold named_parameters.
  cbn [dictionary is_forward_lm dropout hidden_size embedding_size
       nlayers drop encoder rnn hidden nout proj decoder training device
       with_weight Linear_with Embedding.weight Linear.weight Linear.bias].
  apply Forall_app. split; [by repeat apply Forall_cons_2|].
  apply Forall_app. split; [by apply (leaf_layers_named id)|].
  apply Forall_app. split.
  - destruct pr as [l|]; [|constructor]. destruct (Hpr l eq_refl).
    by repeat apply Forall_cons_2.
  - unfold Linear_named_parameters. cbn. by repeat apply Forall_cons_2.
Qed.

Lemma __init___run_configured d fwd h layers_ e out p w :
  valid_configuration h layers_ e out p →
  ∃ l m w',
    __init__ d fwd h layers_ e out p w = (Ok l, w')
    ∧ heap w !! l = None ∧ heap w' = <[l := m]> (heap w)
    ∧ files w' = files w ∧ grad_enabled w' = grad_enabled w
    ∧ flair_device w' = flair_device w
    ∧ constructed d fwd h layers_ e out p (flair_device w) m
    ∧ well_formed m ∧ as_configured m.
Proof.
  intros Hv.
  destruct (__init___run d fwd h layers_ e out p w Hv)
    as (l & m & w' & Hrun & Hfresh & Hheap & Hfiles & Hgrad & Hdev & Hc & Hwf & _).
  pose proof (ensures___init__ d fwd h layers_ e out p w) as Hens.
  unfold ensures in Hens. rewrite Hrun in Hens. destruct Hens as (m' & Hm' & Hconf).
  rewrite Hheap, lookup_insert_eq in Hm'. injection Hm' as <-.
  by exists l, m, w'.
Qed.

(** X14.  On a valid configuration the constructor returns a new object and
    leaves the other objects and the files untouched.  The model has the
    arguments as its attributes, is in training mode, on the device of the
    process and without a stored hidden state.  Its dropout layer has the
    probability [dropout]; its recurrent layers have it between them, except
    that a single layer is built without dropout; its decoder reads [nout]
    features if [nout] is given and [hidden_size] otherwise, and returns one
    score per symbol of the dictionary. *)
Theorem constructor_builds_the_configuration (d : Dictionary.t) (fwd : bool)
    (h layers_ e : Z) (out : option Z) (p : float) (w : World) :
  valid_configuration h layers_ e out p →
  ∃ l m w',
    __init__ d fwd h layers_ e out p w = (Ok l, w')
    ∧ heap w !! l = None ∧ heap w' = <[l := m]> (heap w) ∧ files w' = files w
    ∧ constructed d fwd h layers_ e out p (flair_device w) m
    ∧ well_formed m
    ∧ Dropout.p (drop m) = p
    ∧ LSTM.dropout (rnn m) = (if layers_ =? 1 then 0%float else p)
    ∧ Linear.in_features (decoder m) = Z.to_nat (from_option id h out)
    ∧ Linear.out_features (decoder m) = Dictionary.len d
    ∧ as_configured m.
Proof.
  intros Hv.
  destruct (__init___run_configured d fwd h layers_ e out p w Hv)
    as (l & m & w' & Hrun & Hfresh & Hheap & Hfiles & _ & _ & Hc & Hwf & Hconf).
  exists l, m, w'. repeat (split; [done|]).
  pose proof Hconf as [Hdrop Hrd _]. destruct (wf_decoder m Hwf) as [Hdi Hdo].
  pose proof Hc as [Hcd _ Hch Hcl _ Hco Hcp _ _ _].
  rewrite Hdrop, Hrd, Hdi, Hdo, Hcd, Hch, Hcl, Hco, Hcp. done.
Qed.


(** ** A saved model is loaded as it was *)

Lemma bind_run {A B} (c : M A) (f : A → M B) w a w1 :
  c w = (Ok a, w1) → (c ≫= f) w = f a w1.
Proof. intros Hc. unfold mbind, M_bind. by rewrite Hc. Qed.

Lemma getitem_run (d : gmap string Value) key v w :
  d !! key = Some v → getitem d key w = (Ok v, w).
Proof. unfold getitem. by intros ->. Qed.

Lemma read_run l m w : heap w !! l = Some m → read l w = (Ok m, w).
Proof. unfold read. by intros ->. Qed.

Lemma LanguageModel_call_run d fwd h layers_ e out p :
  LanguageModel_call (VDictionary d) (VBool fwd) (VInt h) (VInt layers_) (VInt e)
    (optional_int out) (VFloat p)
  = __init__ d fwd h layers_ e out p.
Proof. unfold LanguageModel_call. by destruct out. Qed.

(** What [load_language_model] returns: the model that the constructor
    builds from the configuration, with the entries of the state dict copied
    into its parameters, as a loader leaves it. *)
Lemma load_language_model_run file state d fwd h layers_ e out p sd w :
  torch_load file w = (Ok state, w) →
  configuration_record state d fwd h layers_ e out p →
  state !! "state_dict" = Some (VStateDict sd) →
  valid_configuration h layers_ e out p →
  state_dict_matches sd (architecture (Dictionary.len d) h layers_ e out) →
  ∃ l m0 w',
    load_language_model file w = (Ok l, w')
    ∧ heap w !! l = None
    ∧ heap w'
      = <[l := reloaded (flair_device w)
                 (map_parameters
                    (λ name param, from_option (copy_ param) param (sd !! name))
                    m0)]> (heap w)
    ∧ files w' = files w
    ∧ constructed d fwd h layers_ e out p (flair_device w) m0
    ∧ well_formed m0 ∧ as_configured m0.
Proof.
  intros Hfile [Hd Hfwd Hh Hl He Hout Hp] Hsd Hv Hmatch.
  destruct (__init___run_configured d fwd h layers_ e out p w Hv)
    as (l & m0 & w1 & Hrun & Hfresh & Hheap & Hfiles & _ & Hdev & Hc & Hwf & Hconf).
  exists l, m0. eexists. unfold load_language_model.
  erewrite bind_run; [|exact Hfile].
  do 7 (erewrite bind_run; [|by apply getitem_run]).
  rewrite LanguageModel_call_run.
  erewrite bind_run; [|exact Hrun].
  erewrite bind_run; [|by apply getitem_run].
  erewrite bind_run; [|reflexivity].
  erewrite bind_run.
  2:{ apply (load_state_dict_run _ m0); [by rewrite Hheap, lookup_insert_eq|].
      rewrite (wf_shapes m0 Hwf).
      destruct Hc as [-> _ -> -> -> -> _ _ _ _]. done. }
  unfold eval, to.
  erewrite bind_run.
  2:{ erewrite bind_run; [reflexivity|]. apply read_run. apply lookup_insert_eq. }
  erewrite bind_run; [|reflexivity].
  erewrite bind_run.
  2:{ erewrite bind_run; [reflexivity|]. apply read_run. apply lookup_insert_eq. }
  split; [reflexivity|]. split; [done|].
  cbn [heap files set_heap flair_device
       dictionary is_forward_lm dropout hidden_size embedding_size nlayers
       drop encoder rnn hidden nout proj decoder training device map_parameters].
  split.
  - rewrite !insert_insert_eq, Hheap, insert_insert_eq, Hdev.
    unfold reloaded.
    cbn [dictionary is_forward_lm dropout hidden_size embedding_size nlayers
         drop encoder rnn hidden nout proj decoder training device map_parameters].
    by rewrite (constructed_hidden _ _ _ _ _ _ _ _ _ Hc).
  - done.
Qed.

Lemma length_layer_named_parameters (g : nat → nat) ls :
  length (mjoin (imap (λ k, layer_named_parameters (g k)) ls)) = (4 * length ls)%nat.
Proof.
  revert g. induction ls as [|l ls IH]; intros g; [done|].
  cbn [imap mjoin list_join]. rewrite length_app.
  match goal with
  | |- (_ + ?x)%nat = _ =>
      assert (x = (4 * length ls)%nat) as -> by apply (IH (g ∘ S))
  end.
  cbn. lia.
Qed.

Lemma length_layer_shapes h (g : nat → nat) ins :
  length (mjoin (imap (λ k, layer_shapes h (g k)) ins)) = (4 * length ins)%nat.
Proof.
  revert g. induction ins as [|i ins IH]; intros g; [done|].
  cbn [imap mjoin list_join]. rewrite length_app.
  match goal with
  | |- (_ + ?x)%nat = _ =>
      assert (x = (4 * length ins)%nat) as -> by apply (IH (g ∘ S))
  end.
  cbn. lia.
Qed.

Lemma length_layer_input_sizes e h n : length (layer_input_sizes e h n) = n.
Proof. destruct n; [done|]. cbn. by rewrite length_replicate. Qed.

Lemma well_formed_layers m :
  well_formed m → length (LSTM.layers (rnn m)) = Z.to_nat (nlayers m).
Proof.
  intros Hwf. pose proof (f_equal length (wf_shapes m Hwf)) as Hlen.
  pose proof (wf_proj m Hwf) as Hproj.
  unfold named_parameters, architecture in Hlen.
  rewrite length_fmap, !length_app, (length_layer_named_parameters id),
    (length_layer_shapes _ id), length_layer_input_sizes in Hlen.
  destruct (nout m), (proj m); try done; cbn in Hlen; lia.
Qed.

Lemma layer_named_parameters_inj (g : nat → nat) ls1 ls2 :
  length ls1 = length ls2 →
  mjoin (imap (λ k, layer_named_parameters (g k)) ls1)
  = mjoin (imap (λ k, layer_named_parameters (g k)) ls2) →
  ls1 = ls2.
Proof.
  revert g ls2. induction ls1 as [|l1 ls1 IH]; intros g [|l2 ls2] Hlen; try done.
  cbn [imap mjoin list_join layer_named_parameters app]. intros Heq.
  injection Heq as H1 H2 H3 H4 Hrest.
  f_equal.
  - destruct l1, l2. cbn in *. by subst.
  - apply (IH (g ∘ S)); [by injection Hlen|done].
Qed.

Lemma Embedding_eta e :
  e = Embedding.mk (Embedding.num_embeddings e) (Embedding.embedding_dim e)
        (Embedding.weight e).
Proof. by destruct e. Qed.

Lemma Linear_eta l :
  l = Linear.mk (Linear.in_features l) (Linear.out_features l) (Linear.weight l)
        (Linear.bias l).
Proof. by destruct l. Qed.

Lemma LSTM_eta r :
  r = LSTM.mk (LSTM.input_size r) (LSTM.hidden_size r) (LSTM.num_layers r)
        (LSTM.dropout r) (LSTM.layers r).
Proof. by destruct r. Qed.

(** A well-formed model is determined by its attributes and its parameters. *)
Lemma same_layers m1 m2 :
  well_formed m1 → well_formed m2 → as_configured m1 → as_configured m2 →
  dictionary m1 = dictionary m2 → dropout m1 = dropout m2 →
  hidden_size m1 = hidden_size m2 → embedding_size m1 = embedding_size m2 →
  nlayers m1 = nlayers m2 → nout m1 = nout m2 →
  named_parameters m1 = named_parameters m2 →
  drop m1 = drop m2 ∧ encoder m1 = encoder m2 ∧ rnn m1 = rnn m2
  ∧ proj m1 = proj m2 ∧ decoder m1 = decoder m2.
Proof.
  intros Hwf1 Hwf2 Hc1 Hc2 Hd Hp Hh He Hl Ho Hnp.
  pose proof (well_formed_layers m1 Hwf1) as Hlen1.
  pose proof (well_formed_layers m2 Hwf2) as Hlen2.
  destruct Hwf1 as [_ [Hen1 Hed1] (Hri1 & Hrh1 & Hrl1) Hpr1 [Hdi1 Hdo1] _ _].
  destruct Hwf2 as [_ [Hen2 Hed2] (Hri2 & Hrh2 & Hrl2) Hpr2 [Hdi2 Hdo2] _ _].
  destruct Hc1 as [Hdrop1 Hrd1 _], Hc2 as [Hdrop2 Hrd2 _].
  unfold named_parameters in Hnp. cbn [app] in Hnp.
  injection Hnp as Hew Hrest.
  apply app_inj_1 in Hrest as [Hlayers Hrest];
    [|rewrite !(length_layer_named_parameters id); congruence].
  apply (layer_named_parameters_inj id) in Hlayers; [|congruence].
  split; [congruence|].
  split.
  { rewrite (Embedding_eta (encoder m1)), (Embedding_eta (encoder m2)). congruence. }
  split.
  { rewrite (LSTM_eta (rnn m1)), (LSTM_eta (rnn m2)).
    rewrite Hri1, Hri2, Hrh1, Hrh2, Hrl1, Hrl2, Hrd1, Hrd2, Hlayers.
    by rewrite Hh, He, Hl, Hp. }
  rewrite Ho in Hpr1.
  destruct (nout m2), (proj m1) as [p1|], (proj m2) as [p2|]; try done.
  - destruct Hpr1 as [Hpi1 Hpo1], Hpr2 as [Hpi2 Hpo2].
    cbn in Hrest. injection Hrest as Hpw Hpb Hdw Hdb.
    split.
    + rewrite (Linear_eta p1), (Linear_eta p2). congruence.
    + rewrite (Linear_eta (decoder m1)), (Linear_eta (decoder m2)). congruence.
  - cbn in Hrest. injection Hrest as Hdw Hdb.
    split; [done|].
    rewrite (Linear_eta (decoder m1)), (Linear_eta (decoder m2)). congruence.
Qed.

Lemma copy_saved param t :
  is_float t → leaf t → leaf param → shape param = shape t →
  copy_ param (detach t) = t.
Proof.
  intros [xs Hxs] [Hrg Hgf] [Hprg Hpgf] Hs. unfold copy_. cbn.
  destruct t. cbn in *. subst. by rewrite Hprg, Hpgf.
Qed.

(** The parameters of a model into which the state dict of [m] is loaded. *)
Lemma loaded_parameters m m0 :
  well_formed m → as_configured m → as_configured m0 →
  prod_map id shape <$> named_parameters m0
  = prod_map id shape <$> named_parameters m →
  named_parameters
    (map_parameters
       (λ name param, from_option (copy_ param) param (state_dict_of m !! name)) m0)
  = named_parameters m.
Proof.
  intros Hwf Hc Hc0 Hshapes. rewrite named_parameters_map_parameters.
  pose proof (well_formed_NoDup m Hwf) as Hnd.
  pose proof (wf_float m Hwf) as Hfloat.
  pose proof (configured_leaves m Hc) as Hleaf.
  pose proof (configured_leaves m0 Hc0) as Hleaf0.
  apply list_eq. intros i. rewrite list_lookup_fmap.
  apply (f_equal (.!! i)) in Hshapes. rewrite !list_lookup_fmap in Hshapes.
  destruct (named_parameters m0 !! i) as [[name0 param]|] eqn:H0,
    (named_parameters m !! i) as [[name t]|] eqn:H1; try done.
  cbn in Hshapes. injection Hshapes as -> Hs.
  cbn [fmap option_fmap option_map fst snd]. f_equal. f_equal.
  assert (state_dict_of m !! name = Some (detach t)) as ->.
  { unfold state_dict_of. apply elem_of_list_to_map_1.
    - rewrite <- list_fmap_compose.
      erewrite list_fmap_ext; [exact Hnd|]. by intros ? [].
    - apply list_elem_of_fmap. exists (name, t). split; [done|].
      by eapply list_elem_of_lookup_2. }
  cbn. apply copy_saved; [| | |done].
  - by apply (Forall_lookup_1 _ _ _ _ Hfloat H1).
  - by apply (Forall_lookup_1 _ _ _ _ Hleaf H1).
  - by apply (Forall_lookup_1 _ _ _ _ Hleaf0 H0).
Qed.

(** A record with the configuration and the state dict of [m] is loaded
    into a copy of [m]. *)
Lemma load_record_of_model file state m w :
  torch_load file w = (Ok state, w) →
  well_formed m →
  as_configured m →
  configuration_record state (dictionary m) (is_forward_lm m) (hidden_size m)
    (nlayers m) (embedding_size m) (nout m) (dropout m) →
  state !! "state_dict" = Some (VStateDict (state_dict_of m)) →
  ∃ l w',
    load_language_model file w = (Ok l, w')
    ∧ heap w !! l = None
    ∧ heap w' = <[l := reloaded (flair_device w) m]> (heap w)
    ∧ files w' = files w.
Proof.
  intros Hfile Hwf Hconf Hrec Hsd.
  destruct (load_language_model_run file state (dictionary m)
              (is_forward_lm m) (hidden_size m) (nlayers m) (embedding_size m)
              (nout m) (dropout m) (state_dict_of m) w)
    as (l & m0 & w' & Hload & Hfresh & Hheap & Hfiles & Hc & Hwf0 & Hconf0);
    [done|done|done|apply (wf_configuration m Hwf)| |].
  { rewrite <- (wf_shapes m Hwf). by apply state_dict_of_matches, well_formed_NoDup. }
  destruct Hc as [Hcd Hcf Hch Hcl Hce Hco Hcp _ _ _].
  set (m1 := map_parameters _ m0) in Hheap.
  assert (prod_map id shape <$> named_parameters m0
          = prod_map id shape <$> named_parameters m) as Hshapes.
  { rewrite (wf_shapes m0 Hwf0), (wf_shapes m Hwf). congruence. }
  pose proof (loaded_parameters m m0 Hwf Hconf Hconf0 Hshapes) as Hnp. fold m1 in Hnp.
  assert (well_formed m1) as Hwf1.
  { apply well_formed_map_parameters; [done| |].
    - intros name param. by destruct (state_dict_of m !! name).
    - intros name param Hf. destruct (state_dict_of m !! name) as [t|]; [|done].
      cbn. unfold is_float, copy_; cbn. destruct (data t); by eexists. }
  assert (as_configured m1) as Hconf1.
  { destruct Hconf0 as [Hdrop0 Hrd0 _]. split; [done|done|].
    rewrite Hnp. apply (configured_leaves m Hconf). }
  destruct (same_layers m1 m Hwf1 Hwf Hconf1 Hconf) as (Hdr & Hen & Hrn & Hpr & Hde);
    [done..|].
  assert (reloaded (flair_device w) m1 = reloaded (flair_device w) m) as Hre.
  { unfold reloaded. rewrite Hdr, Hen, Hrn, Hpr, Hde.
    change (dictionary m1) with (dictionary m0).
    change (is_forward_lm m1) with (is_forward_lm m0).
    change (dropout m1) with (dropout m0).
    change (hidden_size m1) with (hidden_size m0).
    change (embedding_size m1) with (embedding_size m0).
    change (nlayers m1) with (nlayers m0).
    change (nout m1) with (nout m0).
    congruence. }
  exists l, w'. by rewrite Hheap, Hre.
Qed.

(** X13.  In a process that has switched the weights-only mode of
    [torch.load] off, a well-formed model with the layers of its
    configuration is restored exactly.  [load_language_model] after [save], and
    [load_checkpoint] after [save_checkpoint], return a new object that is
    the saved model in inference mode, on the device of the process and
    without a stored hidden state; the saved model and every other object are
    untouched.  If the saved model was in inference mode, [forward] returns
    the same from both; and saving the loaded model writes the record that
    was loaded. *)
Theorem save_then_load_restores_the_model (self : loc) (m : LanguageModel)
    (file : string) (optimizer : Optimizer) (epoch split loss : Value)
    (w : World) :
  heap w !! self = Some m →
  well_formed m →
  as_configured m →
  weights_only w = false →
  (∃ w1 l w2,
     save self file w = (Ok tt, w1)
     ∧ load_language_model file w1 = (Ok l, w2)
     ∧ heap w !! l = None
     ∧ heap w2 = <[l := reloaded (flair_device w) m]> (heap w)
     ∧ (training m = false →
        ∀ input hidden,
          (forward l input hidden w2).1 = (forward self input hidden w2).1)
     ∧ (∀ file', ∃ w3, save l file' w2 = (Ok tt, w3)
                       ∧ files w3 !! file' = files w1 !! file))
  ∧ (∃ w1 r l w2,
       save_checkpoint self file optimizer epoch split loss w = (Ok tt, w1)
       ∧ load_checkpoint file w1 = (Ok r, w2)
       ∧ r !! "model" = Some (VModel l)
       ∧ heap w !! l = None
       ∧ heap w2 = <[l := reloaded (flair_device w) m]> (heap w)).
Proof.
  intros Hself Hwf Hconf Htrust. split.
  - rewrite (save_run self m file w Hself).
    set (w1 := set_files _ w).
    assert (files w1 !! file = Some (model_record m)) as Hfile
      by apply lookup_insert_eq.
    pose proof (torch_load_run file _ w1 Hfile Htrust) as Htl.
    destruct (load_record_of_model file (model_record m) m w1 Htl Hwf Hconf)
      as (l & w2 & Hload & Hfresh & Hheap & _); [by split|done|].
    change (flair_device w1) with (flair_device w) in Hheap.
    change (heap w1) with (heap w) in Hheap, Hfresh.
    assert (heap w2 !! l = Some (reloaded (flair_device w) m)) as Hl
      by (by rewrite Hheap, lookup_insert_eq).
    exists w1, l, w2. split; [done|]. split; [done|]. split; [done|].
    split; [done|]. split.
    + intros Htr input hidden.
      assert (heap w2 !! self = Some m) as Hs.
      { rewrite Hheap, lookup_insert_ne; [done|]. intros ->. congruence. }
      unfold forward.
      rewrite (bind_run _ _ _ _ _ (read_run l _ w2 Hl)),
        (bind_run _ _ _ _ _ (read_run self _ w2 Hs)).
      cbn [encoder drop rnn proj decoder training reloaded]. by rewrite Htr.
    + intros file'. rewrite (save_run l _ file' w2 Hl). eexists. split; [done|].
      rewrite Hfile. cbn [files set_files]. by rewrite lookup_insert_eq.
  - rewrite (save_checkpoint_run self m file optimizer epoch split loss w Hself).
    set (record := checkpoint_record m optimizer epoch split loss).
    set (w1 := set_files _ w).
    assert (files w1 !! file = Some record) as Hfile by apply lookup_insert_eq.
    pose proof (torch_load_run file _ w1 Hfile Htrust) as Htl.
    destruct (load_record_of_model file record m w1 Htl Hwf Hconf)
      as (l & w2 & Hload & Hfresh & Hheap & _); [by split|done|].
    exists w1. eexists _, l, w2. split; [done|].
    rewrite (load_checkpoint_as_load_language_model _ _ _ Hfile), Hload.
    done.
Qed.

End Proofs.

(** * Concrete runs *)

#[export] Existing Instance counting_backend.



Lemma small_model_well_formed d : well_formed (small_model d).
Proof.
  apply well_formed_intro; try done; try (by eexists).
  cbn. repeat constructor; by eexists.
Qed.


Example constructor_runs :
  (__init__ three_symbols true 2 2 3 (Some 2) 0.5 empty_world).1 = Ok 0%nat.
Proof. by vm_compute. Qed.

Example generate_text_runs :
  (generate_text 0%nat 4 (world_with (small_model three_symbols))).1
  = Ok "<unk><unk><unk><unk>".
Proof. by vm_compute. Qed.

Example save_then_load_runs :
  ((save 0%nat "model.pt";; load_language_model "model.pt")
     (trusting_world_with (small_model three_symbols))).1
  = Ok 1%nat.
Proof. by vm_compute. Qed.

Example save_then_load_is_refused :
  ((save 0%nat "model.pt";; load_language_model "model.pt")
     (world_with (small_model three_symbols))).1
  = Raise UnpicklingError.
Proof. by vm_compute. Qed.

Lemma forward_shapes_witness :
  heap (world_with (small_model three_symbols)) !! 0%nat
    = Some (small_model three_symbols)
  ∧ (0 < 2)%nat
  ∧ index_batch 3 2 1 two_symbols_input
  ∧ hidden_pair (small_model three_symbols) 1 zero_hidden
  ∧ ∃ logits representation hidden' w',
      forward 0%nat two_symbols_input zero_hidden
        (world_with (small_model three_symbols))
      = (Ok (logits, representation, hidden'), w')
      ∧ shape logits = [2%nat; 1%nat; 3%nat]
      ∧ shape representation = [2%nat; 1%nat; 2%nat]
      ∧ nesting hidden' = nesting zero_hidden.
Proof.
  assert (index_batch 3 2 1 two_symbols_input) as Hin.
  { split; [reflexivity|]. exists [1; 2]. split; [reflexivity|].
    repeat constructor; lia. }
  assert (hidden_pair (small_model three_symbols) 1 zero_hidden) as Hhid.
  { eexists _, _. split; [reflexivity|]. repeat split; by eexists. }
  assert (0 < 2)%nat as Hlen by lia.
  split; [reflexivity|]. split; [exact Hlen|]. split; [exact Hin|].
  split; [exact Hhid|].
  exact (forward_shapes 0%nat (small_model three_symbols) two_symbols_input
           zero_hidden 2 1 (world_with (small_model three_symbols))
           eq_refl (small_model_well_formed three_symbols) Hlen Hin Hhid).
Defined.

(** An empty sequence is an index batch of shape [(0, 1)], and [forward]
    fails on it in the recurrent layers. *)
Lemma forward_shapes_counterexample :
  index_batch 3 0 1 empty_sequence_input
  ∧ hidden_pair (small_model three_symbols) 1 zero_hidden
  ∧ (forward 0%nat empty_sequence_input zero_hidden
       (world_with (small_model three_symbols))).1
    = Raise RuntimeError.
Proof.
  split_and!.
  - split; [reflexivity|]. exists []. split; [reflexivity|]. constructor.
  - eexists _, _. split; [reflexivity|]. repeat split; by eexists.
  - by vm_compute.
Qed.

Lemma init_hidden_zero_witness :
  ∃ h c,
    init_hidden 0%nat 4 (world_with (small_model three_symbols))
    = (Ok (HTuple [HTensor h; HTensor c]), world_with (small_model three_symbols))
    ∧ shape h = [1%nat; 4%nat; 2%nat] ∧ shape c = [1%nat; 4%nat; 2%nat]
    ∧ all_zero h ∧ all_zero c ∧ no_history h ∧ no_history c.
Proof.
  exact (init_hidden_zero 0%nat (small_model three_symbols) 4
           (world_with (small_model three_symbols))
           eq_refl (small_model_well_formed three_symbols)).
Defined.

Lemma repackage_hidden_preserves_values_witness :
  (nesting (repackage_hidden (HTuple [zero_hidden; HTuple []])) 
   = nesting (HTuple [zero_hidden; HTuple []]))
  ∧ ∃ h, init_hidden 0%nat 4 (world_with (small_model three_symbols))
         = (Ok h, world_with (small_model three_symbols))
         ∧ nesting (repackage_hidden h) = nesting h
         ∧ data <$> leaves (repackage_hidden h) = data <$> leaves h.
Proof.
  split.
  - exact (proj1 (proj1 repackage_hidden_preserves_values
                    (HTuple [zero_hidden; HTuple []]))).
  - exact (proj2 repackage_hidden_preserves_values 0%nat
             (small_model three_symbols) 4%nat
             (world_with (small_model three_symbols))
             eq_refl (small_model_well_formed three_symbols)).
Defined.

Lemma generate_text_single_symbol_witness :
  Dictionary.len (dictionary (small_model one_symbol)) = 1%nat
  ∧ raises (generate_text 0%nat 1) RuntimeError (world_with (small_model one_symbol)).
Proof.
  split; [reflexivity|].
  exact (generate_text_single_symbol 0%nat (small_model one_symbol) 1
           (world_with (small_model one_symbol))
           eq_refl (small_model_well_formed one_symbol) eq_refl eq_refl).
Defined.

Lemma constructor_rejects_with_library_error_witness :
  (∃ err, raises (__init__ three_symbols true 2 0 3 None 0.5) err empty_world
          ∧ (err = ValueError ∨ err = RuntimeError))
  ∧ (∃ err, raises (__init__ three_symbols true 2 1 0 None 0.5) err empty_world
            ∧ (err = ValueError ∨ err = RuntimeError))
  ∧ (∃ l w', __init__ three_symbols true 2 1 3 None 0.5 empty_world = (Ok l, w')).
Proof.
  split_and!.
  - apply (proj1 (proj2 (constructor_rejects_with_library_error three_symbols
                           true 2 0 3 None 0.5 empty_world))).
    left. lia.
  - apply (proj1 (proj2 (constructor_rejects_with_library_error three_symbols
                           true 2 1 0 None 0.5 empty_world))).
    right. right. lia.
  - apply (proj2 (proj2 (constructor_rejects_with_library_error three_symbols
                           true 2 1 3 None 0.5 empty_world))).
    by split.
Defined.

(** The constructor rejects a layer count of 0, a hidden size of 0 and an
    embedding width of 0 with the library's ValueError, not with a
    ConfigurationError. *)
Lemma constructor_counterexample :
  (__init__ three_symbols true 2 0 3 None 0.5 empty_world).1 = Raise ValueError
  ∧ (__init__ three_symbols true 0 1 3 None 0.5 empty_world).1 = Raise ValueError
  ∧ (__init__ three_symbols true 2 1 0 None 0.5 empty_world).1 = Raise ValueError.
Proof. split_and!; by vm_compute. Qed.

Lemma generate_text_empty_dictionary_witness :
  Dictionary.len (dictionary (small_model no_symbol)) = 0%nat
  ∧ (∃ w', generate_text 0%nat 0 (world_with (small_model no_symbol)) = (Ok "", w'))
  ∧ raises (generate_text 0%nat 3) RuntimeError (world_with (small_model no_symbol)).
Proof.
  split; [reflexivity|]. split.
  - apply (proj1 (generate_text_empty_dictionary 0%nat (small_model no_symbol) 0
                    (world_with (small_model no_symbol))
                    eq_refl (small_model_well_formed no_symbol) eq_refl)).
    lia.
  - apply (proj2 (generate_text_empty_dictionary 0%nat (small_model no_symbol) 3
                    (world_with (small_model no_symbol))
                    eq_refl (small_model_well_formed no_symbol) eq_refl)).
    lia.
Defined.

(** With an empty dictionary [generate_text(0)] returns the empty string, and
    [generate_text(1)] fails inside its loop with the library's RuntimeError. *)
Lemma generate_text_counterexample :
  (generate_text 0%nat 0 (world_with (small_model no_symbol))).1 = Ok ""
  ∧ (generate_text 0%nat 1 (world_with (small_model no_symbol))).1 = Raise RuntimeError.
Proof. split; by vm_compute. Qed.

Lemma small_configuration_valid : valid_configuration 2 2 3 (Some 2) 0.5.
Proof. split; try done. by intros o [= <-]. Qed.

Lemma constructor_initial_weights_witness :
  ∃ l m w',
    __init__ three_symbols true 2 2 3 (Some 2) 0.5 empty_world = (Ok l, w')
    ∧ heap w' !! l = Some m
    ∧ initial_weights m
    ∧ (is_Some (Some 2) ↔ is_Some (proj m))
    ∧ ∀ w2, generator w2 = generator empty_world →
        ∃ l2 m2 w2',
          __init__ three_symbols true 2 2 3 (Some 2) 0.5 w2 = (Ok l2, w2')
          ∧ heap w2' !! l2 = Some m2
          ∧ named_parameters m2 = named_parameters m.
Proof.
  exact (constructor_initial_weights three_symbols true 2 2 3 (Some 2) 0.5
           empty_world small_configuration_valid).
Defined.

Lemma save_leaves_model_unchanged_witness :
  (∃ w', save 0%nat "model.pt" (world_with (small_model three_symbols)) = (Ok tt, w')
         ∧ heap w' = heap (world_with (small_model three_symbols))
         ∧ heap w' !! 0%nat = Some (small_model three_symbols)
         ∧ generator w' = generator (world_with (small_model three_symbols)))
  ∧ (∃ w', save_checkpoint 0%nat "model.pt" (mkOptimizer VNone) (VInt 3) (VInt 1)
             (VFloat 0.5) (world_with (small_model three_symbols)) = (Ok tt, w')
           ∧ heap w' = heap (world_with (small_model three_symbols))
           ∧ heap w' !! 0%nat = Some (small_model three_symbols)
           ∧ generator w' = generator (world_with (small_model three_symbols))).
Proof.
  exact (save_leaves_model_unchanged 0%nat (small_model three_symbols) "model.pt"
           (mkOptimizer VNone) (VInt 3) (VInt 1) (VFloat 0.5)
           (world_with (small_model three_symbols)) eq_refl).
Defined.

Lemma checkpoint_round_trip_witness :
  (∃ w1,
     save_checkpoint 0%nat "model.pt" (mkOptimizer (VStr "adam")) (VInt 3) (VInt 1)
       (VFloat 0.5) (world_with (small_model three_symbols)) = (Ok tt, w1)
     ∧ load_checkpoint "model.pt" w1 = (Raise UnpicklingError, w1))
  ∧ (∃ w1 r w2,
       save_checkpoint 0%nat "model.pt" (mkOptimizer (VStr "adam")) (VInt 3) (VInt 1)
         (VFloat 0.5) (trusting_world_with (small_model three_symbols)) = (Ok tt, w1)
       ∧ load_checkpoint "model.pt" w1 = (Ok r, w2)
       ∧ r !! "epoch" = Some (VInt 3) ∧ r !! "split" = Some (VInt 1)
       ∧ r !! "loss" = Some (VFloat 0.5)
       ∧ r !! "optimizer_state_dict" = Some (VStr "adam")
       ∧ ∃ l m', r !! "model" = Some (VModel l) ∧ heap w2 !! l = Some m'
                 ∧ holds_state_dict (state_dict_of (small_model three_symbols)) m').
Proof.
  split.
  - exact (proj1 (checkpoint_round_trip 0%nat (small_model three_symbols)
                    "model.pt" (mkOptimizer (VStr "adam")) (VInt 3) (VInt 1)
                    (VFloat 0.5) (world_with (small_model three_symbols))
                    eq_refl (small_model_well_formed three_symbols))
             eq_refl).
  - exact (proj1 (proj2 (checkpoint_round_trip 0%nat (small_model three_symbols)
                           "model.pt" (mkOptimizer (VStr "adam")) (VInt 3)
                           (VInt 1) (VFloat 0.5)
                           (trusting_world_with (small_model three_symbols))
                           eq_refl (small_model_well_formed three_symbols)))
             eq_refl).
Defined.

Lemma load_language_model_spec_witness :
  (∃ key', (key' ∈ configuration_fields
            ∧ record_without_dictionary !! key' = None)
           ∧ raises (load_language_model "model.pt") (KeyError key')
               (world_with_file record_without_dictionary))
  ∧ raises (load_language_model "model.pt") (KeyError "state_dict")
      (trusting_world_with_file
         (delete "state_dict" (model_record (small_model three_symbols))))
  ∧ ∃ l m w',
      load_language_model "model.pt"
        (trusting_world_with_file (model_record (small_model three_symbols)))
      = (Ok l, w')
      ∧ heap (trusting_world_with_file (model_record (small_model three_symbols)))
          !! l = None
      ∧ heap w' !! l = Some m
      ∧ well_formed m
      ∧ holds_state_dict (state_dict_of (small_model three_symbols)) m
      ∧ training m = false ∧ device m = CPU.
Proof.
  split_and!.
  - apply (load_language_model_spec "model.pt" record_without_dictionary
             (world_with_file record_without_dictionary)) with "dictionary";
      [by vm_compute|apply (bool_decide_unpack _); by vm_compute|reflexivity].
  - apply (load_language_model_spec "model.pt"
             (delete "state_dict" (model_record (small_model three_symbols)))
             (trusting_world_with_file _))
      with three_symbols true 2 1 3 None 0.5%float;
      [by vm_compute|by split|by split|reflexivity].
  - apply (load_language_model_spec "model.pt"
             (model_record (small_model three_symbols))
             (trusting_world_with_file _))
      with three_symbols true 2 1 3 None 0.5%float;
      [by vm_compute|by split|reflexivity|by split|].
    pose proof (small_model_well_formed three_symbols) as Hwf.
    pose proof (state_dict_of_matches _ (well_formed_NoDup _ Hwf)) as Hmatch.
    rewrite (wf_shapes _ Hwf) in Hmatch. exact Hmatch.
Defined.

(** On a record without its [dictionary] field, [load_language_model] raises
    a KeyError. *)
Lemma load_language_model_counterexample :
  (load_language_model "model.pt" (world_with_file record_without_dictionary)).1
  = Raise (KeyError "dictionary").
Proof. by vm_compute. Qed.

(** ** Further concrete runs *)

Lemma small_model_in_inference_well_formed : well_formed small_model_in_inference.
Proof.
  exact (well_formed_mode (small_model three_symbols) false CPU
           (small_model_well_formed three_symbols)).
Qed.

Lemma small_model_in_inference_as_configured : as_configured small_model_in_inference.
Proof.
  split; [done|done|]. unfold named_parameters. cbn. repeat constructor.
Qed.

Lemma two_symbols_input_index_batch : index_batch 3 2 1 two_symbols_input.
Proof.
  split; [reflexivity|]. exists [1; 2]. split; [reflexivity|].
  repeat constructor; lia.
Qed.

Lemma zero_hidden_pair : hidden_pair (small_model three_symbols) 1 zero_hidden.
Proof. eexists _, _. split; [reflexivity|]. repeat split; by eexists. Qed.

Lemma hidden_attribute_is_never_read_witness :
  ∃ m' w',
    set_hidden 0%nat zero_hidden (world_with (small_model three_symbols)) = (Ok tt, w')
    ∧ heap w' = <[0%nat := m']> (heap (world_with (small_model three_symbols)))
    ∧ hidden m' = Some zero_hidden
    ∧ without_hidden m' = without_hidden (small_model three_symbols)
    ∧ (∀ input hidden0,
         (forward 0%nat input hidden0 w').1
         = (forward 0%nat input hidden0 (world_with (small_model three_symbols))).1)
    ∧ (∀ bsz,
         (init_hidden 0%nat bsz w').1
         = (init_hidden 0%nat bsz (world_with (small_model three_symbols))).1)
    ∧ (∀ lookup strings detach,
         (get_representation lookup 0%nat strings detach w').1
         = (get_representation lookup 0%nat strings detach
              (world_with (small_model three_symbols))).1)
    ∧ (∀ n,
         (generate_text 0%nat n w').1
         = (generate_text 0%nat n (world_with (small_model three_symbols))).1)
    ∧ (∀ file,
         files (save 0%nat file w').2
         = files (save 0%nat file (world_with (small_model three_symbols))).2).
Proof.
  exact (hidden_attribute_is_never_read 0%nat (small_model three_symbols)
           zero_hidden (world_with (small_model three_symbols)) eq_refl).
Defined.

Lemma forward_batch_mismatch_witness :
  index_batch 3 2 1 two_symbols_input
  ∧ hidden_pair (small_model three_symbols) 2 zero_hidden_of_two
  ∧ raises (forward 0%nat two_symbols_input zero_hidden_of_two) RuntimeError
      (world_with (small_model three_symbols)).
Proof.
  assert (hidden_pair (small_model three_symbols) 2 zero_hidden_of_two) as Hhid.
  { eexists _, _. split; [reflexivity|]. repeat split; by eexists. }
  split; [exact two_symbols_input_index_batch|]. split; [exact Hhid|].
  apply (forward_batch_mismatch 0%nat (small_model three_symbols)
           two_symbols_input zero_hidden_of_two 2 1 2
           (world_with (small_model three_symbols))
           eq_refl (small_model_well_formed three_symbols)
           two_symbols_input_index_batch Hhid).
  lia.
Defined.

Lemma forward_index_out_of_range_witness :
  forward 0%nat unknown_index_input zero_hidden (world_with (small_model three_symbols))
  = (Raise IndexError, world_with (small_model three_symbols)).
Proof.
  apply (forward_index_out_of_range 0%nat (small_model three_symbols)
           unknown_index_input zero_hidden [7] 7
           (world_with (small_model three_symbols))
           eq_refl (small_model_well_formed three_symbols)).
  - cbn. lia.
  - reflexivity.
  - apply list_elem_of_here.
  - right. cbn. lia.
Defined.

Lemma forward_accepts_its_hidden_state_witness :
  ∃ logits1 representation1 hidden1 w1,
    forward 0%nat two_symbols_input zero_hidden (world_with (small_model three_symbols))
    = (Ok (logits1, representation1, hidden1), w1)
    ∧ (∃ logits2 representation2 hidden2 w2,
         forward 0%nat two_symbols_input hidden1 w1
         = (Ok (logits2, representation2, hidden2), w2)
         ∧ shape logits2 = [2%nat; 1%nat; 3%nat])
    ∧ (∃ logits2 representation2 hidden2 w2,
         forward 0%nat two_symbols_input (repackage_hidden hidden1) w1
         = (Ok (logits2, representation2, hidden2), w2)
         ∧ shape logits2 = [2%nat; 1%nat; 3%nat]).
Proof.
  apply (forward_accepts_its_hidden_state 0%nat (small_model three_symbols)
           two_symbols_input two_symbols_input zero_hidden 2 2 1
           (world_with (small_model three_symbols))
           eq_refl (small_model_well_formed three_symbols)).
  - lia.
  - lia.
  - exact two_symbols_input_index_batch.
  - exact two_symbols_input_index_batch.
  - exact zero_hidden_pair.
Defined.

Lemma forward_without_autograd_witness :
  grad_enabled (quiet_world_with (small_model three_symbols)) = false
  ∧ ∃ logits representation hidden' w',
      forward 0%nat two_symbols_input zero_hidden
        (quiet_world_with (small_model three_symbols))
      = (Ok (logits, representation, hidden'), w')
      ∧ no_history logits ∧ no_history representation
      ∧ Forall no_history (leaves hidden').
Proof.
  split; [reflexivity|].
  apply (forward_without_autograd 0%nat (small_model three_symbols)
           two_symbols_input zero_hidden 2 1
           (quiet_world_with (small_model three_symbols))
           eq_refl (small_model_well_formed three_symbols)).
  - lia.
  - exact two_symbols_input_index_batch.
  - exact zero_hidden_pair.
  - reflexivity.
Defined.

Lemma two_strings_indexed :
  Forall (λ string, length string = 2%nat
                    ∧ indexed first_index three_symbols string) two_strings.
Proof.
  repeat constructor; by vm_compute.
Qed.

Lemma get_representation_shape_witness :
  Forall (λ string, length string = 2%nat
                    ∧ indexed first_index three_symbols string) two_strings
  ∧ ∃ t w',
      get_representation first_index 0%nat two_strings true
        (world_with (small_model three_symbols))
      = (Ok (HTensor t), w')
      ∧ shape t = [2%nat; 2%nat; 2%nat]
      ∧ (true = true → no_history t)
      ∧ frame (world_with (small_model three_symbols)) w'.
Proof.
  split; [exact two_strings_indexed|].
  apply (get_representation_shape first_index 0%nat (small_model three_symbols)
           two_strings 2 true (world_with (small_model three_symbols))
           eq_refl (small_model_well_formed three_symbols)).
  - discriminate.
  - lia.
  - exact two_strings_indexed.
Defined.

Lemma get_representation_rejects_witness :
  raises (get_representation first_index 0%nat [] true) IndexError
    (world_with (small_model three_symbols))
  ∧ raises (get_representation first_index 0%nat [["a"; "b"]; ["a"]] true)
      ValueError (world_with (small_model three_symbols)).
Proof.
  pose proof (get_representation_rejects first_index 0%nat
                (small_model three_symbols) true
                (world_with (small_model three_symbols)) eq_refl)
    as [Hempty Hragged].
  split; [exact Hempty|].
  apply (Hragged ["a"; "b"] [["a"]] ["a"]); [apply list_elem_of_here|discriminate].
Defined.

Lemma generate_text_returns_symbols_witness :
  ∃ words w',
    generate_text 0%nat 4 (world_with (small_model three_symbols))
    = (Ok (String.concat "" words), w')
    ∧ length words = 4%nat
    ∧ Forall (λ x, x ∈ Dictionary.idx2item three_symbols) words
    ∧ frame (world_with (small_model three_symbols)) w'.
Proof.
  apply (generate_text_returns_symbols 0%nat (small_model three_symbols) 4
           (world_with (small_model three_symbols))
           eq_refl (small_model_well_formed three_symbols)).
  cbn. lia.
Defined.

Lemma init_hidden_negative_batch_witness :
  init_hidden 0%nat (-1) (world_with (small_model three_symbols))
  = (Raise RuntimeError, world_with (small_model three_symbols)).
Proof.
  apply (init_hidden_negative_batch 0%nat (small_model three_symbols) (-1)
           (world_with (small_model three_symbols)) eq_refl).
  lia.
Defined.


Lemma init_weights_reinitialises_witness :
  ∃ m' w',
    init_weights 0%nat (world_with (small_model three_symbols)) = (Ok tt, w')
    ∧ heap w' = <[0%nat := m']> (heap (world_with (small_model three_symbols)))
    ∧ files w' = files (world_with (small_model three_symbols))
    ∧ well_formed m'
    ∧ drawn_uniformly (-0.1) 0.1 (Embedding.weight (encoder m'))
    ∧ all_zero (Linear.bias (decoder m'))
    ∧ drawn_uniformly (-0.1) 0.1 (Linear.weight (decoder m'))
    ∧ rnn m' = rnn (small_model three_symbols)
    ∧ proj m' = proj (small_model three_symbols)
    ∧ hidden m' = hidden (small_model three_symbols)
    ∧ training m' = training (small_model three_symbols).
Proof.
  exact (init_weights_reinitialises 0%nat (small_model three_symbols)
           (world_with (small_model three_symbols))
           eq_refl (small_model_well_formed three_symbols)).
Defined.

Lemma save_then_load_restores_the_model_witness :
  as_configured small_model_in_inference
  ∧ (∃ w1 l w2,
       save 0%nat "model.pt" (trusting_world_with small_model_in_inference) = (Ok tt, w1)
       ∧ load_language_model "model.pt" w1 = (Ok l, w2)
       ∧ heap (trusting_world_with small_model_in_inference) !! l = None
       ∧ heap w2 = <[l := small_model_in_inference]>
                     (heap (trusting_world_with small_model_in_inference))
       ∧ (∀ input hidden,
            (forward l input hidden w2).1 = (forward 0%nat input hidden w2).1))
  ∧ (∃ w1 r l w2,
       save_checkpoint 0%nat "model.pt" (mkOptimizer VNone) (VInt 3) (VInt 1)
         (VFloat 0.5) (trusting_world_with small_model_in_inference) = (Ok tt, w1)
       ∧ load_checkpoint "model.pt" w1 = (Ok r, w2)
       ∧ r !! "model" = Some (VModel l)
       ∧ heap w2 = <[l := small_model_in_inference]>
                     (heap (trusting_world_with small_model_in_inference))).
Proof.
  split; [exact small_model_in_inference_as_configured|].
  destruct (save_then_load_restores_the_model 0%nat small_model_in_inference
              "model.pt" (mkOptimizer VNone) (VInt 3) (VInt 1) (VFloat 0.5)
              (trusting_world_with small_model_in_inference) eq_refl
              small_model_in_inference_well_formed
              small_model_in_inference_as_configured eq_refl)
    as [(w1 & l & w2 & Hsave & Hload & Hfresh & Hheap & Hforward & _)
        (w1' & r & l' & w2' & Hsave' & Hload' & Hmodel & _ & Hheap')].
  split.
  - exists w1, l, w2. repeat (split; [done|]). by apply Hforward.
  - by exists w1', r, l', w2'.
Defined.

Lemma constructor_builds_the_configuration_witness :
  ∃ l m w',
    __init__ three_symbols true 2 2 3 (Some 2) 0.5 empty_world = (Ok l, w')
    ∧ heap empty_world !! l = None
    ∧ heap w' = <[l := m]> (heap empty_world)
    ∧ files w' = files empty_world
    ∧ constructed three_symbols true 2 2 3 (Some 2) 0.5 CPU m
    ∧ well_formed m
    ∧ Dropout.p (drop m) = 0.5%float
    ∧ LSTM.dropout (rnn m) = 0.5%float
    ∧ Linear.in_features (decoder m) = 2%nat
    ∧ Linear.out_features (decoder m) = 3%nat
    ∧ as_configured m.
Proof.
  exact (constructor_builds_the_configuration three_symbols true 2 2 3 (Some 2)
           0.5 empty_world small_configuration_valid).
Defined.

Lemma load_rejects_other_state_dicts_witness :
  ¬ state_dict_matches ∅ (architecture 3 2 1 3 None)
  ∧ raises (load_language_model "model.pt") RuntimeError
      (trusting_world_with_file record_with_empty_state_dict)
  ∧ raises (load_checkpoint "model.pt") RuntimeError
      (trusting_world_with_file record_with_empty_state_dict).
Proof.
  assert (¬ state_dict_matches ∅ (architecture 3 2 1 3 None)) as Hno.
  { intros [Hall _]. apply Forall_inv in Hall as (t & Ht & _).
    by rewrite lookup_empty in Ht. }
  split; [exact Hno|].
  apply (load_rejects_other_state_dicts "model.pt" record_with_empty_state_dict
           three_symbols true 2 1 3 None 0.5 ∅
           (trusting_world_with_file record_with_empty_state_dict) eq_refl eq_refl);
    [by split|reflexivity|by split|exact Hno].
Defined.
